(** * Fancy inverter: auxiliary controller firmware (software/inverter.c)

    A shallow embedding of the 8051 firmware that supervises the inverter's
    main controller over the LIN bus, together with the properties of its
    serial transport, protocol engine, power sequencing and control loop.

    Bytes ([byte], 8 bits) and words ([word], 16 bits) are integers in [Z];
    every place where the C code can wrap or truncate is written out with
    [b8] or [w16].  The firmware's globals and the special-function registers
    it uses form the record [state]; the hardware around the chip (input
    pins, the UART) is the record [env] inside it.  Functions of the firmware
    are state transformers in the monad [M]. *)

From Stdlib Require Import ZArith List Bool Lia Arith.
Import ListNotations.
Local Open Scope Z_scope.

(* ================================================================== *)
(** ** Machine integers and arrays *)

(** Truncation to [byte] (unsigned char). *)
Definition b8 (x : Z) : Z := x mod 256.

(** Truncation to [word] (unsigned int, 16 bits with SDCC on the 8051). *)
Definition w16 (x : Z) : Z := x mod 65536.

(** C truth value of a condition, as the integer 0 or 1. *)
Definition b2z (b : bool) : Z := if b then 1 else 0.

(** [a[i]] for an array modelled as a list.  The firmware only indexes
    inside its arrays; outside, the model reads 0. *)
Definition aget (a : list Z) (i : Z) : Z := nth (Z.to_nat i) a 0.

(** List update at a position; positions past the end leave the list as it
    is. *)
Fixpoint upd (a : list Z) (n : nat) (v : Z) : list Z :=
  match a, n with
  | [], _ => []
  | _ :: t, O => v :: t
  | h :: t, S n' => h :: upd t n' v
  end.

(** [a[i] = v]. *)
Definition aset (a : list Z) (i : Z) (v : Z) : list Z := upd a (Z.to_nat i) v.

(* ================================================================== *)
(** ** Constants of the source *)

Definition RCV_BUFF_SIZE_EXP : Z := 3.
Definition TR_BUFF_SIZE_EXP : Z := 3.
Definition RCV_BUFF_SIZE : Z := Z.shiftl 1 RCV_BUFF_SIZE_EXP.
Definition TR_BUFF_SIZE : Z := Z.shiftl 1 TR_BUFF_SIZE_EXP.
Definition RCV_BUFF_MASK : Z := RCV_BUFF_SIZE - 1.
Definition TR_BUFF_MASK : Z := TR_BUFF_SIZE - 1.

Definition WAKEUP_ERROR : Z := 1.
Definition RESP_ERROR : Z := 2.
Definition STARTUP_ERROR : Z := 3.
Definition PGOOD_ERROR : Z := 4.
Definition LOW_BATT_ERR : Z := 5.

(** Bits of the PCON register (8051.h). *)
Definition SMOD : Z := 128.
Definition PD : Z := 2.
Definition IDL : Z := 1.

(** [power_on_data]: the two LIN commands share one array; the start command
    is its first two bytes, the stop command its last two. *)
Definition power_on_data : list Z := [2; 0; 0].

(* ================================================================== *)
(** ** State *)

(** One UART ring buffer: the array, the number of bytes held, and the two
    positions.  The receive buffer is [rcv_buff], [buffered_rcv],
    [rcv_read_pos], [rcv_write_pos]; the transmit buffer is [tr_buff],
    [buffered_tr], [tr_read_pos], [tr_write_pos]. *)
Record ring : Type := mkRing {
  buff : list Z;
  count : Z;
  read_pos : Z;
  write_pos : Z
}.

(** What the UART hardware can do while time passes: a byte has been
    received (RI is raised with the byte in SBUF), or the byte being sent is
    out (TI is raised). *)
Inductive hw_event : Type :=
| RxByte (b : Z)
| TxDone.

(** The surroundings of the chip.  Each input pin is the stream of the values
    its successive reads will return; [uart_in] holds, for each successive
    span of time spent by the program (a [delay] call, a busy wait, a sleep),
    the UART events of that span.  When [uart_in] is used up the bus stays
    quiet. *)
Record env : Type := mkEnv {
  POW_5V_in : nat -> bool;
  P_GOOD_in : nat -> bool;
  P3_2_in : nat -> bool;
  uart_in : list (list hw_event)
}.

(** What the program does to the outside, in program order. *)
Inductive action : Type :=
| ATx (level : bool)      (* TX = level *)
| AEnOv (level : bool)    (* EN_OV = level *)
| ALed (level : bool)     (* LED_OV = level *)
| ADelay (ms : Z)         (* delay(ms) *)
| AIdle                   (* ENTER_IDLE() *)
| APowerDown.             (* ENTER_PD(); while(1); *)

Record state : Type := mkState {
  rcv : ring;               (* UART receive buffer *)
  tr : ring;                (* UART transmit buffer *)
  tr_armed : bool;          (* has transmission started *)
  resp_buff : list Z;       (* LIN response buffer, 9 bytes *)
  EA : bool;                (* global interrupt enable *)
  ES : bool;                (* serial interrupt enable *)
  RI : bool;                (* receive interrupt flag *)
  TI : bool;                (* transmit interrupt flag *)
  SBUF_in : Z;              (* SBUF as read: the last byte received *)
  PCON : Z;
  wire : list Z;            (* bytes written to SBUF, oldest first *)
  out : list action;        (* actions of the main context, oldest first *)
  world : env
}.

Definition rcv_buff (s : state) : list Z := buff (rcv s).
Definition buffered_rcv (s : state) : Z := count (rcv s).
Definition rcv_read_pos (s : state) : Z := read_pos (rcv s).
Definition rcv_write_pos (s : state) : Z := write_pos (rcv s).
Definition tr_buff (s : state) : list Z := buff (tr s).
Definition buffered_tr (s : state) : Z := count (tr s).
Definition tr_read_pos (s : state) : Z := read_pos (tr s).
Definition tr_write_pos (s : state) : Z := write_pos (tr s).

Definition set_rcv (v : ring) (s : state) : state :=
  mkState v (tr s) (tr_armed s) (resp_buff s) (EA s) (ES s) (RI s) (TI s)
          (SBUF_in s) (PCON s) (wire s) (out s) (world s).
Definition set_tr (v : ring) (s : state) : state :=
  mkState (rcv s) v (tr_armed s) (resp_buff s) (EA s) (ES s) (RI s) (TI s)
          (SBUF_in s) (PCON s) (wire s) (out s) (world s).
Definition set_tr_armed (v : bool) (s : state) : state :=
  mkState (rcv s) (tr s) v (resp_buff s) (EA s) (ES s) (RI s) (TI s)
          (SBUF_in s) (PCON s) (wire s) (out s) (world s).
Definition set_resp_buff (v : list Z) (s : state) : state :=
  mkState (rcv s) (tr s) (tr_armed s) v (EA s) (ES s) (RI s) (TI s)
          (SBUF_in s) (PCON s) (wire s) (out s) (world s).
Definition set_EA (v : bool) (s : state) : state :=
  mkState (rcv s) (tr s) (tr_armed s) (resp_buff s) v (ES s) (RI s) (TI s)
          (SBUF_in s) (PCON s) (wire s) (out s) (world s).
Definition set_ES (v : bool) (s : state) : state :=
  mkState (rcv s) (tr s) (tr_armed s) (resp_buff s) (EA s) v (RI s) (TI s)
          (SBUF_in s) (PCON s) (wire s) (out s) (world s).
Definition set_RI (v : bool) (s : state) : state :=
  mkState (rcv s) (tr s) (tr_armed s) (resp_buff s) (EA s) (ES s) v (TI s)
          (SBUF_in s) (PCON s) (wire s) (out s) (world s).
Definition set_TI (v : bool) (s : state) : state :=
  mkState (rcv s) (tr s) (tr_armed s) (resp_buff s) (EA s) (ES s) (RI s) v
          (SBUF_in s) (PCON s) (wire s) (out s) (world s).
Definition set_SBUF_in (v : Z) (s : state) : state :=
  mkState (rcv s) (tr s) (tr_armed s) (resp_buff s) (EA s) (ES s) (RI s) (TI s)
          v (PCON s) (wire s) (out s) (world s).
Definition set_PCON (v : Z) (s : state) : state :=
  mkState (rcv s) (tr s) (tr_armed s) (resp_buff s) (EA s) (ES s) (RI s) (TI s)
          (SBUF_in s) v (wire s) (out s) (world s).
Definition set_wire (v : list Z) (s : state) : state :=
  mkState (rcv s) (tr s) (tr_armed s) (resp_buff s) (EA s) (ES s) (RI s) (TI s)
          (SBUF_in s) (PCON s) v (out s) (world s).
Definition set_out (v : list action) (s : state) : state :=
  mkState (rcv s) (tr s) (tr_armed s) (resp_buff s) (EA s) (ES s) (RI s) (TI s)
          (SBUF_in s) (PCON s) (wire s) v (world s).
Definition set_world (v : env) (s : state) : state :=
  mkState (rcv s) (tr s) (tr_armed s) (resp_buff s) (EA s) (ES s) (RI s) (TI s)
          (SBUF_in s) (PCON s) (wire s) (out s) v.

(** The state after reset: the globals as their initialisers give them, all
    interrupts off, and the surroundings [w]. *)
Definition empty_ring (n : nat) : ring := mkRing (repeat 0 n) 0 0 0.

Definition reset_state (w : env) : state :=
  mkState (empty_ring 8) (empty_ring 8) false (repeat 0 9%nat)
          false false false false 0 0 [] [] w.

(* ================================================================== *)
(** ** The monad of firmware functions *)

Definition M (A : Type) : Type := state -> A * state.

Definition ret {A} (a : A) : M A := fun s => (a, s).

Definition bind {A B} (m : M A) (f : A -> M B) : M B :=
  fun s => let (a, s') := m s in f a s'.

Definition modify (f : state -> state) : M unit := fun s => (tt, f s).

Definition gets {A} (f : state -> A) : M A := fun s => (f s, s).

Declare Scope fw_scope.
Delimit Scope fw_scope with fw.
Notation "x <- m ;; k" := (bind m (fun x => k))
  (at level 61, m at next level, right associativity) : fw_scope.
Notation "m ;; k" := (bind m (fun _ => k))
  (at level 61, right associativity) : fw_scope.
Local Open Scope fw_scope.

(** [for(byte i = lo; ...; i++) body], run for at most [n] rounds: the body
    answers [Some r] to leave the loop with [r] (a [return] or a [break]) and
    [None] to go on with the next [i]; the loop answers [None] when its
    rounds are used up. *)
Fixpoint for_loop {R} (n : nat) (i : Z) (body : Z -> M (option R))
  : M (option R) :=
  match n with
  | O => ret None
  | S n' =>
      r <- body i ;;
      match r with
      | Some x => ret (Some x)
      | None => for_loop n' (i + 1) body
      end
  end.

(* ================================================================== *)
(** ** Ring buffer steps *)

(** Store a byte at the write position and advance it (the body of the
    "buffer not full" branch, in the receive interrupt and in [UART_send]). *)
Definition ring_put (mask : Z) (b : Z) (r : ring) : ring :=
  mkRing (aset (buff r) (write_pos r) b)
         (b8 (count r + 1))
         (read_pos r)
         (Z.land (write_pos r + 1) mask).

(** The byte at the read position, and the ring with the read position
    advanced (the body of the "any left" branch, in [UART_read] and in the
    transmit interrupt). *)
Definition ring_get (mask : Z) (r : ring) : Z * ring :=
  (aget (buff r) (read_pos r),
   mkRing (buff r) (b8 (count r - 1)) (Z.land (read_pos r + 1) mask)
          (write_pos r)).

(** The receive half of the interrupt's work, as an operation on the receive
    buffer: [if(buffered_rcv < RCV_BUFF_SIZE) { ... }]. *)
Definition rcv_enqueue (b : Z) (r : ring) : ring :=
  if count r <? RCV_BUFF_SIZE then ring_put RCV_BUFF_MASK b r else r.

(** The buffer part of [UART_read]: the byte read (0 when there is none) and
    the buffer afterwards. *)
Definition rcv_dequeue (r : ring) : Z * ring :=
  if 0 <? count r then ring_get RCV_BUFF_MASK r else (0, r).

(** The buffer part of [UART_send]: [if(buffered_tr < TR_BUFF_SIZE) { ... }]. *)
Definition tr_enqueue (b : Z) (r : ring) : ring :=
  if count r <? TR_BUFF_SIZE then ring_put TR_BUFF_MASK b r else r.

(** The buffer part of the transmit interrupt: the byte to put into SBUF, if
    there is one, and the buffer afterwards. *)
Definition tr_dequeue (r : ring) : option Z * ring :=
  if 0 <? count r then let (b, r') := ring_get TR_BUFF_MASK r in (Some b, r')
  else (None, r).

(* ================================================================== *)
(** ** Interrupts and the passing of time *)

(** [UART_ISR]. *)
Definition UART_ISR (s : state) : state :=
  let s :=
    if RI s then
      let s := set_RI false s in
      set_rcv (rcv_enqueue (SBUF_in s) (rcv s)) s
    else s in
  if TI s then
    let s := set_TI false s in
    match tr_dequeue (tr s) with
    | (Some b, r) => set_tr r (set_wire (wire s ++ [b]) s)
    | (None, _) => set_tr_armed false s
    end
  else s.

(** The serial interrupt is taken when it is enabled and one of its flags is
    up; the handler lowers both flags, so it runs once. *)
Definition irq (s : state) : state :=
  if EA s && ES s && (RI s || TI s) then UART_ISR s else s.

(** One UART event: the hardware raises the flag, and the interrupt, when
    enabled, is served at once. *)
Definition hw_step (s : state) (e : hw_event) : state :=
  match e with
  | RxByte b => irq (set_SBUF_in b (set_RI true s))
  | TxDone => irq (set_TI true s)
  end.

(** A span of time: the next group of UART events happens. *)
Definition pass_time (s : state) : state :=
  match uart_in (world s) with
  | [] => s
  | evs :: rest =>
      let w := world s in
      fold_left hw_step evs
        (set_world (mkEnv (POW_5V_in w) (P_GOOD_in w) (P3_2_in w) rest) s)
  end.

Definition sei : M unit := modify (fun s => irq (set_EA true s)).
Definition cli : M unit := modify (set_EA false).

(** [UART_INT_EN()]: TI = 0; RI = 0; PS = 1; ES = 1 (the priority bit PS has
    no part in this model). *)
Definition UART_INT_EN : M unit :=
  modify (fun s => set_ES true (set_RI false (set_TI false s))).
Definition UART_INT_DIS : M unit := modify (set_ES false).

Definition act (a : action) : M unit :=
  modify (fun s => set_out (out s ++ [a]) s).

(** [delay(time_ms)]: a calibrated busy loop; time passes. *)
Definition delay (time_ms : Z) : M unit :=
  act (ADelay time_ms) ;; modify pass_time.

(** [ENTER_IDLE()]: the processor sleeps until an interrupt wakes it. *)
Definition ENTER_IDLE : M unit :=
  modify (fun s => set_PCON (Z.lor (PCON s) IDL) s) ;;
  act AIdle ;; modify pass_time.

(** Reading an input pin takes the next value of its stream. *)
Definition tl_stream (f : nat -> bool) : nat -> bool := fun k => f (S k).

Definition read_POW_5V : M bool := fun s =>
  let w := world s in
  (POW_5V_in w 0%nat,
   set_world (mkEnv (tl_stream (POW_5V_in w)) (P_GOOD_in w) (P3_2_in w)
                    (uart_in w)) s).

Definition read_P_GOOD : M bool := fun s =>
  let w := world s in
  (P_GOOD_in w 0%nat,
   set_world (mkEnv (POW_5V_in w) (tl_stream (P_GOOD_in w)) (P3_2_in w)
                    (uart_in w)) s).

(** [PLUG] is [!(P3_2)]. *)
Definition read_PLUG : M bool := fun s =>
  let w := world s in
  (negb (P3_2_in w 0%nat),
   set_world (mkEnv (POW_5V_in w) (P_GOOD_in w) (tl_stream (P3_2_in w))
                    (uart_in w)) s).

(* ================================================================== *)
(** ** UART transport *)

(** The bounded wait of [UART_send] for TI with interrupts off: it ends at
    once when TI is up, and otherwise lets a span of time pass, in which the
    hardware may raise it. *)
Definition wait_TI : M unit :=
  modify (fun s => if TI s then s else pass_time s).

(** [UART_send]. *)
Definition UART_send (data : Z) : M unit :=
  cli ;;
  modify (fun s => set_tr (tr_enqueue data (tr s)) s) ;;
  armed <- gets tr_armed ;;
  (if negb armed then
     modify (fun s => set_tr_armed true (set_TI true s))
   else
     n <- gets buffered_tr ;;
     if n =? TR_BUFF_SIZE then wait_TI else ret tt) ;;
  sei ;;
  delay 1.

(** [UART_read]. *)
Definition UART_read : M Z :=
  cli ;;
  r <- gets (fun s => rcv_dequeue (rcv s)) ;;
  modify (set_rcv (snd r)) ;;
  sei ;;
  ret (fst r).

(* ================================================================== *)
(** ** LIN master *)

(** [LIN_wakeup]. *)
Definition LIN_wakeup : M unit :=
  act (ATx true) ;;
  delay 10 ;;
  act (ATx false) ;;
  delay 1 ;;
  act (ATx true) ;;
  delay 105.

(** The frame ID with its two parity bits, as [LIN_send_request] computes
    [ID_word] from [ID]. *)
Definition protected_id (ID : Z) : Z :=
  let parity_0 :=
    b8 (Z.lxor (Z.lxor (Z.lxor (Z.land ID 1)
                               (Z.land (Z.shiftr ID 1) 1))
                       (Z.land (Z.shiftr ID 2) 1))
               (Z.land (Z.shiftr ID 4) 1)) in
  let parity_1 :=
    b8 (Z.shiftl
          (b2z (Z.lxor (Z.lxor (Z.lxor (Z.land (Z.shiftr ID 1) 1)
                                       (Z.land (Z.shiftr ID 3) 1))
                               (Z.land (Z.shiftr ID 4) 1))
                       (Z.land (Z.shiftr ID 5) 1) =? 0))
          1) in
  b8 (Z.lor (Z.land ID 63) (Z.shiftl (Z.lor parity_0 parity_1) 6)).

(** [LIN_send_request]. *)
Definition LIN_send_request (ID : Z) : M Z :=
  for_loop 100 0 (fun _ =>
    armed <- gets tr_armed ;;
    if negb armed then ret (Some tt) else delay 1 ;; ret None) ;;
  modify (fun s => set_PCON (Z.land (PCON s) (Z.lnot SMOD)) s) ;;
  UART_send 0 ;;
  modify (fun s => set_PCON (Z.lor (PCON s) SMOD) s) ;;
  let ID_word := protected_id ID in
  UART_send 85 ;;
  UART_send ID_word ;;
  ret ID_word.

(** The loop of [LIN_send_data]: [n] bytes still to send from position [i],
    with the running [checksum]; the answer is the sum after the last byte. *)
Fixpoint send_bytes (n : nat) (i : Z) (data : list Z) (checksum : Z) : M Z :=
  match n with
  | O => ret checksum
  | S n' =>
      UART_send (aget data i) ;;
      send_bytes n' (i + 1) data (w16 (checksum + aget data i))
  end.

(** [LIN_send_data]; [data] is the array from the pointer on. *)
Definition LIN_send_data (data : list Z) (len : Z) (ID_word : Z) : M unit :=
  checksum <- send_bytes (Z.to_nat len) 0 data ID_word ;;
  let checksum :=
    w16 (Z.lxor (Z.land checksum 255 + Z.shiftr checksum 8) 255) in
  UART_send (Z.land checksum 255).

(** The number of bytes the receive buffer can still come to hold: those it
    holds, one more when a received byte waits in SBUF, and those the bus
    will still deliver. *)
Definition is_rx (e : hw_event) : bool :=
  match e with RxByte _ => true | TxDone => false end.

Definition rx_pending (u : list (list hw_event)) : nat :=
  length (filter is_rx (concat u)).

Definition rx_budget (s : state) : nat :=
  (Z.to_nat (buffered_rcv s) + (if RI s then 1 else 0)
   + rx_pending (uart_in (world s)))%nat.

(** The [while(buffered_rcv)] loop of [LIN_read_response]. *)
Fixpoint read_loop (fuel : nat) (read_bytes : Z) (dest : list Z)
  : M (Z * list Z) :=
  match fuel with
  | O => ret (read_bytes, dest)
  | S fuel' =>
      n <- gets buffered_rcv ;;
      if n =? 0 then ret (read_bytes, dest)
      else
        received <- UART_read ;;
        let '(read_bytes', dest') :=
          if read_bytes <? 9
          then (b8 (read_bytes + 1), aset dest read_bytes received)
          else (read_bytes, dest) in
        delay 1 ;;
        read_loop fuel' read_bytes' dest'
  end.

(** The body of the first loop of [LIN_read_response]: [Some true] for
    [break], [Some false] for [return 0]. *)
Definition wait_first_byte (i : Z) : M (option bool) :=
  delay 2 ;;
  n <- gets buffered_rcv ;;
  if negb (n =? 0) then ret (Some true)
  else if i =? 4 then ret (Some false)
  else ret None.

(** [LIN_read_response]: the number of bytes stored and the destination
    array afterwards.  The [while] loop gets as many rounds as bytes can
    still come; it then ends because the buffer is empty
    ([LIN_read_response_spec]). *)
Definition LIN_read_response (dest : list Z) : M (Z * list Z) :=
  w <- for_loop 5 0 wait_first_byte ;;
  match w with
  | Some false => ret (0, dest)
  | _ =>
      fuel <- gets rx_budget ;;
      read_loop fuel 0 dest
  end.

(** [LIN_read_response(resp_buff)], as every caller has it. *)
Definition read_resp_buff : M Z :=
  d <- gets resp_buff ;;
  r <- LIN_read_response d ;;
  modify (set_resp_buff (snd r)) ;;
  ret (fst r).

(* ================================================================== *)
(** ** Power supervisor *)

(** The loop of [is_power_good], with [n] samples still to take. *)
Fixpoint power_good_loop (n : nat) (undervoltages : Z) : M bool :=
  match n with
  | O => ret true
  | S n' =>
      p <- read_P_GOOD ;;
      let undervoltages := b8 (undervoltages + b2z (negb p)) in
      if 5 <=? undervoltages then ret false
      else delay 10 ;; power_good_loop n' undervoltages
  end.

(** [is_power_good]. *)
Definition is_power_good : M bool := power_good_loop 10 0.

(** [anything_plugged]. *)
Definition anything_plugged : M bool :=
  p <- read_PLUG ;;
  if negb p then ret false
  else
    delay 20 ;;
    p <- read_PLUG ;;
    if negb p then ret false else ret true.

(** The first loop of [start_inverter]: [true] when the auxiliary rail is
    there, [false] for [return WAKEUP_ERROR]. *)
Definition start_wake : M bool :=
  w <- for_loop 3 0 (fun i =>
         p <- read_POW_5V ;;
         if negb p then
           LIN_wakeup ;;
           if i =? 2 then ret (Some false) else ret None
         else ret (Some true)) ;;
  match w with
  | Some b => ret b
  | None => ret true
  end.

(** The first three statements of a status poll of [start_inverter] and of
    [stop_inverter]: the answer is [read]. *)
Definition status_poll : M Z :=
  delay 100 ;;
  LIN_send_request 59 ;;
  read_resp_buff.

(** The inner loop of [start_inverter], with [n] polls still to do: [None]
    for [return 0], and otherwise the two flags at the end of the loop. *)
Fixpoint start_polls (n : nat) (no_resp PGOOD_fail : bool)
  : M (option (bool * bool)) :=
  match n with
  | O => ret (Some (no_resp, PGOOD_fail))
  | S n' =>
      read <- status_poll ;;
      let no_resp := if 0 <? read then false else no_resp in
      if read <? 3 then start_polls n' no_resp PGOOD_fail
      else
        status <- gets (fun s => aget (resp_buff s) 1) ;;
        if Z.land status 1 =? 0 then start_polls n' no_resp PGOOD_fail
        else if Z.land status 2 =? 0 then start_polls n' no_resp true
        else ret None
  end.

(** One round of the outer loop of [start_inverter]: [Some code] for
    [return code]. *)
Definition start_round (i : Z) : M (option Z) :=
  ID_word <- LIN_send_request 58 ;;
  LIN_send_data power_on_data 2 ID_word ;;
  r <- start_polls 10 true false ;;
  match r with
  | None => ret (Some 0)
  | Some (no_resp, PGOOD_fail) =>
      if i =? 2 then
        if no_resp then ret (Some RESP_ERROR)
        else ret (Some (if PGOOD_fail then PGOOD_ERROR else STARTUP_ERROR))
      else delay 250 ;; ret None
  end.

(** [start_inverter]. *)
Definition start_inverter : M Z :=
  ok <- start_wake ;;
  if negb ok then ret WAKEUP_ERROR
  else
    r <- for_loop 10 0 start_round ;;
    match r with
    | Some code => ret code
    | None => ret STARTUP_ERROR
    end.

(** The power-cut loop of [stop_inverter], with [n] pulses still to give:
    [true] when the rail has dropped ([return]). *)
Fixpoint cut_pulses (n : nat) : M bool :=
  match n with
  | O => ret false
  | S n' =>
      act (AEnOv true) ;;
      delay 100 ;;
      act (AEnOv false) ;;
      p <- read_POW_5V ;;
      if negb p then ret true else cut_pulses n'
  end.

(** How the inner loop of [stop_inverter] ends. *)
Inductive stop_exit : Type :=
| StopReturn       (* return *)
| StopBreak        (* i = 3; break *)
| StopPollsDone.   (* the ten polls are used up *)

(** Is the status response a stop confirmation? *)
Definition stop_confirmed (read : Z) (resp : list Z) : bool :=
  negb (read <? 3) && (aget resp 3 =? 255) && (Z.land (aget resp 1) 1 =? 0).

(** The inner loop of [stop_inverter], with [n] polls still to do. *)
Fixpoint stop_polls (n : nat) (cut_power : bool) : M stop_exit :=
  match n with
  | O => ret StopPollsDone
  | S n' =>
      read <- status_poll ;;
      resp <- gets resp_buff ;;
      if read <? 3 then stop_polls n' cut_power
      else if negb (aget resp 3 =? 255) then stop_polls n' cut_power
      else if negb (Z.land (aget resp 1) 1 =? 0) then stop_polls n' cut_power
      else if negb cut_power then ret StopReturn
      else
        dropped <- cut_pulses 10 ;;
        if dropped then ret StopReturn else ret StopBreak
  end.

(** The outer loop of [stop_inverter] from the test [i < 3] on, with at most
    [n] rounds: [true] when the function has returned. *)
Fixpoint stop_attempts (n : nat) (i : Z) (cut_power : bool) : M bool :=
  match n with
  | O => ret false
  | S n' =>
      if i <? 3 then
        ID_word <- LIN_send_request 58 ;;
        LIN_send_data (skipn 1 power_on_data) 2 ID_word ;;
        e <- stop_polls 10 cut_power ;;
        match e with
        | StopReturn => ret true
        | StopBreak => delay 250 ;; stop_attempts n' (3 + 1) cut_power
        | StopPollsDone => delay 250 ;; stop_attempts n' (i + 1) cut_power
        end
      else ret false
  end.

(** The last loop of [stop_inverter], with [n] seconds still to wait. *)
Fixpoint stop_wait (n : nat) : M unit :=
  match n with
  | O => ret tt
  | S n' =>
      delay 1000 ;;
      p <- read_POW_5V ;;
      if negb p then ret tt else stop_wait n'
  end.

(** [stop_inverter]. *)
Definition stop_inverter (cut_power : bool) : M unit :=
  p <- read_POW_5V ;;
  if negb p then ret tt
  else
    returned <- stop_attempts 3 0 cut_power ;;
    if returned then ret tt else stop_wait 10.

(** Does the status response count as a reading with load state?  (The
    negation of the [continue] test of [enough_power_drawn].) *)
Definition load_reading (read : Z) (resp : list Z) : bool :=
  negb ((read <? 3) || (Z.land (aget resp 1) 1 =? 0)
        || negb (aget resp 3 =? 255)).

(** The first three statements of a poll of [enough_power_drawn]: the answer
    is [read]. *)
Definition power_poll : M Z :=
  LIN_send_request 59 ;;
  delay 20 ;;
  read_resp_buff.

(** The loop of [enough_power_drawn], with [n] polls still to do. *)
Fixpoint power_polls (n : nat) (power_sum : Z) : M bool :=
  match n with
  | O => ret false
  | S n' =>
      read <- power_poll ;;
      resp <- gets resp_buff ;;
      if negb (load_reading read resp) then power_polls n' power_sum
      else
        let power_sum := b8 (power_sum + b2z (0 <? aget resp 0)) in
        if 5 <=? power_sum then ret true else power_polls n' power_sum
  end.

(** [enough_power_drawn]. *)
Definition enough_power_drawn : M bool := power_polls 10 0.

(** [wait_if_plugged]. *)
Definition wait_if_plugged (millis_100 : Z) : M unit :=
  for_loop (Z.to_nat millis_100) 0 (fun _ =>
    p <- anything_plugged ;;
    if p then delay 80 ;; ret None else ret (Some tt)) ;;
  ret tt.

(** The loop of [show_error], with [n] blinks still to show. *)
Fixpoint blink (n : nat) (err_code : Z) : M unit :=
  match n with
  | O => ret tt
  | S n' =>
      act (ALed true) ;;
      delay (if Z.land err_code 4 =? 0 then 250 else 500) ;;
      let err_code := b8 (Z.shiftl err_code 1) in
      act (ALed false) ;;
      delay 350 ;;
      blink n' err_code
  end.

(** [show_error]. *)
Definition show_error (err_code : Z) : M unit :=
  p <- read_POW_5V ;;
  (if negb p then LIN_wakeup else ret tt) ;;
  blink 3 err_code.

(* ================================================================== *)
(** ** Control loop *)

(** The locals of [main] that live across rounds of its loop. *)
Record ctl : Type := mkCtl {
  no_load_counter : Z;
  prev_was_load : bool;
  low_batt_counter : Z;
  drawn_power_detect : bool
}.

(** The "no load detected" branch of the loop. *)
Definition no_load_branch (c : ctl) : M ctl :=
  if 60 <=? no_load_counter c then
    stop_inverter true ;;
    wait_if_plugged 133 ;;
    ret (mkCtl (no_load_counter c) false (low_batt_counter c)
               (drawn_power_detect c))
  else
    stop_inverter false ;;
    let n := b8 (no_load_counter c + 1) in
    wait_if_plugged 18 ;;
    (if 20 <=? n then LIN_wakeup ;; wait_if_plugged 30 else ret tt) ;;
    ret (mkCtl n false (low_batt_counter c) (drawn_power_detect c)).

(** The branch taken when load is drawn. *)
Definition load_branch (c : ctl) : ctl :=
  if 0 <? no_load_counter c then
    if prev_was_load c
    then mkCtl (b8 (no_load_counter c - 1)) (prev_was_load c)
               (low_batt_counter c) (drawn_power_detect c)
    else mkCtl (no_load_counter c) true (low_batt_counter c)
               (drawn_power_detect c)
  else c.

(** One round of the [for(;;)] loop of [main]: [None] when the round ends in
    [ENTER_PD(); while(1);], from which nothing returns. *)
Definition main_iter (c : ctl) : M (option ctl) :=
  good <- is_power_good ;;
  if negb good then
    stop_inverter true ;;
    delay 250 ;;
    show_error LOW_BATT_ERR ;;
    let n := b8 (low_batt_counter c + 1) in
    if 5 <=? n then
      modify (fun s => set_PCON (Z.lor (PCON s) PD) s) ;;
      act APowerDown ;;
      ret None
    else
      wait_if_plugged 30 ;;
      ret (Some (mkCtl (no_load_counter c) (prev_was_load c) n
                       (drawn_power_detect c)))
  else
    let c := mkCtl (no_load_counter c) (prev_was_load c) 0
                   (drawn_power_detect c) in
    plugged <- anything_plugged ;;
    if plugged then
      status <- start_inverter ;;
      if negb (status =? 0) then
        stop_inverter true ;;
        show_error status ;;
        wait_if_plugged (if status =? PGOOD_ERROR then 150 else 15) ;;
        ret (Some c)
      else if drawn_power_detect c then
        (if negb (prev_was_load c) then delay 200 else ret tt) ;;
        load <- enough_power_drawn ;;
        if negb load then
          c' <- no_load_branch c ;; ret (Some c')
        else ret (Some (load_branch c))
      else ret (Some c)
    else
      stop_inverter true ;;
      UART_INT_DIS ;;
      ENTER_IDLE ;;
      UART_INT_EN ;;
      ret (Some c).

(** [main] up to its loop.  The writes that set up the UART mode and the
    baud-rate timer (SCON, TMOD, TH1, TL1, TCON) and the enable bit of the
    plug interrupt, whose handler only wakes the processor, have no part in
    this model. *)
Definition main_init : M ctl :=
  act (ALed false) ;;
  act (AEnOv false) ;;
  modify (set_PCON 128) ;;
  delay 500 ;;
  detect <- anything_plugged ;;
  UART_INT_EN ;;
  sei ;;
  ret (mkCtl 0 false 0 detect).

(** The first [n] rounds of the loop: the locals after them, or [None] when
    one of them has ended in the permanent shutdown. *)
Fixpoint main_loop (n : nat) (c : ctl) : M (option ctl) :=
  match n with
  | O => ret (Some c)
  | S n' =>
      r <- main_iter c ;;
      match r with
      | Some c' => main_loop n' c'
      | None => ret None
      end
  end.

(* ================================================================== *)
(** ** Vocabulary of the properties *)

(** *** Ring buffers as queues *)

(** A ring buffer is well formed when its array has the 8 slots of the
    source, it holds at most 8 bytes, and the write position is the read
    position advanced by the number of bytes held. *)
Definition ring_wf (r : ring) : Prop :=
  length (buff r) = 8%nat /\ 0 <= count r <= 8 /\ 0 <= read_pos r < 8 /\
  write_pos r = (read_pos r + count r) mod 8.

(** The bytes a ring buffer holds, oldest first. *)
Definition contents (r : ring) : list Z :=
  map (fun k => aget (buff r) ((read_pos r + Z.of_nat k) mod 8))
      (seq 0 (Z.to_nat (count r))).

(** A sequence of queue operations. *)
Inductive qop : Type :=
| Enq (b : Z)
| Deq.

(** The receive buffer under a sequence of operations (the interrupt
    enqueues, [UART_read] dequeues): the values the dequeues returned, and
    the buffer at the end. *)
Fixpoint rcv_run (ops : list qop) (r : ring) : list Z * ring :=
  match ops with
  | [] => ([], r)
  | Enq b :: t => rcv_run t (rcv_enqueue b r)
  | Deq :: t =>
      let (b, r') := rcv_dequeue r in
      let (l, r'') := rcv_run t r' in (b :: l, r'')
  end.

(** The transmit buffer under a sequence of operations ([UART_send]
    enqueues, the interrupt dequeues): what each dequeue gave to SBUF, and
    the buffer at the end. *)
Fixpoint tr_run (ops : list qop) (r : ring) : list (option Z) * ring :=
  match ops with
  | [] => ([], r)
  | Enq b :: t => tr_run t (tr_enqueue b r)
  | Deq :: t =>
      let (b, r') := tr_dequeue r in
      let (l, r'') := tr_run t r' in (b :: l, r'')
  end.

(** The queue of the specification: first in, first out, capacity 8; an
    enqueue on a full queue is dropped; a dequeue on an empty queue gives the
    sentinel 0. *)
Definition fifo_enq (b : Z) (q : list Z) : list Z :=
  if (length q <? 8)%nat then q ++ [b] else q.

Definition fifo_deq (q : list Z) : Z * list Z :=
  match q with
  | [] => (0, [])
  | h :: t => (h, t)
  end.

Fixpoint fifo_run (ops : list qop) (q : list Z) : list Z * list Z :=
  match ops with
  | [] => ([], q)
  | Enq b :: t => fifo_run t (fifo_enq b q)
  | Deq :: t =>
      let (b, q') := fifo_deq q in
      let (l, q'') := fifo_run t q' in (b :: l, q'')
  end.

(** The same queue with a dequeue that gives nothing when the queue is
    empty. *)
Definition fifo_take (q : list Z) : option Z * list Z :=
  match q with
  | [] => (None, [])
  | h :: t => (Some h, t)
  end.

Fixpoint fifo_take_run (ops : list qop) (q : list Z)
  : list (option Z) * list Z :=
  match ops with
  | [] => ([], q)
  | Enq b :: t => fifo_take_run t (fifo_enq b q)
  | Deq :: t =>
      let (b, q') := fifo_take q in
      let (l, q'') := fifo_take_run t q' in (b :: l, q'')
  end.

(** The claim on the ring buffers read literally: both buffers behave as the
    queue of the specification, sentinel included. *)
Definition both_rings_sentinel_fifo : Prop :=
  forall ops r, ring_wf r ->
    fst (rcv_run ops r) = fst (fifo_run ops (contents r)) /\
    fst (tr_run ops r) = map Some (fst (fifo_run ops (contents r))).

(** *** The transmit side *)

(** The bytes handed to the UART for sending, in order: those already
    written to SBUF, then those waiting in the transmit buffer (the interrupt
    moves them to SBUF one by one, oldest first). *)
Definition txq (s : state) : list Z := wire s ++ contents (tr s).

(** [s'] comes from [s] by interrupt activity only, seen from the transmit
    side: nothing is added to the stream of bytes to send, and the transmit
    buffer does not grow. *)
Definition tx_frame (s s' : state) : Prop :=
  ES s' = ES s /\
  (ring_wf (tr s) ->
   ring_wf (tr s') /\ txq s' = txq s /\ count (tr s') <= count (tr s)).

(** The same, and the transmitter is not armed on the way. *)
Definition tx_quiet (s s' : state) : Prop :=
  tx_frame s s' /\ (tr_armed s = false -> tr_armed s' = false).

(** The transmit buffer takes [n] more bytes without dropping one, however
    slowly the UART sends: either it has [n] free slots, or the transmitter
    is idle (so that the first byte goes to SBUF at once) and it has [n - 1]
    free slots. *)
Definition tx_room (s : state) (n : Z) : Prop :=
  ring_wf (tr s) /\
  (count (tr s) + n <= 8 \/
   (tr_armed s = false /\ ES s = true /\ count (tr s) < 8 /\
    count (tr s) + n <= 9)).

(** The middle of [UART_send], between the store into the buffer and
    [sei()]. *)
Definition send_arm (s : state) : state :=
  if negb (tr_armed s) then set_tr_armed true (set_TI true s)
  else if buffered_tr s =? TR_BUFF_SIZE
       then (if TI s then s else pass_time s) else s.

(** *** Frames as the specification gives them *)

Definition zsum (l : list Z) : Z := fold_right Z.add 0 l.

(** The enhanced checksum: the complement of the folded sum of the protected
    ID and the payload, [~((sum & 0xFF) + (sum >> 8)) & 0xFF]. *)
Definition checksum_spec (p : Z) (d : list Z) : Z :=
  let sum := p + zsum d in
  Z.land (Z.lnot (Z.land sum 255 + Z.shiftr sum 8)) 255.

(** The protected ID: [p0 = bit0 ^ bit1 ^ bit2 ^ bit4],
    [p1 = !(bit1 ^ bit3 ^ bit4 ^ bit5)],
    [(id & 0x3F) | (p0 << 6) | (p1 << 7)]. *)
Definition protected_id_spec (id : Z) : Z :=
  let bit := Z.testbit id in
  let p0 := xorb (xorb (xorb (bit 0) (bit 1)) (bit 2)) (bit 4) in
  let p1 := negb (xorb (xorb (xorb (bit 1) (bit 3)) (bit 4)) (bit 5)) in
  Z.lor (Z.lor (Z.land id 63) (Z.shiftl (b2z p0) 6)) (Z.shiftl (b2z p1) 7).

(** *** States and surroundings for examples *)

Definition always (b : bool) : nat -> bool := fun _ => b.

(** The state in which the loop of [main] runs, before anything has been
    sent or received: the globals as after reset, interrupts on, normal baud
    rate. *)
Definition live_state (w : env) : state :=
  set_PCON 128 (set_ES true (set_EA true (reset_state w))).

(** Rail present, battery good, a load plugged in, and a bus on which
    nothing ever happens. *)
Definition still_env : env := mkEnv (always true) (always true) (always false) [].

(** A bus on which the transmitter finishes its byte in every span of time,
    and the bytes [resp] come in during span [k] (counted from 0); 400 more
    spans follow. *)
Definition answer_at (k : nat) (resp : list Z) : list (list hw_event) :=
  repeat [TxDone] k ++ [TxDone :: map RxByte resp] ++ repeat [TxDone] 400.

(** The spans of time a command frame and the header of the first status
    request take: six bytes, 100 ms, three bytes.  The next span is the
    first wait of [LIN_read_response]. *)
Definition first_poll : nat := 10.

(** *** Inputs, actions and the receive side *)

(** The three input pins of the surroundings. *)
Definition pins (w : env) := (POW_5V_in w, P_GOOD_in w, P3_2_in w).

(** [s'] comes from [s] without any action of the main context, any change
    of the response buffer or any pin read. *)
Definition steady (s s' : state) : Prop :=
  out s' = out s /\ resp_buff s' = resp_buff s /\
  pins (world s') = pins (world s).

(** The number of not-good samples among the first [n] of a stream. *)
Fixpoint lows (n : nat) (f : nat -> bool) : nat :=
  match n with
  | O => 0
  | S n' => (if f 0%nat then 0 else 1) + lows n' (tl_stream f)
  end.

(** The bytes the [while] loop of [LIN_read_response] takes out of the
    receive buffer, stored or not. *)
Fixpoint drain (fuel : nat) : M (list Z) :=
  match fuel with
  | O => ret []
  | S fuel' =>
      n <- gets buffered_rcv ;;
      if n =? 0 then ret []
      else
        received <- UART_read ;;
        delay 1 ;;
        l <- drain fuel' ;;
        ret (received :: l)
  end.

(** All the bytes one call of [LIN_read_response] takes out of the receive
    buffer. *)
Definition response_bytes : M (list Z) :=
  w <- for_loop 5 0 wait_first_byte ;;
  match w with
  | Some false => ret []
  | _ =>
      fuel <- gets rx_budget ;;
      drain fuel
  end.

(** The received bytes inside the chip: in the buffer, or waiting in SBUF. *)
Definition rx_held (s : state) : nat :=
  (Z.to_nat (buffered_rcv s) + (if RI s then 1 else 0))%nat.

(** [s'] comes from [s] by interrupt activity that brings at most [k] bytes:
    the surroundings are the same, and the count of the receive buffer stays
    a natural number. *)
Definition rx_frame (k : nat) (s s' : state) : Prop :=
  world s' = world s /\
  (0 <= buffered_rcv s ->
   0 <= buffered_rcv s' /\ (rx_held s' <= rx_held s + k)%nat).

(** Battery not good on the first five samples, good afterwards. *)
Definition sagging_env : env :=
  mkEnv (always true) (fun k => (4 <? k)%nat) (always false) [].

(** A bus on which a response of eleven bytes comes in: eight bytes in the
    first span of time, then one byte in each of the next three. *)
Definition long_response_env : env :=
  mkEnv (always true) (always true) (always false)
        [map RxByte [1; 2; 3; 4; 5; 6; 7; 8];
         [RxByte 9]; [RxByte 10]; [RxByte 11]].

(** *** What [start_inverter] sees *)

(** One status poll as its caller sees it: the number of bytes read and the
    response buffer after the read. *)
Definition obs : Type := Z * list Z.

(** At least 3 bytes, and byte 1 bit 0 (acknowledged) set. *)
Definition acked (o : obs) : bool :=
  (3 <=? fst o) && negb (Z.land (aget (snd o) 1) 1 =? 0).

(** At least 3 bytes, and byte 1 bit 1 (power good) set. *)
Definition pgood_set (o : obs) : bool :=
  (3 <=? fst o) && negb (Z.land (aget (snd o) 1) 2 =? 0).

Definition good_resp (o : obs) : bool := acked o && pgood_set o.
Definition ack_only_resp (o : obs) : bool := acked o && negb (pgood_set o).

(** Any response at all: at least one byte. *)
Definition some_resp (o : obs) : bool := 0 <? fst o.

(** The polls of one round, up to the first good response or the [n]th. *)
Fixpoint polls_seen (n : nat) : M (list obs) :=
  match n with
  | O => ret []
  | S n' =>
      read <- status_poll ;;
      resp <- gets resp_buff ;;
      if good_resp (read, resp) then ret [(read, resp)]
      else l <- polls_seen n' ;; ret ((read, resp) :: l)
  end.

(** The start command frame. *)
Definition start_command : M unit :=
  ID_word <- LIN_send_request 58 ;;
  LIN_send_data power_on_data 2 ID_word.

(** The polls of [n] rounds, round by round: each round sends the start
    command and polls; the rounds end with the first good response, and they
    are 250 ms apart. *)
Fixpoint rounds_seen (n : nat) : M (list (list obs)) :=
  match n with
  | O => ret []
  | S n' =>
      start_command ;;
      l <- polls_seen 10 ;;
      if existsb good_resp l then ret [l]
      else
        match n' with
        | O => ret [l]
        | S _ => delay 250 ;; ls <- rounds_seen n' ;; ret (l :: ls)
        end
  end.

(** All the polls of one call of [start_inverter]. *)
Definition start_seen : M (list (list obs)) :=
  ok <- start_wake ;;
  if ok then rounds_seen 3 else ret [].

(** The error code that the polls of the last round give. *)
Definition final_code (l : list obs) : Z :=
  if negb (existsb some_resp l) then RESP_ERROR
  else if existsb ack_only_resp l then PGOOD_ERROR else STARTUP_ERROR.

Definition start_code (rounds : list (list obs)) : Z :=
  if existsb good_resp (concat rounds) then 0
  else final_code (nth 2 rounds []).

(** The claim on the result of [start_inverter] read literally: the failure
    is classified by all the polls of the call. *)
Definition start_outcome_over_all_rounds : Prop :=
  forall s, fst (start_wake s) = true ->
    let all := concat (fst (start_seen s)) in
    fst (start_inverter s) =
    if existsb good_resp all then 0
    else if negb (existsb some_resp all) then RESP_ERROR
    else if existsb ack_only_resp all && negb (existsb pgood_set all)
         then PGOOD_ERROR
    else STARTUP_ERROR.

(** A peer that answers the first status request with the three bytes
    00 01 00 (acknowledged, power not good) and then falls silent. *)
Definition fading_env : env :=
  mkEnv (always true) (always true) (always false)
        (answer_at first_poll [0; 1; 0]).

(** A peer that answers the first status request with the three bytes
    00 03 00 (acknowledged, power good), without the marker in byte 3. *)
Definition unmarked_env : env :=
  mkEnv (always true) (always true) (always false)
        (answer_at first_poll [0; 3; 0]).

(** The claim on short responses read literally: a response of any length,
    at any poll of the call, keeps the result from being [RESP_ERROR]. *)
Definition any_response_excludes_resp_error : Prop :=
  forall s, fst (start_wake s) = true ->
    forall o, In o (concat (fst (start_seen s))) -> 0 < fst o ->
      fst (start_inverter s) <> RESP_ERROR.

(** A peer that answers the first status request of the first round with
    the single byte 07 and then falls silent. *)
Definition early_byte_env : env :=
  mkEnv (always true) (always true) (always false)
        (answer_at first_poll [7]).

(** A peer whose single byte 07 answers the first status request of the
    third round: the two silent rounds before it take 194 spans of time. *)
Definition late_byte_env : env :=
  mkEnv (always true) (always true) (always false)
        (answer_at (194 + first_poll) [7]).

(** Each of the next [n] polls leaves a response buffer whose byte 3 is not
    the marker 0xFF. *)
Fixpoint unmarked {A} (n : nat) (poll : M A) (s : state) : Prop :=
  match n with
  | O => True
  | S n' =>
      aget (resp_buff (snd (poll s))) 3 <> 255 /\
      unmarked n' poll (snd (poll s))
  end.

(** *** What [stop_inverter] sees and does *)

(** The stop command frame. *)
Definition stop_command : M unit :=
  ID_word <- LIN_send_request 58 ;;
  LIN_send_data (skipn 1 power_on_data) 2 ID_word.

(** The polls of one attempt up to the first stop confirmation: was there
    one? *)
Fixpoint polls_until_stop (n : nat) : M bool :=
  match n with
  | O => ret false
  | S n' =>
      read <- status_poll ;;
      resp <- gets resp_buff ;;
      if stop_confirmed read resp then ret true else polls_until_stop n'
  end.

(** The exchange of [stop_inverter] with the peer up to the first stop
    confirmation: [n] attempts, each the stop command and ten polls, 250 ms
    after each attempt without confirmation. *)
Fixpoint stop_search (n : nat) : M bool :=
  match n with
  | O => ret false
  | S n' =>
      stop_command ;;
      c <- polls_until_stop 10 ;;
      if c then ret true else delay 250 ;; stop_search n'
  end.

(** The index of the first low sample among the first [n] of a stream. *)
Fixpoint first_low (n : nat) (f : nat -> bool) : option nat :=
  match n with
  | O => None
  | S n' =>
      if f 0%nat then option_map S (first_low n' (tl_stream f)) else Some 0%nat
  end.

(** [n] pulses of the power-cut output. *)
Definition pulses (n : nat) : list action :=
  concat (repeat [AEnOv true; ADelay 100; AEnOv false] n).

(** The seconds [stop_inverter] waits in its last loop, with the rail
    samples [rail] ahead. *)
Definition wait_len (n : nat) (rail : nat -> bool) : nat :=
  match first_low n rail with
  | Some m => S m
  | None => n
  end.

(** What [stop_inverter(true)] does after a stop confirmation, with the
    rail samples [rail] ahead: the pulses, and after ten pulses without a
    drop the 250 ms and the seconds waited for the rail. *)
Definition after_confirmation (rail : nat -> bool) : list action :=
  match first_low 10 rail with
  | Some k => pulses (S k)
  | None =>
      pulses 10 ++ [ADelay 250] ++
      repeat (ADelay 1000) (wait_len 10 (fun j => rail (10 + j)%nat))
  end.

(** The claim on the power cut read literally: after ten pulses without a
    drop of the rail, [stop_inverter(true)] does no 1 s wait. *)
Definition stop_no_further_wait : Prop :=
  forall s,
    POW_5V_in (world s) 0%nat = true ->
    let s0 := snd (read_POW_5V s) in
    fst (stop_search 3 s0) = true ->
    let sc := snd (stop_search 3 s0) in
    first_low 10 (POW_5V_in (world sc)) = None ->
    ~ In (ADelay 1000)
         (skipn (length (out sc)) (out (snd (stop_inverter true s)))).

(** A peer that answers the first status request with 00 00 00 FF
    (stopped, marker set), and a rail that never drops. *)
Definition stuck_rail_env : env :=
  mkEnv (always true) (always true) (always false)
        (answer_at first_poll [0; 0; 0; 255]).

(** *** The control loop *)

(** The power-good verdicts of the first [n] rounds of the loop, up to and
    with the round that ends in the permanent shutdown, and the state of the
    loop after them ([None] after the shutdown). *)
Fixpoint main_trace (n : nat) (c : ctl) (s : state)
  : list bool * option (ctl * state) :=
  match n with
  | O => ([], Some (c, s))
  | S n' =>
      let good := fst (is_power_good s) in
      match main_iter c s with
      | (Some c', s') =>
          let (l, r) := main_trace n' c' s' in (good :: l, r)
      | (None, _) => ([good], None)
      end
  end.

(** The number of not-good verdicts in a row at the end of [l], counting on
    from [k] when all of [l] is not good. *)
Definition count_lows (k : nat) (l : list bool) : nat :=
  fold_left (fun acc (good : bool) => if good then 0%nat else S acc) l k.

(** [s'] comes from [s] with no other action than delays. *)
Definition only_delays (s s' : state) : Prop :=
  exists l, out s' = out s ++ map ADelay l.

Definition Delays {A} (m : M A) : Prop :=
  forall s, only_delays s (snd (m s)).

(** The actions of [LIN_wakeup]. *)
Definition wakeup_actions : list action :=
  [ATx true; ADelay 10; ATx false; ADelay 1; ATx true; ADelay 105].

(** What the no-load branch does below 60, [n] being the counter after its
    increment. *)
Definition no_load_body (n : Z) : M unit :=
  stop_inverter false ;;
  wait_if_plugged 18 ;;
  if 20 <=? n then LIN_wakeup ;; wait_if_plugged 30 else ret tt.

(** The state in which a round of the loop comes to its no-load branch, if
    it does: battery good, something plugged in, the inverter started, the
    drawn-power mode on, and no load found. *)
Definition no_load_check_state (c : ctl) (s : state) : option state :=
  let (good, s1) := is_power_good s in
  if negb good then None else
  let (plugged, s2) := anything_plugged s1 in
  if negb plugged then None else
  let (status, s3) := start_inverter s2 in
  if negb (status =? 0) then None else
  if negb (drawn_power_detect c) then None else
  let s4 := snd ((if negb (prev_was_load c) then delay 200 else ret tt) s3) in
  let (load, s5) := enough_power_drawn s4 in
  if load then None else Some s5.

(** The claim on the no-load check read literally: the wake-up pulse is
    given on every 20th check only. *)
Definition wakeup_every_20th : Prop :=
  forall c s s5,
    no_load_check_state c s = Some s5 ->
    0 <= no_load_counter c < 60 ->
    forall tr, out (snd (main_iter c s)) = out s5 ++ tr ->
      (In (ATx false) tr <-> (no_load_counter c + 1) mod 20 = 0).

(** A battery that is never good, with the rail absent and a load plugged
    in. *)
Definition dead_battery_env : env :=
  mkEnv (always false) (always false) (always false) [].

(** A round of the loop in which the peer answers the first status request
    of [start_inverter] with 00 03 00 and then falls silent: the battery
    check and the plug check take eleven spans of time before it. *)
Definition idle_load_env : env :=
  mkEnv (always true) (always true) (always false)
        (answer_at (11 + first_poll) [0; 3; 0]).

(** *** Invariants of the firmware's memory and interrupt state *)

(** The arrays and indices of the firmware are in order: both ring buffers
    are well formed and the response buffer has its 9 bytes. *)
Definition mem_ok (s : state) : Prop :=
  ring_wf (rcv s) /\ ring_wf (tr s) /\ length (resp_buff s) = 9%nat.

(** The state between two statements of the main context while the loop of
    [main] runs: memory in order, interrupts enabled, and no interrupt
    pending. *)
Definition settled (s : state) : Prop :=
  mem_ok s /\ EA s = true /\ ES s = true /\ RI s = false /\ TI s = false.

(** [s'] comes from [s] by steps that keep the memory in order and the
    interrupt enables as they are, and that leave no interrupt pending when
    interrupts are enabled and none was pending. *)
Definition mem_frame (s s' : state) : Prop :=
  mem_ok s ->
  mem_ok s' /\ EA s' = EA s /\ ES s' = ES s /\
  (EA s = true -> ES s = true -> RI s = false -> TI s = false ->
   RI s' = false /\ TI s' = false).

Definition Keeps {A} (m : M A) : Prop :=
  forall s, settled s -> settled (snd (m s)).

(** *** Bytes on the wire *)


(** A state whose transmit buffer is full with the bytes 1 to 8, the
    transmitter busy. *)
Definition full_tr_state : state :=
  set_tr_armed true
    (set_tr (mkRing [1; 2; 3; 4; 5; 6; 7; 8] 8 0 0) (live_state still_env)).

(** *** The receive side, byte by byte *)

(** The bytes received among UART events, in order. *)
Definition rx_bytes (evs : list hw_event) : list Z :=
  flat_map (fun e => match e with RxByte b => [b] | TxDone => [] end) evs.

(** No received byte waits in SBUF and the bus will deliver none. *)
Definition rx_quiet (s : state) : Prop :=
  RI s = false /\ rx_pending (uart_in (world s)) = 0%nat.

(** A bus on which the bytes [resp] come in during the next span of time,
    and nothing afterwards. *)
Definition burst_env (resp : list Z) : env :=
  mkEnv (always true) (always true) (always false) [map RxByte resp].

(** *** The error display and the wake-up *)

(** One blink of the error display: long (500 ms) for a 1, short (250 ms)
    for a 0, then 350 ms off. *)
Definition blink_of (bit : bool) : list action :=
  [ALed true; ADelay (if bit then 500 else 250); ALed false; ADelay 350].

(** The display of an error code: bits 2, 1 and 0, in this order. *)
Definition blink_code (err_code : Z) : list action :=
  blink_of (Z.testbit err_code 2) ++ blink_of (Z.testbit err_code 1) ++
  blink_of (Z.testbit err_code 0).

(** The actions of the loop of [show_error] with [n] blinks still to show:
    each blink shows bit 2 of the code, which is then shifted left. *)
Fixpoint blinks (n : nat) (err_code : Z) : list action :=
  match n with
  | O => []
  | S n' =>
      blink_of (Z.testbit err_code 2) ++ blinks n' (b8 (Z.shiftl err_code 1))
  end.

(** One round of the first loop of [start_inverter]. *)
Definition wake_round (i : Z) : M (option bool) :=
  p <- read_POW_5V ;;
  if negb p then
    LIN_wakeup ;;
    if i =? 2 then ret (Some false) else ret None
  else ret (Some true).

(** The number of wake-up pulses [start_inverter] gives with the rail
    samples [rail] ahead: one for each sample that reads absent, up to the
    first that reads present or the third. *)
Fixpoint wake_count (n : nat) (rail : nat -> bool) : nat :=
  match n with
  | O => 0
  | S n' => if rail 0%nat then 0 else S (wake_count n' (tl_stream rail))
  end.

(** A rail that comes up after the second wake-up pulse. *)
Definition slow_rail_env : env :=
  mkEnv (fun k => (1 <? k)%nat) (always true) (always false) [].

(** *** The load check and the plug *)

(** A poll of [enough_power_drawn] that counts as load: at least 3 bytes,
    acknowledged set, the marker 0xFF in byte 3 of the response buffer, and
    a power byte (byte 0) above zero. *)
Definition load_seen (o : obs) : bool :=
  load_reading (fst o) (snd o) && (0 <? aget (snd o) 0).

(** The polls of [enough_power_drawn], at most [n] of them, up to and with
    the one that brings the number of polls counting as load to [need]. *)
Fixpoint power_seen (n need : nat) : M (list obs) :=
  match n with
  | O => ret []
  | S n' =>
      read <- power_poll ;;
      resp <- gets resp_buff ;;
      if load_seen (read, resp) then
        match need with
        | S (S k) => l <- power_seen n' (S k) ;; ret ((read, resp) :: l)
        | _ => ret [(read, resp)]
        end
      else l <- power_seen n' need ;; ret ((read, resp) :: l)
  end.

(** The waits of [wait_if_plugged] with [n] rounds to go and the samples
    [pin] of P3_2 ahead (low means plugged): a round ends the wait when its
    first sample, or the second one 20 ms later, reads not plugged. *)
Fixpoint plug_waits (n : nat) (pin : nat -> bool) : list Z :=
  match n with
  | O => []
  | S n' =>
      if pin 0%nat then []
      else if pin 1%nat then [20]
      else 20 :: 80 :: plug_waits n' (fun k => pin (2 + k)%nat)
  end.

(** A peer that answers every status request of [enough_power_drawn] with
    07 01 00 FF (power 7, acknowledged, marker set): a poll takes nine
    spans of time, the answer coming in during the fifth. *)
Definition loaded_env : env :=
  mkEnv (always true) (always true) (always false)
        (concat (repeat (repeat [TxDone] 4
                         ++ [TxDone :: map RxByte [7; 1; 0; 255]]
                         ++ repeat [TxDone] 4) 12)).

(** A plug that is pulled after three samples. *)
Definition pulled_plug_env : env :=
  mkEnv (always true) (always true) (fun k => (2 <? k)%nat) [].

(** *** Frames, the sleep and the counters *)


(** The sleep of the loop of [main] when nothing is plugged in. *)
Definition sleep_unplugged : M unit :=
  UART_INT_DIS ;; ENTER_IDLE ;; UART_INT_EN.

(** The counters of the loop are in range. *)
Definition ctl_ok (c : ctl) : Prop :=
  0 <= no_load_counter c <= 60 /\ 0 <= low_batt_counter c < 5.

(** [s'] comes from [s] without any action on the power-cut output. *)
Definition no_cut (s s' : state) : Prop :=
  exists tr, out s' = out s ++ tr /\ forall level, ~ In (AEnOv level) tr.

Definition NoCut {A} (m : M A) : Prop :=
  forall s, no_cut s (snd (m s)).

(** Nothing plugged in, and three bytes coming in during the sleep. *)
Definition asleep_env : env :=
  mkEnv (always false) (always true) (always true)
        (repeat [] 10 ++ [[RxByte 1; RxByte 2; TxDone; RxByte 3]]).

(** Does a round of the loop of [main] come to [stop_inverter(true)]?  It
    does when the battery is low, when nothing is plugged in, when the start
    fails, and, in drawn-power mode, when no load is found with
    [no_load_counter] at 60 or more. *)
Definition hard_stop_round (c : ctl) (s : state) : bool :=
  let (good, s1) := is_power_good s in
  if negb good then true else
  let (plugged, s2) := anything_plugged s1 in
  if negb plugged then true else
  let (status, s3) := start_inverter s2 in
  if negb (status =? 0) then true else
  if negb (drawn_power_detect c) then false else
  let s4 := snd ((if negb (prev_was_load c) then delay 200 else ret tt) s3) in
  let (load, s5) := enough_power_drawn s4 in
  if load then false else 60 <=? no_load_counter c.

(* ================================================================== *)
(** * Properties *)

(** ** The monad and its loops *)

Lemma bind_eq {A B} (m : M A) (f : A -> M B) s :
  bind m f s = f (fst (m s)) (snd (m s)).
Proof. unfold bind; destruct (m s); reflexivity. Qed.

Ltac mstep := rewrite bind_eq; cbn [fst snd].

Section ForLoop.

Context {R : Type}.

(** One round of a loop. *)
Lemma for_loop_S n i (body : Z -> M (option R)) s :
  for_loop (S n) i body s =
  match fst (body i s) with
  | Some x => (Some x, snd (body i s))
  | None => for_loop n (i + 1) body (snd (body i s))
  end.
Proof. simpl. rewrite bind_eq. destruct (fst (body i s)); reflexivity. Qed.

(** A loop whose rounds keep a preorder keeps it. *)
Lemma for_loop_keeps (P : state -> state -> Prop) (body : Z -> M (option R)) :
  (forall s, P s s) -> (forall a b c, P a b -> P b c -> P a c) ->
  (forall i s, P s (snd (body i s))) ->
  forall n i s, P s (snd (for_loop n i body s)).
Proof.
  intros Hr Ht Hb. induction n as [|n IH]; intros i s; simpl.
  - apply Hr.
  - unfold bind. specialize (Hb i s). destruct (body i s) as [[x|] s1]; simpl in *.
    + exact Hb.
    + eapply Ht; [exact Hb|apply IH].
Qed.

(** What holds of every way out of the body holds of the way out of the
    loop. *)
Lemma for_loop_result (Q : R -> state -> Prop) (body : Z -> M (option R)) :
  (forall i s x, fst (body i s) = Some x -> Q x (snd (body i s))) ->
  forall n i s x, fst (for_loop n i body s) = Some x ->
                  Q x (snd (for_loop n i body s)).
Proof.
  intros Hb. induction n as [|n IH]; intros i s x; simpl.
  - discriminate.
  - rewrite bind_eq. specialize (Hb i s).
    destruct (fst (body i s)) as [y|] eqn:E.
    + simpl. intros H; inversion H; subst. apply Hb; reflexivity.
    + apply IH.
Qed.

End ForLoop.

(** ** Arrays *)

Lemma length_upd a n v : length (upd a n v) = length a.
Proof. revert n; induction a as [|h t IH]; intros [|n]; simpl; auto. Qed.

Lemma nth_upd_eq a n v : (n < length a)%nat -> nth n (upd a n v) 0 = v.
Proof.
  revert n; induction a as [|h t IH]; intros [|n] H; simpl in *;
    try lia; auto.
  apply IH; lia.
Qed.

Lemma nth_upd_neq a n m v : n <> m -> nth m (upd a n v) 0 = nth m a 0.
Proof.
  revert n m; induction a as [|h t IH]; intros [|n] [|m] H; simpl; auto;
    congruence.
Qed.

Lemma aget_aset_eq a i v :
  0 <= i < Z.of_nat (length a) -> aget (aset a i v) i = v.
Proof. intros H; unfold aget, aset; apply nth_upd_eq; lia. Qed.

Lemma aget_aset_neq a i j v :
  0 <= i -> 0 <= j -> i <> j -> aget (aset a i v) j = aget a j.
Proof. intros Hi Hj H; unfold aget, aset; apply nth_upd_neq; lia. Qed.

Lemma length_aset a i v : length (aset a i v) = length a.
Proof. apply length_upd. Qed.

Lemma land_7 x : Z.land x 7 = x mod 8.
Proof. change 7 with (Z.ones 3); rewrite Z.land_ones by lia; reflexivity. Qed.

(** ** Ring buffers *)

Lemma length_contents r : length (contents r) = Z.to_nat (count r).
Proof. unfold contents; rewrite length_map, length_seq; reflexivity. Qed.

Lemma ring_put_spec b r :
  ring_wf r -> count r < 8 ->
  ring_wf (ring_put 7 b r) /\ contents (ring_put 7 b r) = contents r ++ [b] /\
  count (ring_put 7 b r) = count r + 1.
Proof.
  intros (Hl & Hc & Hr & Hw) Hlt.
  assert (Hb : b8 (count r + 1) = count r + 1)
    by (unfold b8; apply Z.mod_small; lia).
  split; [|split].
  - unfold ring_wf, ring_put; simpl. rewrite Hb, length_aset, land_7, Hw.
    repeat split; try lia.
    rewrite Zplus_mod_idemp_l. f_equal; lia.
  - unfold contents, ring_put; simpl. rewrite Hb.
    replace (Z.to_nat (count r + 1)) with (Z.to_nat (count r) + 1)%nat by lia.
    rewrite seq_app, map_app; simpl. f_equal.
    + apply map_ext_in; intros k Hk; apply in_seq in Hk.
      apply aget_aset_neq.
      * rewrite Hw; apply Z.mod_pos_bound; lia.
      * apply Z.mod_pos_bound; lia.
      * rewrite Hw. intro E.
        assert (Hk' : 0 <= Z.of_nat k < count r) by lia.
        revert E. generalize (Z.of_nat k) Hk'. intros z Hz.
        Z.div_mod_to_equations; lia.
    + f_equal. rewrite Hw.
      replace (read_pos r + Z.of_nat (Z.to_nat (count r)))
        with (read_pos r + count r) by lia.
      apply aget_aset_eq. rewrite Hl.
      pose proof (Z.mod_pos_bound (read_pos r + count r) 8); lia.
  - unfold ring_put; simpl; exact Hb.
Qed.

Lemma ring_get_spec r :
  ring_wf r -> 0 < count r ->
  ring_wf (snd (ring_get 7 r)) /\
  contents r = fst (ring_get 7 r) :: contents (snd (ring_get 7 r)) /\
  count (snd (ring_get 7 r)) = count r - 1.
Proof.
  intros (Hl & Hc & Hr & Hw) Hlt.
  assert (Hb : b8 (count r - 1) = count r - 1)
    by (unfold b8; apply Z.mod_small; lia).
  split; [|split].
  - unfold ring_wf, ring_get; simpl. rewrite Hb, land_7, Hw.
    repeat split; try lia; try (apply Z.mod_pos_bound; lia).
    rewrite Zplus_mod_idemp_l. f_equal; lia.
  - unfold contents, ring_get; simpl. rewrite Hb, land_7.
    replace (Z.to_nat (count r)) with (S (Z.to_nat (count r - 1))) by lia.
    simpl. f_equal.
    + f_equal. rewrite Z.add_0_r. apply Z.mod_small; lia.
    + rewrite <- seq_shift, map_map. apply map_ext; intros k.
      f_equal. rewrite Zplus_mod_idemp_l. f_equal; lia.
  - unfold ring_get; simpl; exact Hb.
Qed.

Lemma empty_ring_wf : ring_wf (empty_ring 8).
Proof. unfold ring_wf; simpl; repeat split; lia. Qed.

(** One step of each buffer against the queue. *)

Lemma count_contents r : ring_wf r -> count r = Z.of_nat (length (contents r)).
Proof. intros (_ & Hc & _); rewrite length_contents; lia. Qed.

Lemma enqueue_step b r :
  ring_wf r ->
  ring_wf (rcv_enqueue b r) /\
  contents (rcv_enqueue b r) = fifo_enq b (contents r).
Proof.
  intros Hwf. pose proof (count_contents r Hwf) as Hc.
  unfold rcv_enqueue, fifo_enq.
  change RCV_BUFF_SIZE with 8; change RCV_BUFF_MASK with 7.
  destruct (count r <? 8) eqn:E.
  - apply Z.ltb_lt in E.
    destruct (ring_put_spec b r Hwf E) as (H1 & H2 & _).
    replace (length (contents r) <? 8)%nat with true
      by (symmetry; apply Nat.ltb_lt; lia).
    auto.
  - apply Z.ltb_ge in E.
    replace (length (contents r) <? 8)%nat with false
      by (symmetry; apply Nat.ltb_ge; lia).
    auto.
Qed.

Lemma tr_enqueue_eq b r : tr_enqueue b r = rcv_enqueue b r.
Proof. reflexivity. Qed.

Lemma dequeue_step r :
  ring_wf r ->
  ring_wf (snd (rcv_dequeue r)) /\
  fifo_deq (contents r) = (fst (rcv_dequeue r), contents (snd (rcv_dequeue r))).
Proof.
  intros Hwf. pose proof (count_contents r Hwf) as Hc.
  unfold rcv_dequeue. change RCV_BUFF_MASK with 7.
  destruct (0 <? count r) eqn:E.
  - apply Z.ltb_lt in E.
    destruct (ring_get_spec r Hwf E) as (H1 & H2 & _).
    split; [exact H1|]. rewrite H2; reflexivity.
  - apply Z.ltb_ge in E. split; [exact Hwf|]. simpl.
    destruct (contents r) eqn:Eq; [reflexivity|simpl in Hc; lia].
Qed.

Lemma take_step r :
  ring_wf r ->
  ring_wf (snd (tr_dequeue r)) /\
  fifo_take (contents r) = (fst (tr_dequeue r), contents (snd (tr_dequeue r))).
Proof.
  intros Hwf. pose proof (count_contents r Hwf) as Hc.
  unfold tr_dequeue. change TR_BUFF_MASK with 7.
  destruct (0 <? count r) eqn:E.
  - apply Z.ltb_lt in E.
    destruct (ring_get_spec r Hwf E) as (H1 & H2 & _).
    destruct (ring_get 7 r) as [b r'] eqn:Eg; simpl in *.
    split; [exact H1|]. rewrite H2; reflexivity.
  - apply Z.ltb_ge in E. split; [exact Hwf|]. simpl.
    destruct (contents r) eqn:Eq; [reflexivity|simpl in Hc; lia].
Qed.

Lemma rcv_run_fifo ops : forall r,
  ring_wf r ->
  fst (rcv_run ops r) = fst (fifo_run ops (contents r)) /\
  contents (snd (rcv_run ops r)) = snd (fifo_run ops (contents r)) /\
  ring_wf (snd (rcv_run ops r)).
Proof.
  induction ops as [|[b|] t IH]; intros r Hwf; simpl.
  - auto.
  - destruct (enqueue_step b r Hwf) as (H1 & H2). rewrite <- H2. auto.
  - destruct (dequeue_step r Hwf) as (H1 & H2). rewrite H2.
    destruct (rcv_dequeue r) as [x r'] eqn:Ed; simpl in *.
    specialize (IH r' H1).
    destruct (rcv_run t r') as [l r'']; destruct (fifo_run t (contents r')).
    simpl in *. destruct IH as (-> & -> & ?); auto.
Qed.

Lemma tr_run_fifo ops : forall r,
  ring_wf r ->
  fst (tr_run ops r) = fst (fifo_take_run ops (contents r)) /\
  contents (snd (tr_run ops r)) = snd (fifo_take_run ops (contents r)) /\
  ring_wf (snd (tr_run ops r)).
Proof.
  induction ops as [|[b|] t IH]; intros r Hwf; simpl.
  - auto.
  - rewrite tr_enqueue_eq.
    destruct (enqueue_step b r Hwf) as (H1 & H2). rewrite <- H2. auto.
  - destruct (take_step r Hwf) as (H1 & H2). rewrite H2.
    destruct (tr_dequeue r) as [x r'] eqn:Ed; simpl in *.
    specialize (IH r' H1).
    destruct (tr_run t r') as [l r'']; destruct (fifo_take_run t (contents r')).
    simpl in *. destruct IH as (-> & -> & ?); auto.
Qed.

(** The buffer steps are those of the code: what the two halves of the
    interrupt handler do to the buffers, to SBUF and to [tr_armed]. *)

Lemma ISR_receive s :
  rcv (UART_ISR s) = if RI s then rcv_enqueue (SBUF_in s) (rcv s) else rcv s.
Proof.
  unfold UART_ISR. destruct (RI s); cbn.
  - destruct (TI s); [|reflexivity]. cbn.
    destruct (tr_dequeue (tr s)) as [[b|] r]; reflexivity.
  - destruct (TI s); [|reflexivity]. cbn.
    destruct (tr_dequeue (tr s)) as [[b|] r]; reflexivity.
Qed.

Lemma ISR_transmit s :
  TI s = true ->
  tr (UART_ISR s) = snd (tr_dequeue (tr s)) /\
  match fst (tr_dequeue (tr s)) with
  | Some b => wire (UART_ISR s) = wire s ++ [b] /\
              tr_armed (UART_ISR s) = tr_armed s
  | None => wire (UART_ISR s) = wire s /\ tr_armed (UART_ISR s) = false
  end.
Proof.
  intros H. unfold UART_ISR, tr_dequeue.
  destruct (RI s); cbn; rewrite H; cbn;
    (destruct (0 <? count (tr s)); [destruct (ring_get TR_BUFF_MASK (tr s))|]);
    cbn; (split; [reflexivity|split; reflexivity]).
Qed.

(** C6, amended: each UART ring buffer is a first-in first-out queue of
    capacity 8.  For every sequence of enqueues and dequeues on a well-formed
    buffer, the dequeues give the bytes in the order of their enqueues (the
    run agrees with the queue of the specification), the count never exceeds
    8, and an enqueue at count 8 changes nothing.  A dequeue at count 0
    leaves the buffer as it is; on the receive side ([UART_read]) it returns
    the sentinel 0, on the transmit side (the interrupt) it gives no byte to
    send: with the transmit buffer empty, the handler writes nothing to SBUF
    and marks the transmitter idle.  These enqueues and dequeues are the
    ones the code does: the receive half of [UART_ISR] enqueues the byte in
    SBUF, [UART_send] enqueues its argument, [UART_read] returns what the
    receive dequeue gives, and the transmit half of [UART_ISR] writes to SBUF
    the byte the transmit dequeue gives, if any. *)
Theorem ring_buffers_fifo :
  forall ops r, ring_wf r ->
    (fst (rcv_run ops r) = fst (fifo_run ops (contents r)) /\
     contents (snd (rcv_run ops r)) = snd (fifo_run ops (contents r)) /\
     0 <= count (snd (rcv_run ops r)) <= 8) /\
    (fst (tr_run ops r) = fst (fifo_take_run ops (contents r)) /\
     contents (snd (tr_run ops r)) = snd (fifo_take_run ops (contents r)) /\
     0 <= count (snd (tr_run ops r)) <= 8) /\
    (forall b, count r = 8 -> rcv_enqueue b r = r /\ tr_enqueue b r = r) /\
    (count r = 0 -> rcv_dequeue r = (0, r) /\ tr_dequeue r = (None, r)) /\
    (forall s, RI s = true ->
       rcv (UART_ISR s) = rcv_enqueue (SBUF_in s) (rcv s)) /\
    (forall s, TI s = true ->
       tr (UART_ISR s) = snd (tr_dequeue (tr s)) /\
       match fst (tr_dequeue (tr s)) with
       | Some b => wire (UART_ISR s) = wire s ++ [b] /\
                   tr_armed (UART_ISR s) = tr_armed s
       | None => wire (UART_ISR s) = wire s /\ tr_armed (UART_ISR s) = false
       end) /\
    (forall s, TI s = true -> count (tr s) = 0 ->
       wire (UART_ISR s) = wire s /\ tr (UART_ISR s) = tr s /\
       tr_armed (UART_ISR s) = false) /\
    (forall s,
       UART_read s =
       (fst (rcv_dequeue (rcv s)),
        irq (set_EA true (set_rcv (snd (rcv_dequeue (rcv s)))
                                  (set_EA false s)))) /\
       (count (rcv s) = 0 -> fst (UART_read s) = 0)) /\
    (forall b s,
       UART_send b s =
       delay 1 (irq (set_EA true
                       (send_arm (set_tr (tr_enqueue b (tr s))
                                         (set_EA false s)))))).
Proof.
  intros ops r Hwf.
  destruct (rcv_run_fifo ops r Hwf) as (H1 & H2 & H3).
  destruct (tr_run_fifo ops r Hwf) as (H4 & H5 & H6).
  split; [split; [exact H1|split; [exact H2|apply H3]]|].
  split; [split; [exact H4|split; [exact H5|apply H6]]|].
  split.
  { intros b H. split; [unfold rcv_enqueue|unfold tr_enqueue];
      rewrite H; reflexivity. }
  split.
  { intros H. split; [unfold rcv_dequeue|unfold tr_dequeue];
      rewrite H; reflexivity. }
  split; [intros s H; rewrite ISR_receive, H; reflexivity|].
  split; [intros s; apply ISR_transmit|].
  split.
  { intros s H H0. destruct (ISR_transmit s H) as (A & B). revert A B.
    unfold tr_dequeue. rewrite H0. cbn. intros A (B & C).
    split; [exact B|split; [exact A|exact C]]. }
  split.
  { intros s. split; [reflexivity|]. intros H.
    change (fst (UART_read s)) with (fst (rcv_dequeue (rcv s))).
    unfold rcv_dequeue. rewrite H. reflexivity. }
  intros b s.
  unfold UART_send, bind, cli, sei, gets, modify, send_arm, wait_TI, ret.
  simpl. destruct (tr_armed s); simpl; [|reflexivity].
  destruct (buffered_tr _ =? TR_BUFF_SIZE); reflexivity.
Qed.

Lemma ring_buffers_fifo_witness :
  fst (rcv_run [Enq 1; Enq 2; Deq; Deq; Deq] (empty_ring 8)) = [1; 2; 0] /\
  fst (tr_run [Enq 1; Enq 2; Deq; Deq; Deq] (empty_ring 8))
  = [Some 1; Some 2; None] /\
  tr_armed (UART_ISR (set_TI true (set_tr_armed true (live_state still_env))))
  = false.
Proof.
  pose proof (ring_buffers_fifo [Enq 1; Enq 2; Deq; Deq; Deq] (empty_ring 8)
                empty_ring_wf)
    as ((H1 & _) & (H2 & _) & _ & _ & _ & _ & H3 & _).
  split; [rewrite H1; reflexivity|]. split; [rewrite H2; reflexivity|].
  destruct (H3 (set_TI true (set_tr_armed true (live_state still_env)))
               eq_refl eq_refl) as (_ & _ & E).
  exact E.
Defined.

(** C6 as stated fails for the transmit buffer: its dequeue on an empty
    buffer gives nothing, not a byte 0. *)
Lemma transmit_dequeue_no_sentinel : ~ both_rings_sentinel_fifo.
Proof.
  intros H. destruct (H [Deq] (empty_ring 8) empty_ring_wf) as (_ & E).
  discriminate E.
Qed.

(** ** The transmit path *)

(** Interrupt activity, seen from the transmit side. *)

Lemma tx_frame_refl s : tx_frame s s.
Proof. split; auto. intros H; split; [exact H|split; [reflexivity|lia]]. Qed.

Lemma tx_frame_trans s1 s2 s3 : tx_frame s1 s2 -> tx_frame s2 s3 -> tx_frame s1 s3.
Proof.
  intros (E1 & H1) (E2 & H2). split; [congruence|].
  intros Hwf. destruct (H1 Hwf) as (W & Q & C).
  destruct (H2 W) as (W' & Q' & C').
  split; [exact W'|split; [congruence|lia]].
Qed.

Lemma ISR_tx s :
  tx_frame s (UART_ISR s) /\
  (ring_wf (tr s) -> TI s = true -> 0 < count (tr s) ->
   count (tr (UART_ISR s)) = count (tr s) - 1).
Proof.
  unfold UART_ISR.
  set (s1 := if RI s then _ else s).
  assert (E1 : tr s1 = tr s /\ wire s1 = wire s /\ TI s1 = TI s /\ ES s1 = ES s)
    by (subst s1; destruct (RI s); auto).
  destruct E1 as (Et & Ew & Ei & Ee).
  clearbody s1. rewrite Ei.
  destruct (TI s); [|split; [split; [auto|]|discriminate]].
  2:{ unfold txq; rewrite Et, Ew; intros H; split; [exact H|split; [reflexivity|lia]]. }
  simpl. rewrite Et.
  unfold tr_dequeue. change TR_BUFF_MASK with 7.
  destruct (0 <? count (tr s)) eqn:E.
  - apply Z.ltb_lt in E.
    destruct (ring_get 7 (tr s)) as [b r'] eqn:Eg. simpl.
    split; [split; [auto|]|].
    + intros Hwf. destruct (ring_get_spec _ Hwf E) as (H1 & H2 & H3).
      rewrite Eg in *; simpl in *.
      unfold txq; simpl. rewrite Ew, H2, <- app_assoc. simpl.
      split; [exact H1|split; [reflexivity|lia]].
    + intros Hwf _ _. destruct (ring_get_spec _ Hwf E) as (H1 & H2 & H3).
      rewrite Eg in *; simpl in *. exact H3.
  - apply Z.ltb_ge in E. simpl. split; [split; [auto|]|intros; lia].
    unfold txq; simpl. rewrite Et, Ew.
    intros H; split; [exact H|split; [reflexivity|lia]].
Qed.

Lemma irq_tx s : tx_frame s (irq s).
Proof.
  unfold irq. destruct (EA s && ES s && (RI s || TI s)).
  - apply ISR_tx.
  - apply tx_frame_refl.
Qed.

Lemma tx_frame_same s s' :
  ES s' = ES s -> tr s' = tr s -> wire s' = wire s -> tx_frame s s'.
Proof.
  intros E1 E2 E3. split; [exact E1|]. unfold txq. rewrite E2, E3.
  intros H; split; [exact H|split; [reflexivity|lia]].
Qed.

Lemma hw_step_tx s e : tx_frame s (hw_step s e).
Proof.
  destruct e; simpl;
    (eapply tx_frame_trans; [|apply irq_tx]); apply tx_frame_same; reflexivity.
Qed.

Lemma hw_steps_tx evs : forall s, tx_frame s (fold_left hw_step evs s).
Proof.
  induction evs as [|e t IH]; intros s; simpl.
  - apply tx_frame_refl.
  - eapply tx_frame_trans; [apply hw_step_tx|apply IH].
Qed.

Lemma pass_time_tx s : tx_frame s (pass_time s).
Proof.
  unfold pass_time. destruct (uart_in (world s)).
  - apply tx_frame_refl.
  - eapply tx_frame_trans; [|apply hw_steps_tx]. apply tx_frame_same; reflexivity.
Qed.

Lemma delay_tx ms s : tx_frame s (snd (delay ms s)).
Proof.
  unfold delay, bind, act, modify; simpl.
  eapply tx_frame_trans; [|apply pass_time_tx]. apply tx_frame_same; reflexivity.
Qed.

(** [UART_send] as a composition of state changes. *)

Lemma UART_send_eq b s :
  UART_send b s =
  delay 1 (irq (set_EA true
                  (send_arm (set_tr (tr_enqueue b (tr s)) (set_EA false s))))).
Proof.
  unfold UART_send, bind, cli, sei, gets, modify, send_arm, wait_TI, ret.
  simpl. destruct (tr_armed s); simpl; [|reflexivity].
  destruct (buffered_tr _ =? TR_BUFF_SIZE); reflexivity.
Qed.

Lemma send_arm_tx s :
  tx_frame s (send_arm s) /\
  (tr_armed s = false -> send_arm s = set_tr_armed true (set_TI true s)).
Proof.
  unfold send_arm. destruct (tr_armed s); simpl.
  - split; [|discriminate].
    destruct (buffered_tr s =? TR_BUFF_SIZE); [|apply tx_frame_refl].
    destruct (TI s); [apply tx_frame_refl|apply pass_time_tx].
  - split; [|reflexivity]. apply tx_frame_same; reflexivity.
Qed.

(** What one [UART_send] does to the transmit side. *)
Lemma UART_send_tx b s :
  ring_wf (tr s) ->
  let s' := snd (UART_send b s) in
  ES s' = ES s /\ ring_wf (tr s') /\
  (count (tr s) < 8 ->
   txq s' = txq s ++ [b] /\ count (tr s') <= count (tr s) + 1 /\
   (tr_armed s = false -> ES s = true -> count (tr s') <= count (tr s))).
Proof.
  intros Hwf. rewrite UART_send_eq.
  set (s1 := set_tr (tr_enqueue b (tr s)) (set_EA false s)).
  assert (Hs1 : ES s1 = ES s /\ ring_wf (tr s1) /\ tr_armed s1 = tr_armed s /\
                (count (tr s) < 8 -> txq s1 = txq s ++ [b] /\
                                     count (tr s1) = count (tr s) + 1)).
  { subst s1; simpl. rewrite tr_enqueue_eq.
    destruct (enqueue_step b (tr s) Hwf) as (H1 & H2).
    split; [reflexivity|]. split; [exact H1|]. split; [reflexivity|].
    intros H. split.
    - unfold txq; simpl. rewrite H2. unfold fifo_enq.
      rewrite (count_contents _ Hwf) in H.
      replace (length (contents (tr s)) <? 8)%nat with true
        by (symmetry; apply Nat.ltb_lt; lia).
      apply app_assoc.
    - unfold rcv_enqueue. change RCV_BUFF_SIZE with 8.
      replace (count (tr s) <? 8) with true by (symmetry; apply Z.ltb_lt; lia).
      apply ring_put_spec; auto. }
  destruct Hs1 as (He1 & Hw1 & Ha1 & Hq1). clearbody s1.
  destruct (send_arm_tx s1) as (F2 & A2).
  set (s2 := send_arm s1) in *.
  set (s3 := irq (set_EA true s2)).
  assert (F3 : tx_frame s2 s3).
  { subst s3. eapply tx_frame_trans; [|apply irq_tx].
    apply tx_frame_same; reflexivity. }
  pose proof (delay_tx 1 s3) as F4.
  destruct F2 as (E2 & F2). destruct (F2 Hw1) as (W2 & Q2 & C2).
  destruct F3 as (E3 & F3). destruct (F3 W2) as (W3 & Q3 & C3).
  destruct F4 as (E4 & F4). destruct (F4 W3) as (W4 & Q4 & C4).
  cbv zeta.
  split; [congruence|]. split; [exact W4|].
  intros Hlt. destruct (Hq1 Hlt) as (Q1 & C1).
  split; [congruence|]. split; [lia|].
  intros Harm HES. rewrite Ha1 in A2. specialize (A2 Harm).
  assert (T2 : TI s2 = true) by (rewrite A2; reflexivity).
  assert (K2 : tr s2 = tr s1) by (rewrite A2; reflexivity).
  assert (C3' : count (tr s3) = count (tr s2) - 1).
  { unfold s3, irq.
    change (EA (set_EA true s2)) with true.
    change (ES (set_EA true s2)) with (ES s2).
    change (TI (set_EA true s2)) with (TI s2).
    rewrite E2, He1, HES, T2, orb_true_r. cbv [andb].
    apply (proj2 (ISR_tx (set_EA true s2))).
    - exact W2.
    - exact T2.
    - change (tr (set_EA true s2)) with (tr s2). rewrite K2.
      pose proof (proj1 (proj2 Hwf)). lia. }
  rewrite K2 in C3'.
  lia.
Qed.

(** Interrupt activity never arms the transmitter. *)

Lemma tx_quiet_refl s : tx_quiet s s.
Proof. split; [apply tx_frame_refl|auto]. Qed.

Lemma tx_quiet_trans s1 s2 s3 : tx_quiet s1 s2 -> tx_quiet s2 s3 -> tx_quiet s1 s3.
Proof.
  intros (F1 & A1) (F2 & A2). split; [eapply tx_frame_trans; eauto|auto].
Qed.

Lemma tx_quiet_same s s' :
  ES s' = ES s -> tr s' = tr s -> wire s' = wire s -> tr_armed s' = tr_armed s ->
  tx_quiet s s'.
Proof.
  intros E1 E2 E3 E4. split; [apply tx_frame_same; auto|congruence].
Qed.

Lemma ISR_armed s : tr_armed s = false -> tr_armed (UART_ISR s) = false.
Proof.
  intros H. unfold UART_ISR.
  set (s1 := if RI s then _ else s).
  assert (E1 : tr_armed s1 = false) by (subst s1; destruct (RI s); auto).
  clearbody s1. destruct (TI s1); [|exact E1]. simpl.
  destruct (tr_dequeue (tr s1)) as [[b|] r]; simpl; auto.
Qed.

Lemma irq_quiet s : tx_quiet s (irq s).
Proof.
  split; [apply irq_tx|].
  unfold irq. destruct (EA s && ES s && (RI s || TI s)); auto using ISR_armed.
Qed.

Lemma hw_step_quiet s e : tx_quiet s (hw_step s e).
Proof.
  destruct e; simpl;
    (eapply tx_quiet_trans; [|apply irq_quiet]); apply tx_quiet_same; reflexivity.
Qed.

Lemma hw_steps_quiet evs : forall s, tx_quiet s (fold_left hw_step evs s).
Proof.
  induction evs as [|e t IH]; intros s; simpl.
  - apply tx_quiet_refl.
  - eapply tx_quiet_trans; [apply hw_step_quiet|apply IH].
Qed.

Lemma pass_time_quiet s : tx_quiet s (pass_time s).
Proof.
  unfold pass_time. destruct (uart_in (world s)).
  - apply tx_quiet_refl.
  - eapply tx_quiet_trans; [|apply hw_steps_quiet]. apply tx_quiet_same; reflexivity.
Qed.

Lemma delay_quiet ms s : tx_quiet s (snd (delay ms s)).
Proof.
  unfold delay, bind, act, modify; simpl.
  eapply tx_quiet_trans; [|apply pass_time_quiet]. apply tx_quiet_same; reflexivity.
Qed.

Lemma room_quiet s s' n : tx_quiet s s' -> tx_room s n -> tx_room s' n.
Proof.
  intros ((E & F) & A) (Hwf & H). destruct (F Hwf) as (W & Q & C).
  split; [exact W|]. destruct H as [H|(H1 & H2 & H3 & H4)].
  - left; lia.
  - right. split; [auto|]. split; [congruence|]. lia.
Qed.

Lemma UART_send_room b s n :
  0 <= n -> tx_room s (n + 1) ->
  txq (snd (UART_send b s)) = txq s ++ [b] /\ tx_room (snd (UART_send b s)) n.
Proof.
  intros Hn (Hwf & H).
  destruct (UART_send_tx b s Hwf) as (E & W & K).
  assert (Hlt : count (tr s) < 8) by (destruct H as [H|(_ & _ & H & _)]; lia).
  destruct (K Hlt) as (Q & C & I).
  split; [exact Q|]. split; [exact W|]. left.
  destruct H as [H|(H1 & H2 & H3 & H4)]; [lia|].
  specialize (I H1 H2). lia.
Qed.

Lemma set_PCON_room v s n : tx_room s n -> tx_room (set_PCON v s) n.
Proof. apply room_quiet. apply tx_quiet_same; reflexivity. Qed.

Lemma LIN_send_request_eq ID s :
  LIN_send_request ID s =
  let s0 := snd (for_loop 100 0 (fun _ =>
                   armed <- gets tr_armed ;;
                   if negb armed then ret (Some tt) else delay 1 ;; ret None) s) in
  let s1 := snd (UART_send 0 (set_PCON (Z.land (PCON s0) (Z.lnot SMOD)) s0)) in
  let s2 := snd (UART_send 85 (set_PCON (Z.lor (PCON s1) SMOD) s1)) in
  (protected_id ID, snd (UART_send (protected_id ID) s2)).
Proof.
  unfold LIN_send_request, bind at 1.
  destruct (for_loop 100 0 _ s) as [w s0]. cbv zeta.
  unfold bind, modify, ret; simpl.
  destruct (UART_send 0 _) as [[] s1]; simpl.
  destruct (UART_send 85 _) as [[] s2]; simpl.
  destruct (UART_send (protected_id ID) s2) as [[] s3]; reflexivity.
Qed.

Lemma LIN_send_request_tx ID s n :
  0 <= n -> tx_room s (n + 3) ->
  txq (snd (LIN_send_request ID s)) = txq s ++ [0; 85; protected_id ID] /\
  tx_room (snd (LIN_send_request ID s)) n.
Proof.
  intros Hn Hroom. rewrite LIN_send_request_eq. cbv zeta.
  set (s0 := snd (for_loop 100 0 _ s)).
  assert (Q0 : tx_quiet s s0).
  { subst s0. apply for_loop_keeps.
    - apply tx_quiet_refl.
    - apply tx_quiet_trans.
    - intros i s'. rewrite bind_eq. unfold gets; cbn [fst snd].
      destruct (negb (tr_armed s')).
      + apply tx_quiet_refl.
      + rewrite bind_eq. apply delay_quiet. }
  assert (R0 : tx_room s0 (n + 3)) by (eapply room_quiet; eauto).
  assert (E0 : txq s0 = txq s) by (apply Q0, Hroom).
  clearbody s0.
  set (s0' := set_PCON _ s0).
  assert (R0' : tx_room s0' ((n + 2) + 1))
    by (replace (n + 2 + 1) with (n + 3) by lia; apply set_PCON_room, R0).
  assert (Hn2 : 0 <= n + 2) by lia. assert (Hn1 : 0 <= n + 1) by lia.
  destruct (UART_send_room 0 s0' (n + 2) Hn2 R0') as (Q1 & R1).
  set (s1 := snd (UART_send 0 s0')) in *.
  set (s1' := set_PCON _ s1).
  assert (R1' : tx_room s1' ((n + 1) + 1))
    by (replace (n + 1 + 1) with (n + 2) by lia; apply set_PCON_room, R1).
  destruct (UART_send_room 85 s1' (n + 1) Hn1 R1') as (Q2 & R2).
  set (s2 := snd (UART_send 85 s1')) in *.
  destruct (UART_send_room (protected_id ID) s2 n Hn R2) as (Q3 & R3).
  simpl. split; [|exact R3].
  rewrite Q3, Q2. change (txq s1') with (txq s1). rewrite Q1.
  change (txq s0') with (txq s0). rewrite E0, <- !app_assoc. reflexivity.
Qed.

Lemma w16_add_l a b : w16 (w16 a + b) = w16 (a + b).
Proof. unfold w16. apply Zplus_mod_idemp_l. Qed.

Lemma firstn_aget_step (data : list Z) (i : nat) (n : nat) :
  (i + S n <= length data)%nat ->
  firstn (S n) (skipn i data) = aget data (Z.of_nat i) :: firstn n (skipn (S i) data).
Proof.
  intros H. unfold aget. rewrite Nat2Z.id.
  revert i H. induction data as [|h t IH]; intros i H; simpl in H; [lia|].
  destruct i as [|i].
  - reflexivity.
  - simpl skipn. simpl nth. apply IH. lia.
Qed.

Lemma send_bytes_tx n : forall i data c s k,
  0 <= k -> (i + n <= length data)%nat -> 0 <= c < 65536 ->
  tx_room s (Z.of_nat n + k) ->
  let payload := firstn n (skipn i data) in
  let r := send_bytes n (Z.of_nat i) data c s in
  fst r = w16 (c + zsum payload) /\
  txq (snd r) = txq s ++ payload /\ tx_room (snd r) k.
Proof.
  induction n as [|n IH]; intros i data c s k Hk Hlen Hc Hroom.
  - simpl. rewrite Z.add_0_r, app_nil_r.
    split; [|split; [reflexivity|exact Hroom]].
    unfold w16; symmetry; apply Z.mod_small; lia.
  - cbv zeta. rewrite firstn_aget_step by lia.
    simpl send_bytes. rewrite bind_eq.
    assert (Hroom' : tx_room s ((Z.of_nat n + k) + 1))
      by (replace (Z.of_nat n + k + 1) with (Z.of_nat (S n) + k) by lia; exact Hroom).
    assert (Hnk : 0 <= Z.of_nat n + k) by lia.
    destruct (UART_send_room (aget data (Z.of_nat i)) s _ Hnk Hroom') as (Q & R).
    set (s1 := snd (UART_send (aget data (Z.of_nat i)) s)) in *.
    replace (Z.of_nat i + 1) with (Z.of_nat (S i)) by lia.
    assert (Hc' : 0 <= w16 (c + aget data (Z.of_nat i)) < 65536)
      by (unfold w16; apply Z.mod_pos_bound; lia).
    assert (Hlen' : (S i + n <= length data)%nat) by lia.
    destruct (IH (S i) data (w16 (c + aget data (Z.of_nat i))) s1 k Hk Hlen' Hc' R)
      as (H1 & H2 & H3).
    split; [|split; [|exact H3]].
    + rewrite H1, w16_add_l. simpl zsum. f_equal; lia.
    + rewrite H2, Q, <- app_assoc. reflexivity.
Qed.

Lemma below_forallb (P : Z -> bool) (n : nat) :
  forallb P (map Z.of_nat (seq 0 n)) = true ->
  forall z, 0 <= z < Z.of_nat n -> P z = true.
Proof.
  intros H z Hz. rewrite forallb_forall in H. apply H.
  replace z with (Z.of_nat (Z.to_nat z)) by lia.
  apply in_map, in_seq. lia.
Qed.

Lemma protected_id_parity id :
  0 <= id < 64 -> protected_id id = protected_id_spec id.
Proof.
  intros H. apply Z.eqb_eq.
  apply (below_forallb (fun z => protected_id z =? protected_id_spec z) 64);
    [vm_compute; reflexivity|exact H].
Qed.

Lemma fold_low_byte x :
  Z.land (w16 (Z.lxor x 255)) 255 = Z.land (Z.lnot x) 255.
Proof.
  unfold w16. change 65536 with (2 ^ 16). rewrite <- Z.land_ones by lia.
  apply Z.bits_inj'; intros i Hi.
  rewrite !Z.land_spec, Z.lxor_spec, Z.lnot_spec by lia.
  change 255 with (Z.ones 8).
  destruct (Z.lt_ge_cases i 8) as [L|G].
  - rewrite Z.ones_spec_low by lia. rewrite Z.ones_spec_low by lia.
    destruct (Z.testbit x i); reflexivity.
  - rewrite (Z.ones_spec_high 8) by lia. rewrite !andb_false_r. reflexivity.
Qed.

Lemma zsum_bound d :
  Forall (fun b => 0 <= b < 256) d -> 0 <= zsum d <= 255 * Z.of_nat (length d).
Proof.
  induction 1 as [|b t Hb Ht IH]; simpl zsum; simpl length; lia.
Qed.

Lemma live_room w n : n <= 9 -> tx_room (live_state w) n.
Proof.
  intros H. split; [apply empty_ring_wf|]. right.
  simpl. repeat split; lia.
Qed.

(** C2: for every id in 0..63, [LIN_send_request] returns the protected ID
    [(id & 0x3F) | (p0 << 6) | (p1 << 7)] with [p0 = bit0 ^ bit1 ^ bit2 ^ bit4]
    and [p1 = !(bit1 ^ bit3 ^ bit4 ^ bit5)], and, the transmit buffer having
    room for the header, hands to the UART, after the break byte, the sync
    byte 0x55 followed by that protected ID; id 0x3A gives 0xBA. *)
Theorem LIN_send_request_header :
  forall id s, 0 <= id < 64 ->
    fst (LIN_send_request id s) = protected_id_spec id /\
    (tx_room s 3 ->
     txq (snd (LIN_send_request id s))
     = txq s ++ [0; 85; protected_id_spec id]) /\
    fst (LIN_send_request 58 s) = 186.
Proof.
  intros id s Hid. rewrite <- (protected_id_parity id Hid).
  split; [rewrite LIN_send_request_eq; reflexivity|].
  split; [|rewrite LIN_send_request_eq; reflexivity].
  intros Hroom.
  apply (LIN_send_request_tx id s 0); [lia|exact Hroom].
Qed.

Lemma LIN_send_request_header_witness :
  0 <= 58 < 64 /\
  fst (LIN_send_request 58 (live_state still_env)) = 186 /\
  txq (snd (LIN_send_request 58 (live_state still_env))) = [0; 85; 186].
Proof.
  assert (H : 0 <= 58 < 64) by lia.
  destruct (LIN_send_request_header 58 (live_state still_env) H)
    as (H1 & H2 & _).
  split; [exact H|]. split; [exact H1|].
  apply H2. apply live_room; lia.
Defined.

(** C1: for every protected ID [p] and payload [d] of at most 8 bytes,
    [LIN_send_data], the transmit buffer having room for the frame, hands to
    the UART the payload bytes in order and then one checksum byte, the
    complement of the folded sum seeded with [p]:
    [~(((p + sum d) & 0xFF) + ((p + sum d) >> 8)) & 0xFF].  For protected ID
    0xBA and payload 0x02, 0x00 the bytes are 0x02, 0x00, 0x43. *)
Theorem LIN_send_data_frame :
  forall p d rest s,
    0 <= p < 256 -> Forall (fun b => 0 <= b < 256) d -> (length d <= 8)%nat ->
    tx_room s (Z.of_nat (length d) + 1) ->
    txq (snd (LIN_send_data (d ++ rest) (Z.of_nat (length d)) p s))
    = txq s ++ d ++ [checksum_spec p d].
Proof.
  intros p d rest s Hp Hd Hlen Hroom.
  unfold LIN_send_data. rewrite bind_eq, Nat2Z.id.
  assert (Hl : (0 + length d <= length (d ++ rest))%nat)
    by (rewrite length_app; lia).
  assert (Hc : 0 <= p < 65536) by lia.
  destruct (send_bytes_tx (length d) 0 (d ++ rest) p s 1 ltac:(lia) Hl Hc Hroom)
    as (H1 & H2 & H3).
  change (Z.of_nat 0) with 0 in *. simpl skipn in *.
  rewrite firstn_app, Nat.sub_diag, firstn_all, firstn_O, app_nil_r in H1, H2.
  set (r := send_bytes (length d) 0 (d ++ rest) p s) in *.
  destruct (UART_send_room
              (Z.land (w16 (Z.lxor (Z.land (fst r) 255 + Z.shiftr (fst r) 8) 255))
                      255)
              (snd r) 0 ltac:(lia) H3) as (Q & _).
  rewrite Q, H2, <- app_assoc. do 3 f_equal.
  rewrite fold_low_byte, H1. unfold checksum_spec.
  pose proof (zsum_bound d Hd).
  replace (w16 (p + zsum d)) with (p + zsum d)
    by (unfold w16; symmetry; apply Z.mod_small; lia).
  reflexivity.
Qed.

Lemma LIN_send_data_frame_witness :
  txq (snd (LIN_send_data power_on_data 2 186 (live_state still_env)))
  = [2; 0; 67].
Proof.
  apply (LIN_send_data_frame 186 [2; 0] [0] (live_state still_env)).
  - lia.
  - repeat constructor; lia.
  - simpl; lia.
  - apply live_room; simpl; lia.
Defined.

(** ** Battery check *)

Lemma steady_refl s : steady s s.
Proof. repeat split. Qed.

Lemma steady_trans a b c : steady a b -> steady b c -> steady a c.
Proof. intros (A1 & A2 & A3) (B1 & B2 & B3). repeat split; congruence. Qed.

Lemma ISR_steady s : steady s (UART_ISR s).
Proof.
  unfold UART_ISR.
  set (s1 := if RI s then _ else s).
  assert (E1 : steady s s1) by (subst s1; destruct (RI s); repeat split).
  clearbody s1. eapply steady_trans; [exact E1|].
  destruct (TI s1); [|apply steady_refl]. simpl.
  destruct (tr_dequeue (tr s1)) as [[b|] r]; repeat split.
Qed.

Lemma irq_steady s : steady s (irq s).
Proof.
  unfold irq. destruct (EA s && ES s && (RI s || TI s));
    [apply ISR_steady|apply steady_refl].
Qed.

Lemma hw_step_steady s e : steady s (hw_step s e).
Proof.
  destruct e; simpl; (eapply steady_trans; [|apply irq_steady]); repeat split.
Qed.

Lemma hw_steps_steady evs : forall s, steady s (fold_left hw_step evs s).
Proof.
  induction evs as [|e t IH]; intros s; simpl.
  - apply steady_refl.
  - eapply steady_trans; [apply hw_step_steady|apply IH].
Qed.

Lemma pass_time_steady s : steady s (pass_time s).
Proof.
  unfold pass_time. destruct (uart_in (world s)).
  - apply steady_refl.
  - eapply steady_trans; [|apply hw_steps_steady]. repeat split.
Qed.

Lemma delay_out ms s :
  out (snd (delay ms s)) = out s ++ [ADelay ms] /\
  resp_buff (snd (delay ms s)) = resp_buff s /\
  pins (world (snd (delay ms s))) = pins (world s).
Proof.
  unfold delay, bind, act, modify; simpl.
  destruct (pass_time_steady (set_out (out s ++ [ADelay ms]) s)) as (H1 & H2 & H3).
  rewrite H1, H2, H3. repeat split.
Qed.

Lemma repeat_snoc {A} (a : A) n : repeat a n ++ [a] = repeat a (S n).
Proof. induction n as [|n IH]; simpl; [reflexivity|rewrite IH; reflexivity]. Qed.

Lemma read_P_GOOD_spec s :
  fst (read_P_GOOD s) = P_GOOD_in (world s) 0%nat /\
  P_GOOD_in (world (snd (read_P_GOOD s))) = tl_stream (P_GOOD_in (world s)) /\
  out (snd (read_P_GOOD s)) = out s.
Proof. repeat split. Qed.

Lemma power_good_loop_spec n : forall u s,
  0 <= u < 5 ->
  let g := P_GOOD_in (world s) in
  let r := power_good_loop n u s in
  (5 <= u + Z.of_nat (lows n g) ->
   fst r = false /\
   exists k, (k < n)%nat /\ u + Z.of_nat (lows k g) = 4 /\ g k = false /\
     (forall j, P_GOOD_in (world (snd r)) j = g (S k + j)%nat) /\
     out (snd r) = out s ++ repeat (ADelay 10) k) /\
  (u + Z.of_nat (lows n g) < 5 ->
   fst r = true /\
   (forall j, P_GOOD_in (world (snd r)) j = g (n + j)%nat) /\
   out (snd r) = out s ++ repeat (ADelay 10) n).
Proof.
  induction n as [|n IH]; intros u s Hu; cbv zeta.
  - simpl. split; [lia|]. intros _. rewrite app_nil_r. repeat split.
  - simpl power_good_loop. rewrite bind_eq.
    destruct (read_P_GOOD_spec s) as (V1 & G1 & O1).
    set (g := P_GOOD_in (world s)) in *.
    set (s1 := snd (read_P_GOOD s)) in *.
    rewrite V1. clearbody s1.
    simpl lows.
    destruct (g 0%nat) eqn:E0; cbn [negb b2z].
    + (* good sample *)
      rewrite Z.add_0_r.
      replace (b8 u) with u by (unfold b8; symmetry; apply Z.mod_small; lia).
      replace (5 <=? u) with false by (symmetry; apply Z.leb_gt; lia).
      rewrite bind_eq.
      destruct (delay_out 10 s1) as (D1 & _ & D3).
      set (s2 := snd (delay 10 s1)) in *.
      assert (G2 : P_GOOD_in (world s2) = tl_stream g).
      { rewrite <- G1. unfold pins in D3. congruence. }
      specialize (IH u s2 Hu). cbv zeta in IH. rewrite G2 in IH.
      destruct IH as (IHa & IHb).
      replace (Z.of_nat (0 + lows n (tl_stream g))) with (Z.of_nat (lows n (tl_stream g))) by lia.
      split.
      * intros H. destruct (IHa H) as (F & k & K1 & K2 & K3 & K4 & K5).
        split; [exact F|]. exists (S k). simpl lows. rewrite E0.
        split; [lia|]. split; [lia|]. split; [exact K3|]. split; [exact K4|].
        rewrite K5, D1, O1, <- app_assoc. reflexivity.
      * intros H. destruct (IHb H) as (F & K4 & K5).
        split; [exact F|]. split; [exact K4|].
        rewrite K5, D1, O1, <- app_assoc. reflexivity.
    + (* not-good sample *)
      replace (b8 (u + 1)) with (u + 1) by (unfold b8; symmetry; apply Z.mod_small; lia).
      destruct (5 <=? u + 1) eqn:E5.
      * apply Z.leb_le in E5. cbn [ret fst snd].
        split; [|lia]. intros _. split; [reflexivity|].
        exists 0%nat. simpl lows. split; [lia|]. split; [lia|]. split; [exact E0|].
        split; [intros j; rewrite G1; reflexivity|].
        rewrite O1, app_nil_r. reflexivity.
      * apply Z.leb_gt in E5. rewrite bind_eq.
        destruct (delay_out 10 s1) as (D1 & _ & D3).
        set (s2 := snd (delay 10 s1)) in *.
        assert (G2 : P_GOOD_in (world s2) = tl_stream g).
        { rewrite <- G1. unfold pins in D3. congruence. }
        assert (Hu' : 0 <= u + 1 < 5) by lia.
        specialize (IH (u + 1) s2 Hu'). cbv zeta in IH. rewrite G2 in IH.
        destruct IH as (IHa & IHb).
        split.
        -- intros H. destruct (IHa ltac:(lia)) as (F & k & K1 & K2 & K3 & K4 & K5).
           split; [exact F|]. exists (S k). simpl lows. rewrite E0.
           split; [lia|]. split; [lia|]. split; [exact K3|]. split; [exact K4|].
           rewrite K5, D1, O1, <- app_assoc. reflexivity.
        -- intros H. destruct (IHb ltac:(lia)) as (F & K4 & K5).
           split; [exact F|]. split; [exact K4|].
           rewrite K5, D1, O1, <- app_assoc. reflexivity.
Qed.

(** C8: for every sequence of samples of the battery power-good input,
    [is_power_good] returns false iff at least 5 of the first 10 samples read
    not-good.  It then returns as soon as the 5th not-good sample is read
    (sample [k], after [k] waits of 10 ms), and it returns true after all 10
    samples (and 10 waits) when 4 or fewer read not-good. *)
Theorem is_power_good_debounce :
  forall s,
    let g := P_GOOD_in (world s) in
    let r := is_power_good s in
    (fst r = false <-> (5 <= lows 10 g)%nat) /\
    ((5 <= lows 10 g)%nat ->
     exists k, (k < 10)%nat /\ lows k g = 4%nat /\ g k = false /\
       (forall j, P_GOOD_in (world (snd r)) j = g (S k + j)%nat) /\
       out (snd r) = out s ++ repeat (ADelay 10) k) /\
    ((lows 10 g <= 4)%nat ->
     fst r = true /\
     (forall j, P_GOOD_in (world (snd r)) j = g (10 + j)%nat) /\
     out (snd r) = out s ++ repeat (ADelay 10) 10).
Proof.
  intros s g r.
  destruct (power_good_loop_spec 10 0 s ltac:(lia)) as (A & B).
  fold g in A, B. fold is_power_good in A, B. fold r in A, B.
  split; [|split].
  - split.
    + intros F. destruct (le_lt_dec 5 (lows 10 g)) as [L|L]; [exact L|].
      destruct (B ltac:(lia)) as (T & _). congruence.
    + intros L. apply A. lia.
  - intros L. destruct (A ltac:(lia)) as (_ & k & K1 & K2 & K3 & K4 & K5).
    exists k. repeat split; auto; lia.
  - intros L. apply B. lia.
Qed.

Lemma is_power_good_debounce_witness :
  fst (is_power_good (live_state sagging_env)) = false /\
  fst (is_power_good (live_state still_env)) = true.
Proof.
  destruct (is_power_good_debounce (live_state sagging_env)) as ((_ & H) & _).
  destruct (is_power_good_debounce (live_state still_env)) as (_ & _ & H').
  split.
  - apply H. vm_compute. lia.
  - apply H'. vm_compute. lia.
Defined.

(** ** Reading a response *)

Lemma rx_budget_eq s : rx_budget s = (rx_held s + rx_pending (uart_in (world s)))%nat.
Proof. reflexivity. Qed.

Lemma b8_succ x : 0 <= x < 8 -> b8 (x + 1) = x + 1.
Proof. intros; unfold b8; apply Z.mod_small; lia. Qed.

Lemma b8_pred_le x : 0 < x -> 0 <= b8 (x - 1) <= x - 1.
Proof.
  intros H. unfold b8. split.
  - apply Z.mod_pos_bound; lia.
  - apply Z.mod_le; lia.
Qed.

Lemma ISR_rx s : rx_frame 0 s (UART_ISR s).
Proof.
  unfold UART_ISR.
  set (s1 := if RI s then _ else s).
  assert (E1 : rx_frame 0 s s1 /\ RI s1 = false).
  { subst s1. destruct (RI s) eqn:ER.
    - split; [|reflexivity]. split; [reflexivity|]. intros H0.
      unfold rx_held, buffered_rcv. simpl. rewrite ER.
      unfold rcv_enqueue. change RCV_BUFF_SIZE with 8.
      destruct (count (rcv s) <? 8) eqn:E.
      + apply Z.ltb_lt in E. unfold ring_put; simpl.
        unfold buffered_rcv in H0. rewrite b8_succ by lia. lia.
      + unfold buffered_rcv in H0. lia.
    - split; [|exact ER]. split; [reflexivity|]. intros H0; split; [exact H0|lia]. }
  destruct E1 as ((W1 & F1) & R1). clearbody s1.
  assert (E2 : forall s2, world s2 = world s1 -> rcv s2 = rcv s1 -> RI s2 = RI s1 ->
                          rx_frame 0 s s2).
  { intros s2 Hw Hr Hi. split; [congruence|]. intros H0.
    destruct (F1 H0) as (A & B). unfold rx_held, buffered_rcv in *.
    rewrite Hr, Hi. split; [exact A|exact B]. }
  destruct (TI s1); [|apply E2; reflexivity]. simpl.
  destruct (tr_dequeue (tr s1)) as [[b|] r]; apply E2; reflexivity.
Qed.

Lemma rx_frame_trans k1 k2 a b c :
  rx_frame k1 a b -> rx_frame k2 b c -> rx_frame (k1 + k2) a c.
Proof.
  intros (W1 & F1) (W2 & F2). split; [congruence|].
  intros H0. destruct (F1 H0) as (A1 & B1). destruct (F2 A1) as (A2 & B2).
  split; [exact A2|lia].
Qed.

Lemma rx_frame_refl s : rx_frame 0 s s.
Proof. split; [reflexivity|]. intros H; split; [exact H|lia]. Qed.

Lemma irq_rx s : rx_frame 0 s (irq s).
Proof.
  unfold irq. destruct (EA s && ES s && (RI s || TI s));
    [apply ISR_rx|apply rx_frame_refl].
Qed.

Lemma hw_step_rx s e : rx_frame (if is_rx e then 1 else 0) s (hw_step s e).
Proof.
  destruct e as [b|]; simpl.
  - change 1%nat with (1 + 0)%nat. eapply rx_frame_trans; [|apply irq_rx].
    split; [reflexivity|]. intros H0. split; [exact H0|].
    unfold rx_held, buffered_rcv; simpl. destruct (RI s); lia.
  - change 0%nat with (0 + 0)%nat. eapply rx_frame_trans; [|apply irq_rx].
    split; [reflexivity|]. intros H0. split; [exact H0|].
    unfold rx_held, buffered_rcv; simpl. lia.
Qed.

Lemma hw_steps_rx evs : forall s,
  rx_frame (length (filter is_rx evs)) s (fold_left hw_step evs s).
Proof.
  induction evs as [|e t IH]; intros s; simpl.
  - apply rx_frame_refl.
  - pose proof (hw_step_rx s e) as H1. specialize (IH (hw_step s e)).
    destruct (is_rx e); simpl length.
    + change (S (length (filter is_rx t))) with (1 + length (filter is_rx t))%nat.
      eapply rx_frame_trans; eauto.
    + change (length (filter is_rx t)) with (0 + length (filter is_rx t))%nat.
      eapply rx_frame_trans; eauto.
Qed.

(** Time passing does not raise the budget. *)
Lemma pass_time_budget s :
  0 <= buffered_rcv s ->
  0 <= buffered_rcv (pass_time s) /\ (rx_budget (pass_time s) <= rx_budget s)%nat.
Proof.
  intros H0. unfold pass_time. destruct (uart_in (world s)) as [|evs rest] eqn:Eu.
  - split; [exact H0|lia].
  - set (s1 := set_world _ s).
    destruct (hw_steps_rx evs s1) as (W & F).
    assert (H1 : 0 <= buffered_rcv s1) by exact H0.
    destruct (F H1) as (A & B). split; [exact A|].
    rewrite !rx_budget_eq, W. subst s1; simpl world; simpl uart_in.
    rewrite Eu. unfold rx_pending. simpl concat. rewrite filter_app, length_app.
    change (rx_held (set_world _ s)) with (rx_held s) in B. lia.
Qed.

Lemma delay_budget ms s :
  0 <= buffered_rcv s ->
  0 <= buffered_rcv (snd (delay ms s)) /\
  (rx_budget (snd (delay ms s)) <= rx_budget s)%nat.
Proof.
  intros H0. unfold delay, bind, act, modify; simpl.
  apply (pass_time_budget (set_out (out s ++ [ADelay ms]) s)). exact H0.
Qed.

Lemma UART_read_eq s :
  UART_read s =
  (fst (rcv_dequeue (rcv s)),
   irq (set_EA true (set_rcv (snd (rcv_dequeue (rcv s))) (set_EA false s)))).
Proof. reflexivity. Qed.

Lemma UART_read_budget s :
  0 < buffered_rcv s ->
  0 <= buffered_rcv (snd (UART_read s)) /\
  (rx_budget (snd (UART_read s)) < rx_budget s)%nat.
Proof.
  intros H0. rewrite UART_read_eq. cbn [snd].
  set (s1 := set_EA true _).
  assert (H1 : 0 <= buffered_rcv s1 /\ (rx_held s1 < rx_held s)%nat /\ world s1 = world s).
  { subst s1. unfold rx_held, buffered_rcv in *. simpl.
    unfold rcv_dequeue. replace (0 <? count (rcv s)) with true
      by (symmetry; apply Z.ltb_lt; lia).
    simpl. pose proof (b8_pred_le (count (rcv s)) H0).
    split; [lia|]. split; [|reflexivity]. destruct (RI s); lia. }
  destruct H1 as (A & B & W). clearbody s1.
  destruct (irq_rx s1) as (W2 & F). destruct (F A) as (A2 & B2).
  split; [exact A2|]. rewrite !rx_budget_eq, W2, W. lia.
Qed.

Lemma drain_empties fuel : forall s,
  0 <= buffered_rcv s -> (rx_budget s <= fuel)%nat ->
  buffered_rcv (snd (drain fuel s)) = 0.
Proof.
  induction fuel as [|fuel IH]; intros s H0 Hf.
  - simpl. rewrite rx_budget_eq in Hf. unfold rx_held in Hf. lia.
  - simpl drain. rewrite bind_eq. unfold gets at 1 2; cbn [fst snd].
    destruct (buffered_rcv s =? 0) eqn:E.
    + apply Z.eqb_eq in E. exact E.
    + apply Z.eqb_neq in E. rewrite !bind_eq. cbn [ret snd].
      destruct (UART_read_budget s ltac:(lia)) as (A1 & B1).
      destruct (delay_budget 1 (snd (UART_read s)) A1) as (A2 & B2).
      apply IH; [exact A2|lia].
Qed.

Lemma read_loop_drain fuel : forall rb dest s,
  0 <= rb <= 9 -> (9 <= length dest)%nat ->
  let got := fst (drain fuel s) in
  let r := read_loop fuel rb dest s in
  let n := Z.min 9 (rb + Z.of_nat (length got)) in
  snd r = snd (drain fuel s) /\
  fst (fst r) = n /\
  length (snd (fst r)) = length dest /\
  (forall i, 0 <= i ->
     aget (snd (fst r)) i =
     if (rb <=? i) && (i <? n) then aget got (i - rb) else aget dest i).
Proof.
  induction fuel as [|fuel IH]; intros rb dest s Hrb Hlen; cbv zeta.
  - simpl. rewrite Z.add_0_r, Z.min_r by lia.
    split; [reflexivity|]. split; [reflexivity|]. split; [reflexivity|].
    intros i Hi.
    replace ((rb <=? i) && (i <? rb)) with false; [reflexivity|].
    symmetry. apply andb_false_iff.
    destruct (Z.le_gt_cases rb i); [right; apply Z.ltb_ge; lia|left; apply Z.leb_gt; lia].
  - simpl read_loop. simpl drain. rewrite !(bind_eq (gets buffered_rcv)).
    unfold gets; cbn [fst snd].
    destruct (buffered_rcv s =? 0) eqn:E.
    + simpl. rewrite Z.add_0_r, Z.min_r by lia.
      split; [reflexivity|]. split; [reflexivity|]. split; [reflexivity|].
      intros i Hi.
      replace ((rb <=? i) && (i <? rb)) with false; [reflexivity|].
      symmetry. apply andb_false_iff.
      destruct (Z.le_gt_cases rb i); [right; apply Z.ltb_ge; lia|left; apply Z.leb_gt; lia].
    + rewrite !(bind_eq UART_read).
      set (x := fst (UART_read s)). set (s1 := snd (UART_read s)).
      rewrite (bind_eq (delay 1) _ s1).
      set (s2 := snd (delay 1 s1)).
      rewrite (bind_eq (drain fuel)). cbn [ret fst snd].
      destruct (rb <? 9) eqn:E9.
      * apply Z.ltb_lt in E9. rewrite bind_eq. fold s2.
        assert (Hb : b8 (rb + 1) = rb + 1) by (unfold b8; apply Z.mod_small; lia).
        rewrite Hb.
        assert (Hl' : (9 <= length (aset dest rb x))%nat) by (rewrite length_aset; exact Hlen).
        destruct (IH (rb + 1) (aset dest rb x) s2 ltac:(lia) Hl') as (H1 & H2 & H3 & H4).
        simpl length.
        replace (rb + Z.of_nat (S (length (fst (drain fuel s2)))))
          with (rb + 1 + Z.of_nat (length (fst (drain fuel s2)))) by lia.
        split; [exact H1|]. split; [exact H2|].
        split; [rewrite H3; apply length_aset|].
        intros i Hi. rewrite (H4 i Hi).
        set (n := Z.min 9 (rb + 1 + Z.of_nat (length (fst (drain fuel s2))))).
        assert (Hn : rb + 1 <= n) by (unfold n; lia).
        destruct (Z.lt_trichotomy i rb) as [L|[Q|G]].
        -- replace (rb + 1 <=? i) with false by (symmetry; apply Z.leb_gt; lia).
           replace (rb <=? i) with false by (symmetry; apply Z.leb_gt; lia).
           simpl. apply aget_aset_neq; lia.
        -- subst i.
           replace (rb + 1 <=? rb) with false by (symmetry; apply Z.leb_gt; lia).
           replace (rb <=? rb) with true by (symmetry; apply Z.leb_le; lia).
           replace (rb <? n) with true by (symmetry; apply Z.ltb_lt; lia).
           simpl andb. cbv iota. rewrite Z.sub_diag.
           rewrite aget_aset_eq by lia. reflexivity.
        -- replace (rb + 1 <=? i) with true by (symmetry; apply Z.leb_le; lia).
           replace (rb <=? i) with true by (symmetry; apply Z.leb_le; lia).
           simpl andb. destruct (i <? n).
           ++ unfold aget. replace (Z.to_nat (i - rb)) with (S (Z.to_nat (i - (rb + 1)))) by lia.
              reflexivity.
           ++ apply aget_aset_neq; lia.
      * apply Z.ltb_ge in E9. rewrite bind_eq. fold s2.
        assert (rb = 9) by lia. subst rb.
        destruct (IH 9 dest s2 ltac:(lia) Hlen) as (H1 & H2 & H3 & H4).
        simpl length.
        split; [exact H1|]. split; [rewrite H2; lia|]. split; [exact H3|].
        intros i Hi. rewrite (H4 i Hi).
        replace (Z.min 9 (9 + Z.of_nat (length (fst (drain fuel s2))))) with 9 by lia.
        replace (Z.min 9 (9 + Z.of_nat (S (length (fst (drain fuel s2)))))) with 9 by lia.
        replace ((9 <=? i) && (i <? 9)) with false; [reflexivity|].
        symmetry. apply andb_false_iff.
        destruct (Z.le_gt_cases 9 i); [right; apply Z.ltb_ge; lia|left; apply Z.leb_gt; lia].
Qed.

Lemma wait_first_byte_snd i s : snd (wait_first_byte i s) = snd (delay 2 s).
Proof.
  unfold wait_first_byte. rewrite !bind_eq. unfold gets; cbn [fst snd].
  destruct (negb (buffered_rcv (snd (delay 2 s)) =? 0)); [reflexivity|].
  destruct (i =? 4); reflexivity.
Qed.

Lemma wait_first_byte_false i s :
  fst (wait_first_byte i s) = Some false ->
  buffered_rcv (snd (wait_first_byte i s)) = 0.
Proof.
  rewrite wait_first_byte_snd.
  unfold wait_first_byte. rewrite !bind_eq. unfold gets; cbn [fst snd].
  destruct (buffered_rcv (snd (delay 2 s)) =? 0) eqn:E; simpl.
  - intros _. apply Z.eqb_eq; exact E.
  - discriminate.
Qed.

Lemma LIN_read_response_spec dest s :
  0 <= buffered_rcv s -> (9 <= length dest)%nat ->
  let r := LIN_read_response dest s in
  let got := fst (response_bytes s) in
  let n := fst (fst r) in
  let dest' := snd (fst r) in
  snd r = snd (response_bytes s) /\
  n = Z.min 9 (Z.of_nat (length got)) /\
  length dest' = length dest /\
  (forall i, 0 <= i -> aget dest' i = if i <? n then aget got i else aget dest i) /\
  buffered_rcv (snd r) = 0.
Proof.
  intros H0 Hlen. cbv zeta.
  unfold LIN_read_response, response_bytes.
  rewrite !bind_eq.
  set (w := fst (for_loop 5 0 wait_first_byte s)).
  set (s1 := snd (for_loop 5 0 wait_first_byte s)).
  assert (H1 : 0 <= buffered_rcv s1).
  { subst s1. revert H0.
    apply (for_loop_keeps (fun a b => 0 <= buffered_rcv a -> 0 <= buffered_rcv b)).
    - auto.
    - auto.
    - intros i s' H. rewrite wait_first_byte_snd. apply delay_budget, H. }
  assert (Hw : w = Some false -> buffered_rcv s1 = 0).
  { intros E. apply (for_loop_result (fun x s' => x = false -> buffered_rcv s' = 0)
                       wait_first_byte) with (n := 5%nat) (i := 0) (x := false).
    - intros i s' x Hx ->. apply wait_first_byte_false, Hx.
    - exact E.
    - reflexivity. }
  assert (Hd : forall i : Z, 0 <= i -> aget dest i = if i <? 0 then aget [] i else aget dest i).
  { intros i Hi. replace (i <? 0) with false by (symmetry; apply Z.ltb_ge; lia). reflexivity. }
  assert (Hgo :
    let r := (fuel <- gets rx_budget ;; read_loop fuel 0 dest) s1 in
    let got := fst ((fuel <- gets rx_budget ;; drain fuel) s1) in
    snd r = snd ((fuel <- gets rx_budget ;; drain fuel) s1) /\
    fst (fst r) = Z.min 9 (Z.of_nat (length got)) /\
    length (snd (fst r)) = length dest /\
    (forall i, 0 <= i -> aget (snd (fst r)) i
                         = if i <? fst (fst r) then aget got i else aget dest i) /\
    buffered_rcv (snd r) = 0).
  { cbv zeta. rewrite !bind_eq. unfold gets; cbn [fst snd].
    destruct (read_loop_drain (rx_budget s1) 0 dest s1 ltac:(lia) Hlen) as (A & B & C & D).
    split; [exact A|]. split; [rewrite B; f_equal|]. split; [exact C|]. split.
    - intros i Hi. rewrite (D i Hi), B. simpl Z.add.
      replace (0 <=? i) with true by (symmetry; apply Z.leb_le; lia).
      rewrite Z.sub_0_r. reflexivity.
    - rewrite A. apply drain_empties; [exact H1|lia]. }
  destruct w as [[|]|]; try exact Hgo.
  cbn [ret fst snd length]. repeat split; auto.
Qed.

(** C9: for every state of the receive ring buffer, [LIN_read_response]
    writes into its destination only at the indices below the count it
    returns, which is between 0 and 9, so never past index 8; the bytes
    stored are the first ones taken out of the receive buffer, in order.
    All bytes are taken out (the buffer is empty at the end); those after the
    ninth are neither stored nor counted. *)
Theorem LIN_read_response_bounded :
  forall dest s,
    0 <= buffered_rcv s -> (9 <= length dest)%nat ->
    let r := LIN_read_response dest s in
    let got := fst (response_bytes s) in
    let n := fst (fst r) in
    let dest' := snd (fst r) in
    0 <= n <= 9 /\
    n = Z.min 9 (Z.of_nat (length got)) /\
    length dest' = length dest /\
    (forall i, 0 <= i ->
       aget dest' i = if i <? n then aget got i else aget dest i) /\
    (forall i, 9 <= i -> aget dest' i = aget dest i) /\
    snd r = snd (response_bytes s) /\
    buffered_rcv (snd r) = 0.
Proof.
  intros dest s H0 Hlen.
  destruct (LIN_read_response_spec dest s H0 Hlen) as (A & B & C & D & E).
  cbv zeta. split; [lia|]. split; [exact B|]. split; [exact C|].
  split; [exact D|]. split; [|split; [exact A|exact E]].
  intros i Hi. rewrite D by lia.
  replace (i <? fst (fst (LIN_read_response dest s))) with false; [reflexivity|].
  symmetry. apply Z.ltb_ge. lia.
Qed.

Lemma LIN_read_response_bounded_witness :
  fst (LIN_read_response (repeat 0 9) (live_state long_response_env))
  = (9, [1; 2; 3; 4; 5; 6; 7; 8; 9]) /\
  fst (response_bytes (live_state long_response_env))
  = [1; 2; 3; 4; 5; 6; 7; 8; 9; 10; 11] /\
  buffered_rcv (snd (LIN_read_response (repeat 0 9)
                       (live_state long_response_env))) = 0.
Proof.
  assert (H0 : 0 <= buffered_rcv (live_state long_response_env))
    by (vm_compute; discriminate).
  assert (Hl : (9 <= length (repeat 0 9))%nat) by (simpl; lia).
  destruct (LIN_read_response_bounded (repeat 0 9)
              (live_state long_response_env) H0 Hl)
    as (_ & _ & _ & _ & _ & _ & E).
  split; [vm_compute; reflexivity|]. split; [vm_compute; reflexivity|exact E].
Defined.

(** ** Starting the inverter *)

Lemma classify_resp (o : obs) :
  good_resp o = negb (fst o <? 3) && negb (Z.land (aget (snd o) 1) 1 =? 0)
                && negb (Z.land (aget (snd o) 1) 2 =? 0) /\
  ack_only_resp o = negb (fst o <? 3) && negb (Z.land (aget (snd o) 1) 1 =? 0)
                    && (Z.land (aget (snd o) 1) 2 =? 0) /\
  ((fst o <? 3) = false -> some_resp o = true).
Proof.
  unfold good_resp, ack_only_resp, acked, pgood_set, some_resp.
  rewrite (Z.leb_antisym (fst o) 3).
  destruct (fst o <? 3) eqn:E; cbn [negb andb].
  - repeat split. discriminate.
  - split; [reflexivity|]. split.
    + rewrite negb_involutive. reflexivity.
    + intros _. apply Z.ltb_lt. apply Z.ltb_ge in E. lia.
Qed.

Lemma start_polls_seen n : forall no_resp PGOOD_fail s,
  start_polls n no_resp PGOOD_fail s =
  (let l := fst (polls_seen n s) in
   if existsb good_resp l then None
   else Some (no_resp && negb (existsb some_resp l),
              PGOOD_fail || existsb ack_only_resp l),
   snd (polls_seen n s)).
Proof.
  induction n as [|n IH]; intros nr pf s.
  - simpl. rewrite andb_true_r, orb_false_r. reflexivity.
  - simpl start_polls. simpl polls_seen. rewrite !(bind_eq status_poll).
    set (read := fst (status_poll s)). set (s1 := snd (status_poll s)).
    rewrite (bind_eq (gets resp_buff)). unfold gets; cbn [fst snd].
    set (resp := resp_buff s1).
    destruct (classify_resp (read, resp)) as (Hg & Ha & Hs). cbn [fst snd] in Hg, Ha, Hs.
    cbv zeta. rewrite Hg.
    destruct (read <? 3) eqn:E3; cbn [negb andb] in *.
    + rewrite bind_eq, IH. cbn [ret fst snd existsb]. rewrite Hg, Ha.
      change (some_resp (read, resp)) with (0 <? read); cbn [orb].
      destruct (existsb good_resp (fst (polls_seen n s1))); [reflexivity|].
      destruct (0 <? read); destruct nr; reflexivity.
    + specialize (Hs eq_refl). unfold some_resp in Hs; cbn [fst] in Hs. rewrite Hs.
      rewrite (bind_eq _ _ s1) at 1. cbn [fst snd]. fold resp.
      destruct (Z.land (aget resp 1) 1 =? 0) eqn:E1; cbn [negb andb] in *.
      * rewrite bind_eq, IH. cbn [ret fst snd existsb]. rewrite Hg, Ha.
        change (some_resp (read, resp)) with (0 <? read); cbn [orb]. rewrite Hs. cbn [orb negb].
        destruct (existsb good_resp (fst (polls_seen n s1))); [reflexivity|].
        rewrite andb_false_r. reflexivity.
      * destruct (Z.land (aget resp 1) 2 =? 0) eqn:E2; cbn [negb andb] in *.
        -- rewrite bind_eq, IH. cbn [ret fst snd existsb]. rewrite Hg, Ha.
           change (some_resp (read, resp)) with (0 <? read); cbn [orb]. rewrite Hs. cbn [orb negb].
           destruct (existsb good_resp (fst (polls_seen n s1))); [reflexivity|].
           rewrite andb_false_r, orb_true_r. destruct pf; reflexivity.
        -- cbn [ret fst snd existsb]. rewrite Hg. reflexivity.
Qed.

Lemma start_round_seen i s :
  let s1 := snd (start_command s) in
  let l := fst (polls_seen 10 s1) in
  let s2 := snd (polls_seen 10 s1) in
  start_round i s =
  if existsb good_resp l then (Some 0, s2)
  else if i =? 2 then (Some (final_code l), s2)
  else (None, snd (delay 250 s2)).
Proof.
  cbv zeta. unfold start_round, start_command.
  rewrite !(bind_eq (LIN_send_request 58)).
  rewrite !(bind_eq (LIN_send_data _ _ _)).
  rewrite (bind_eq (start_polls _ _ _)), start_polls_seen.
  generalize (polls_seen 10
                (snd (LIN_send_data power_on_data 2 (fst (LIN_send_request 58 s))
                        (snd (LIN_send_request 58 s))))).
  intros [l s2]. cbn [fst snd].
  destruct (existsb good_resp l); [reflexivity|].
  unfold final_code. cbn [andb orb].
  destruct (i =? 2).
  - destruct (negb (existsb some_resp l)); [reflexivity|].
    destruct (existsb ack_only_resp l); reflexivity.
  - rewrite bind_eq. reflexivity.
Qed.

Lemma rounds_seen_eq n s :
  rounds_seen (S n) s =
  let s1 := snd (start_command s) in
  let l := fst (polls_seen 10 s1) in
  let s2 := snd (polls_seen 10 s1) in
  if existsb good_resp l then ([l], s2)
  else match n with
       | O => ([l], s2)
       | S _ => (l :: fst (rounds_seen n (snd (delay 250 s2))),
                 snd (rounds_seen n (snd (delay 250 s2))))
       end.
Proof.
  cbv zeta. cbn [rounds_seen].
  rewrite (bind_eq start_command), (bind_eq (polls_seen 10)).
  generalize (polls_seen 10 (snd (start_command s))). intros [l s2].
  cbn [fst snd].
  destruct (existsb good_resp l); [reflexivity|].
  destruct n; [reflexivity|].
  rewrite bind_eq, bind_eq. reflexivity.
Qed.

Lemma start_rounds_seen s :
  for_loop 10 0 start_round s =
  (Some (start_code (fst (rounds_seen 3 s))), snd (rounds_seen 3 s)).
Proof.
  unfold start_code.
  (* first round *)
  rewrite rounds_seen_eq, for_loop_S, start_round_seen. cbv zeta.
  generalize (polls_seen 10 (snd (start_command s))). intros [l1 s1].
  cbn [fst snd].
  destruct (existsb good_resp l1) eqn:G1.
  { cbn [fst snd concat]. rewrite app_nil_r, G1. reflexivity. }
  change (0 =? 2) with false. cbn [fst snd].
  (* second round *)
  rewrite rounds_seen_eq, for_loop_S, start_round_seen. cbv zeta.
  generalize (polls_seen 10 (snd (start_command (snd (delay 250 s1))))).
  intros [l2 s2]. cbn [fst snd].
  destruct (existsb good_resp l2) eqn:G2.
  { cbn [fst snd concat]. rewrite app_nil_r, existsb_app, G1, G2. reflexivity. }
  change (0 + 1 =? 2) with false. cbn [fst snd].
  (* third round *)
  rewrite rounds_seen_eq, for_loop_S, start_round_seen. cbv zeta.
  generalize (polls_seen 10 (snd (start_command (snd (delay 250 s2))))).
  intros [l3 s3]. cbn [fst snd].
  change (0 + 1 + 1 =? 2) with true.
  destruct (existsb good_resp l3) eqn:G3.
  { cbn [fst snd concat]. rewrite app_nil_r, !existsb_app, G1, G2, G3. reflexivity. }
  cbn [fst snd concat nth]. rewrite app_nil_r, !existsb_app, G1, G2, G3.
  cbn [orb]. reflexivity.
Qed.

Lemma start_inverter_seen s :
  fst (start_wake s) = true ->
  start_inverter s = (start_code (fst (start_seen s)), snd (start_seen s)).
Proof.
  intros H. unfold start_inverter, start_seen. rewrite !(bind_eq start_wake), H.
  cbn [negb]. rewrite bind_eq, start_rounds_seen.
  generalize (rounds_seen 3 (snd (start_wake s))). intros [r s']. reflexivity.
Qed.

Lemma final_code_nonzero l : final_code l <> 0.
Proof.
  unfold final_code.
  destruct (negb (existsb some_resp l)); [discriminate|].
  destruct (existsb ack_only_resp l); discriminate.
Qed.

(** C3, amended: with the auxiliary rail present, [start_inverter] returns
    0 iff some poll brings a response of at least 3 bytes with byte 1 bits 0
    and 1 both set.  Otherwise it returns after the third round, and the
    polls of that third round alone give the code (the two flags start anew
    in every round): [RESP_ERROR] when none of them brought a response,
    [PGOOD_ERROR] when one brought a response with acknowledged set and
    power-good clear, [STARTUP_ERROR] otherwise. *)
Theorem start_inverter_outcome :
  forall s, fst (start_wake s) = true ->
    let rounds := fst (start_seen s) in
    let final := nth 2 rounds [] in
    snd (start_inverter s) = snd (start_seen s) /\
    (fst (start_inverter s) = 0 <->
     existsb good_resp (concat rounds) = true) /\
    (existsb good_resp (concat rounds) = false ->
     fst (start_inverter s) =
     if negb (existsb some_resp final) then RESP_ERROR
     else if existsb ack_only_resp final then PGOOD_ERROR
     else STARTUP_ERROR).
Proof.
  intros s H. cbv zeta. rewrite (start_inverter_seen s H). cbn [fst snd].
  unfold start_code.
  split; [reflexivity|]. split.
  - destruct (existsb good_resp (concat (fst (start_seen s)))).
    + split; reflexivity.
    + split; [|discriminate]. intros E. apply final_code_nonzero in E.
      destruct E.
  - intros ->. reflexivity.
Qed.

Lemma start_inverter_outcome_witness :
  fst (start_inverter (live_state fading_env)) = RESP_ERROR /\
  fst (start_inverter (live_state unmarked_env)) = 0.
Proof.
  assert (H1 : fst (start_wake (live_state fading_env)) = true) by reflexivity.
  assert (H2 : fst (start_wake (live_state unmarked_env)) = true)
    by reflexivity.
  destruct (start_inverter_outcome _ H1) as (_ & _ & A).
  destruct (start_inverter_outcome _ H2) as (_ & B & _).
  split.
  - rewrite A; vm_compute; reflexivity.
  - apply B. vm_compute. reflexivity.
Defined.

(** C3 as stated fails: a response with acknowledged set and power-good
    clear in the first round, followed by silence, ends in [RESP_ERROR],
    although a response was received and the claim asks for
    [PGOOD_ERROR]. *)
Lemma start_flags_are_per_round : ~ start_outcome_over_all_rounds.
Proof.
  intros H. specialize (H (live_state fading_env) eq_refl).
  vm_compute in H. discriminate H.
Qed.

Lemma stop_polls_unmarked n : forall cut_power s,
  unmarked n status_poll s ->
  fst (stop_polls n cut_power s) = StopPollsDone.
Proof.
  induction n as [|n IH]; intros cut s H.
  - reflexivity.
  - destruct H as (H3 & Hn). cbn [stop_polls].
    rewrite (bind_eq status_poll), (bind_eq (gets resp_buff)).
    unfold gets; cbn [fst snd].
    destruct (fst (status_poll s) <? 3); [apply IH, Hn|].
    replace (aget (resp_buff (snd (status_poll s))) 3 =? 255) with false
      by (symmetry; apply Z.eqb_neq; exact H3).
    cbn [negb]. apply IH, Hn.
Qed.

Lemma power_polls_unmarked n : forall power_sum s,
  unmarked n power_poll s ->
  fst (power_polls n power_sum s) = false.
Proof.
  induction n as [|n IH]; intros ps s H.
  - reflexivity.
  - destruct H as (H3 & Hn). cbn [power_polls].
    rewrite (bind_eq power_poll), (bind_eq (gets resp_buff)).
    unfold gets; cbn [fst snd]. unfold load_reading.
    replace (aget (resp_buff (snd (power_poll s))) 3 =? 255) with false
      by (symmetry; apply Z.eqb_neq; exact H3).
    cbn [negb]. rewrite !orb_true_r. cbn [negb]. apply IH, Hn.
Qed.

Lemma existsb_In {A} (f : A -> bool) l x : In x l -> f x = true -> existsb f l = true.
Proof. intros H1 H2. apply existsb_exists. exists x. auto. Qed.

(** C10, amended: [start_inverter] never looks at byte 3 of a status
    response.  A response of at least 3 bytes with byte 1 bits 0 and 1 set,
    at any poll and whatever its byte 3, makes it return 0 at once (in the
    state right after that poll).  A response of any length, even 1 or 2
    bytes, keeps the result from being [RESP_ERROR] when it comes in the
    third round, the last one: without a good response the result is
    [RESP_ERROR] iff no poll of the third round brought a byte (the flag
    [no_resp] starts anew in every round, so a response in an earlier round
    does not count).  By contrast the poll loop of [stop_inverter] and that
    of [enough_power_drawn] pass over every response that leaves byte 3 of
    the response buffer different from 0xFF: when no poll leaves the marker
    there, the first ends without a confirmation and the second reports no
    load. *)
Theorem start_ignores_marker :
  forall s, fst (start_wake s) = true ->
    let rounds := fst (start_seen s) in
    (forall o, In o (concat rounds) ->
       3 <= fst o ->
       Z.land (aget (snd o) 1) 1 <> 0 -> Z.land (aget (snd o) 1) 2 <> 0 ->
       start_inverter s = (0, snd (start_seen s))) /\
    (forall o, In o (nth 2 rounds []) -> 0 < fst o ->
       fst (start_inverter s) <> RESP_ERROR) /\
    (fst (start_inverter s) = RESP_ERROR <->
     existsb good_resp (concat rounds) = false /\
     existsb some_resp (nth 2 rounds []) = false) /\
    (forall n cut_power s', unmarked n status_poll s' ->
       fst (stop_polls n cut_power s') = StopPollsDone) /\
    (forall s', unmarked 10 power_poll s' ->
       fst (enough_power_drawn s') = false).
Proof.
  intros s H rounds.
  rewrite (start_inverter_seen s H). fold rounds. cbn [fst].
  split; [|split; [|split; [|split]]].
  - intros o Hin H3 H1 H2. f_equal. unfold start_code.
    rewrite (existsb_In good_resp _ o Hin); [reflexivity|].
    unfold good_resp, acked, pgood_set.
    replace (3 <=? fst o) with true by (symmetry; apply Z.leb_le; exact H3).
    apply Z.eqb_neq in H1, H2. rewrite H1, H2. reflexivity.
  - intros o Hin H0. unfold start_code.
    destruct (existsb good_resp (concat rounds)); [discriminate|].
    unfold final_code.
    rewrite (existsb_In some_resp _ o Hin);
      [|unfold some_resp; apply Z.ltb_lt; exact H0].
    cbn [negb]. destruct (existsb ack_only_resp _); discriminate.
  - unfold start_code.
    destruct (existsb good_resp (concat rounds)).
    + split; [discriminate|]. intros (E & _). discriminate E.
    + unfold final_code.
      destruct (existsb some_resp (nth 2 rounds [])); cbn [negb].
      * split; [|intros (_ & E); discriminate E].
        destruct (existsb ack_only_resp _); discriminate.
      * split; [intros _; split; reflexivity|reflexivity].
  - intros n cut s'. apply stop_polls_unmarked.
  - intros s'. apply power_polls_unmarked.
Qed.

Lemma start_ignores_marker_witness :
  start_inverter (live_state unmarked_env)
  = (0, snd (start_seen (live_state unmarked_env))) /\
  aget (resp_buff (snd (start_inverter (live_state unmarked_env)))) 3 = 0 /\
  fst (start_inverter (live_state late_byte_env)) <> RESP_ERROR /\
  fst (stop_polls 10 true (live_state unmarked_env)) = StopPollsDone /\
  fst (enough_power_drawn (live_state unmarked_env)) = false.
Proof.
  assert (H : fst (start_wake (live_state unmarked_env)) = true)
    by reflexivity.
  assert (H' : fst (start_wake (live_state late_byte_env)) = true)
    by reflexivity.
  destruct (start_ignores_marker _ H) as (A & _ & _ & C & D).
  destruct (start_ignores_marker _ H') as (_ & B & _).
  split; [|split; [vm_compute; reflexivity|split; [|split]]].
  - apply (A (3, [0; 3; 0; 0; 0; 0; 0; 0; 0])).
    + vm_compute. left. reflexivity.
    + simpl; lia.
    + vm_compute; discriminate.
    + vm_compute; discriminate.
  - apply (B (1, [7; 0; 0; 0; 0; 0; 0; 0; 0])).
    + vm_compute. left. reflexivity.
    + simpl; lia.
  - apply C. vm_compute. repeat split; discriminate.
  - apply D. vm_compute. repeat split; discriminate.
Defined.

(** C10 as stated fails: a single byte in answer to the first status
    request of the first round, followed by silence, ends in [RESP_ERROR],
    although a response of one byte was received. *)
Lemma short_response_counts_per_round : ~ any_response_excludes_resp_error.
Proof.
  intros H.
  apply (H (live_state early_byte_env) eq_refl
           (1, [7; 0; 0; 0; 0; 0; 0; 0; 0])).
  - vm_compute. left. reflexivity.
  - simpl; lia.
  - vm_compute. reflexivity.
Qed.

(** ** Stopping the inverter *)

Lemma stop_polls_until n : forall cut_power s,
  stop_polls n cut_power s =
  let c := fst (polls_until_stop n s) in
  let s1 := snd (polls_until_stop n s) in
  if c then
    if cut_power then
      (if fst (cut_pulses 10 s1) then StopReturn else StopBreak,
       snd (cut_pulses 10 s1))
    else (StopReturn, s1)
  else (StopPollsDone, s1).
Proof.
  induction n as [|n IH]; intros cut s.
  - reflexivity.
  - cbn [stop_polls polls_until_stop]. cbv zeta.
    rewrite !(bind_eq status_poll), !(bind_eq (gets resp_buff)).
    unfold gets; cbn [fst snd].
    generalize (status_poll s). intros [read s1]. cbn [fst snd].
    unfold stop_confirmed.
    destruct (read <? 3); cbn [negb andb]; [apply IH|].
    destruct (aget (resp_buff s1) 3 =? 255); cbn [negb andb]; [|apply IH].
    destruct (Z.land (aget (resp_buff s1) 1) 1 =? 0); cbn [negb andb]; [|apply IH].
    destruct cut; cbn [negb ret fst snd]; [|reflexivity].
    rewrite bind_eq.
    generalize (cut_pulses 10 s1). intros [[|] s2]; reflexivity.
Qed.

Lemma stop_attempts_done n : forall cut_power s,
  stop_attempts n 4 cut_power s = (false, s).
Proof. intros cut s. destruct n; reflexivity. Qed.

Lemma stop_command_snd s :
  snd (stop_command s)
  = snd (LIN_send_data (skipn 1 power_on_data) 2 (fst (LIN_send_request 58 s))
           (snd (LIN_send_request 58 s))).
Proof. unfold stop_command. rewrite bind_eq. reflexivity. Qed.

Lemma stop_attempts_search n : forall i cut_power s,
  0 <= i -> i + Z.of_nat n = 3 ->
  stop_attempts n i cut_power s =
  let c := fst (stop_search n s) in
  let s1 := snd (stop_search n s) in
  if c then
    if cut_power then
      if fst (cut_pulses 10 s1) then (true, snd (cut_pulses 10 s1))
      else (false, snd (delay 250 (snd (cut_pulses 10 s1))))
    else (true, s1)
  else (false, s1).
Proof.
  induction n as [|n IH]; intros i cut s Hi Hn.
  - reflexivity.
  - cbn [stop_attempts stop_search]. cbv zeta.
    replace (i <? 3) with true by (symmetry; apply Z.ltb_lt; lia).
    rewrite (bind_eq (LIN_send_request 58)), (bind_eq (LIN_send_data _ _ _)).
    rewrite (bind_eq stop_command), <- stop_command_snd.
    rewrite (bind_eq (stop_polls 10 cut)), (bind_eq (polls_until_stop 10)).
    rewrite stop_polls_until. cbv zeta.
    generalize (polls_until_stop 10 (snd (stop_command s))).
    intros [c s1]. cbn [fst snd].
    destruct c; cbn [ret fst snd].
    + destruct cut; [|reflexivity].
      generalize (cut_pulses 10 s1). intros [[|] s2]; cbn [fst snd].
      * reflexivity.
      * rewrite bind_eq. apply stop_attempts_done.
    + cbn [fst snd]. rewrite !(bind_eq (delay 250)).
      apply IH; lia.
Qed.

Lemma act_out a s : out (snd (act a s)) = out s ++ [a] /\
                    world (snd (act a s)) = world s.
Proof. split; reflexivity. Qed.

Lemma read_POW_5V_spec s :
  fst (read_POW_5V s) = POW_5V_in (world s) 0%nat /\
  POW_5V_in (world (snd (read_POW_5V s))) = tl_stream (POW_5V_in (world s)) /\
  out (snd (read_POW_5V s)) = out s.
Proof. repeat split. Qed.

Lemma delay_POW ms s :
  out (snd (delay ms s)) = out s ++ [ADelay ms] /\
  POW_5V_in (world (snd (delay ms s))) = POW_5V_in (world s).
Proof.
  destruct (delay_out ms s) as (H1 & _ & H3). split; [exact H1|].
  unfold pins in H3. congruence.
Qed.

Lemma pulses_S n : pulses (S n) = [AEnOv true; ADelay 100; AEnOv false] ++ pulses n.
Proof. reflexivity. Qed.

Lemma cut_pulses_out n : forall s,
  let rail := POW_5V_in (world s) in
  let r := cut_pulses n s in
  match first_low n rail with
  | Some k => fst r = true /\ out (snd r) = out s ++ pulses (S k)
  | None =>
      fst r = false /\ out (snd r) = out s ++ pulses n /\
      (forall j, POW_5V_in (world (snd r)) j = rail (n + j)%nat)
  end.
Proof.
  induction n as [|n IH]; intros s; cbv zeta.
  - simpl. rewrite app_nil_r. repeat split.
  - cbn [cut_pulses first_low].
    rewrite (bind_eq (act _)).
    set (s1 := snd (act (AEnOv true) s)).
    rewrite (bind_eq (delay 100)).
    set (s2 := snd (delay 100 s1)).
    rewrite (bind_eq (act _)).
    set (s3 := snd (act (AEnOv false) s2)).
    rewrite (bind_eq read_POW_5V).
    set (s4 := snd (read_POW_5V s3)).
    assert (O4 : out s4 = out s ++ [AEnOv true; ADelay 100; AEnOv false]).
    { subst s4 s3 s2 s1.
      rewrite (proj2 (proj2 (read_POW_5V_spec _))).
      rewrite (proj1 (act_out _ _)), (proj1 (delay_POW _ _)), (proj1 (act_out _ _)).
      rewrite <- !app_assoc. reflexivity. }
    assert (P3 : POW_5V_in (world s3) = POW_5V_in (world s)).
    { subst s3 s2 s1.
      rewrite (proj2 (act_out _ _)), (proj2 (delay_POW _ _)), (proj2 (act_out _ _)).
      reflexivity. }
    assert (P4 : POW_5V_in (world s4) = tl_stream (POW_5V_in (world s))).
    { subst s4. rewrite (proj1 (proj2 (read_POW_5V_spec _))), P3. reflexivity. }
    rewrite (proj1 (read_POW_5V_spec s3)), P3.
    clearbody s4. clear s1 s2 s3 P3.
    destruct (POW_5V_in (world s) 0%nat) eqn:E0; cbn [negb].
    + specialize (IH s4). cbv zeta in IH. rewrite P4 in IH.
      destruct (first_low n (tl_stream (POW_5V_in (world s)))) as [k|]; cbn [option_map].
      * destruct IH as (A & B). split; [exact A|].
        rewrite B, O4, <- app_assoc. reflexivity.
      * destruct IH as (A & B & C). split; [exact A|]. split.
        -- rewrite B, O4, <- app_assoc. reflexivity.
        -- intros j. rewrite C. reflexivity.
    + cbn [ret fst snd]. split; [reflexivity|].
      rewrite O4. cbn [pulses repeat concat]. rewrite app_nil_r. reflexivity.
Qed.

Lemma first_low_ext n : forall f g,
  (forall j, f j = g j) -> first_low n f = first_low n g.
Proof.
  induction n as [|n IH]; intros f g H; [reflexivity|].
  cbn [first_low]. rewrite (H 0%nat).
  rewrite (IH (tl_stream f) (tl_stream g)); [reflexivity|].
  intros j; apply H.
Qed.

Lemma stop_wait_out n : forall s,
  out (snd (stop_wait n s))
  = out s ++ repeat (ADelay 1000) (wait_len n (POW_5V_in (world s))).
Proof.
  unfold wait_len.
  induction n as [|n IH]; intros s.
  - simpl. rewrite app_nil_r. reflexivity.
  - cbn [stop_wait first_low].
    rewrite (bind_eq (delay 1000)), (bind_eq read_POW_5V).
    destruct (delay_POW 1000 s) as (O1 & P1).
    set (s1 := snd (delay 1000 s)) in *.
    destruct (read_POW_5V_spec s1) as (V2 & P2 & O2).
    set (s2 := snd (read_POW_5V s1)) in *.
    rewrite V2, P1. clearbody s2 s1.
    destruct (POW_5V_in (world s) 0%nat); cbn [negb].
    + rewrite IH, P2, P1, O2, O1.
      destruct (first_low n (tl_stream (POW_5V_in (world s)))); cbn [option_map];
        rewrite <- app_assoc; reflexivity.
    + cbn [ret snd]. rewrite O2, O1. reflexivity.
Qed.

Lemma stop_inverter_unconfirmed s sc cut_power :
  POW_5V_in (world s) 0%nat = true ->
  stop_search 3 (snd (read_POW_5V s)) = (false, sc) ->
  out (snd (stop_inverter cut_power s))
  = out sc ++ repeat (ADelay 1000) (wait_len 10 (POW_5V_in (world sc))).
Proof.
  intros Hp Hc.
  unfold stop_inverter. rewrite !(bind_eq read_POW_5V).
  rewrite (proj1 (read_POW_5V_spec s)), Hp. cbn [negb].
  rewrite !(bind_eq (stop_attempts _ _ _)).
  rewrite !(stop_attempts_search 3 0 _ (snd (read_POW_5V s))) by lia. cbv zeta.
  rewrite Hc. cbn [fst snd ret]. apply stop_wait_out.
Qed.

Lemma stop_inverter_confirmed s sc :
  POW_5V_in (world s) 0%nat = true ->
  stop_search 3 (snd (read_POW_5V s)) = (true, sc) ->
  out (snd (stop_inverter true s))
  = out sc ++ after_confirmation (POW_5V_in (world sc)) /\
  snd (stop_inverter false s) = sc.
Proof.
  intros Hp Hc.
  unfold stop_inverter. rewrite !(bind_eq read_POW_5V).
  rewrite (proj1 (read_POW_5V_spec s)), Hp. cbn [negb].
  rewrite !(bind_eq (stop_attempts _ _ _)).
  rewrite !(stop_attempts_search 3 0 _ (snd (read_POW_5V s))) by lia. cbv zeta.
  rewrite Hc. cbn [fst snd ret]. split; [|reflexivity].
  pose proof (cut_pulses_out 10 sc) as P. cbv zeta in P.
  pose proof (stop_wait_out 10 (snd (delay 250 (snd (cut_pulses 10 sc))))) as W.
  destruct (delay_POW 250 (snd (cut_pulses 10 sc))) as (O1 & P1).
  revert P W O1 P1.
  generalize (cut_pulses 10 sc). intros [d s2]. cbn [fst snd].
  intros P W O1 P1.
  unfold after_confirmation.
  destruct (first_low 10 (POW_5V_in (world sc))) as [k|].
  - destruct P as (A & B). rewrite A. cbn [fst snd ret]. exact B.
  - destruct P as (A & B & C). rewrite A. cbn [fst snd].
    rewrite W, O1, B, <- !app_assoc. do 3 f_equal.
    unfold wait_len. rewrite P1.
    rewrite (first_low_ext 10 _ (fun j => POW_5V_in (world sc) (10 + j)%nat) C).
    reflexivity.
Qed.

(** C4, amended: when [stop_inverter(true)] gets a stop confirmation (at
    least 3 bytes, byte 3 = 0xFF, byte 1 bit 0 clear), it pulses the
    power-cut output up to 10 times, 100 ms each, and returns as soon as the
    rail reads low after a pulse.  When the rail has not dropped after the
    ten pulses it leaves the attempt loop, waits 250 ms and then does the
    same wait as without a confirmation: up to ten times 1 s, returning as
    soon as the rail reads low.  ([stop_inverter(false)] returns right after
    the confirmation; without any confirmation in the three attempts only
    the wait of up to ten times 1 s is done.) *)
Theorem stop_inverter_after_confirmation :
  forall s,
    POW_5V_in (world s) 0%nat = true ->
    let s0 := snd (read_POW_5V s) in
    let sc := snd (stop_search 3 s0) in
    (fst (stop_search 3 s0) = true ->
     out (snd (stop_inverter true s))
     = out sc ++ after_confirmation (POW_5V_in (world sc)) /\
     snd (stop_inverter false s) = sc) /\
    (fst (stop_search 3 s0) = false ->
     forall cut_power,
       out (snd (stop_inverter cut_power s))
       = out sc ++ repeat (ADelay 1000) (wait_len 10 (POW_5V_in (world sc)))).
Proof.
  intros s Hp. cbv zeta.
  generalize (stop_inverter_confirmed s) (stop_inverter_unconfirmed s).
  generalize (stop_search 3 (snd (read_POW_5V s))). intros [c sc] H1 H2.
  cbn [fst snd]. split.
  - intros ->. apply H1; [exact Hp|reflexivity].
  - intros -> cut. apply H2; [exact Hp|reflexivity].
Qed.

Lemma stop_inverter_after_confirmation_witness :
  skipn 45 (out (snd (stop_inverter true (live_state stuck_rail_env))))
  = ADelay 250 :: repeat (ADelay 1000) 10.
Proof.
  assert (Hp : POW_5V_in (world (live_state stuck_rail_env)) 0%nat = true)
    by reflexivity.
  assert (Hc : fst (stop_search 3 (snd (read_POW_5V (live_state stuck_rail_env))))
               = true)
    by (vm_compute; reflexivity).
  destruct (stop_inverter_after_confirmation _ Hp) as (A & _).
  destruct (A Hc) as (B & _).
  rewrite B. vm_compute. reflexivity.
Defined.

(** C4 as stated fails: with a rail that never drops, the ten pulses are
    followed by 250 ms and ten waits of 1 s. *)
Lemma stop_waits_after_pulses : ~ stop_no_further_wait.
Proof.
  intros H.
  apply (H (live_state stuck_rail_env)).
  - reflexivity.
  - vm_compute; reflexivity.
  - vm_compute; reflexivity.
  - vm_compute. tauto.
Qed.

(** ** The control loop *)

Lemma no_load_branch_batt c s :
  low_batt_counter (fst (no_load_branch c s)) = low_batt_counter c.
Proof.
  unfold no_load_branch.
  destruct (60 <=? no_load_counter c).
  - mstep. generalize (snd (stop_inverter true s)). intros s1.
    mstep. reflexivity.
  - mstep. generalize (snd (stop_inverter false s)). intros s1.
    mstep. generalize (snd (wait_if_plugged 18 s1)). intros s2.
    mstep. reflexivity.
Qed.

Lemma load_branch_batt c : low_batt_counter (load_branch c) = low_batt_counter c.
Proof.
  unfold load_branch. destruct (0 <? no_load_counter c); [|reflexivity].
  destruct (prev_was_load c); reflexivity.
Qed.

Lemma main_iter_good c s :
  fst (is_power_good s) = true ->
  exists c', fst (main_iter c s) = Some c' /\ low_batt_counter c' = 0.
Proof.
  intros H. unfold main_iter. mstep. rewrite H. cbn [negb].
  generalize (snd (is_power_good s)). intros s1.
  mstep. generalize (anything_plugged s1). intros [plugged s2]. cbn [fst snd].
  destruct plugged.
  - mstep. generalize (start_inverter s2). intros [status s3]. cbn [fst snd].
    destruct (negb (status =? 0)).
    + mstep. generalize (snd (stop_inverter true s3)). intros s4.
      mstep. generalize (snd (show_error status s4)). intros s5.
      mstep. eexists; split; reflexivity.
    + cbn [drawn_power_detect prev_was_load].
      destruct (drawn_power_detect c); [|eexists; split; reflexivity].
      mstep.
      generalize (snd ((if negb (prev_was_load c) then delay 200 else ret tt) s3)).
      intros s4. mstep.
      generalize (enough_power_drawn s4). intros [load s5]. cbn [fst snd].
      destruct (negb load).
      * mstep. eexists; split; [reflexivity|]. apply no_load_branch_batt.
      * eexists; split; [reflexivity|]. apply load_branch_batt.
  - mstep. generalize (snd (stop_inverter true s2)). intros s3.
    mstep. generalize (snd (UART_INT_DIS s3)). intros s4.
    mstep. generalize (snd (ENTER_IDLE s4)). intros s5.
    mstep. eexists; split; reflexivity.
Qed.

Lemma main_iter_low c s :
  fst (is_power_good s) = false ->
  let n := b8 (low_batt_counter c + 1) in
  (5 <= n -> fst (main_iter c s) = None /\
             last (out (snd (main_iter c s))) (ADelay 0) = APowerDown) /\
  (n < 5 -> exists c', fst (main_iter c s) = Some c' /\ low_batt_counter c' = n).
Proof.
  intros H. cbv zeta. unfold main_iter. mstep. rewrite H. cbn [negb].
  generalize (snd (is_power_good s)). intros s1.
  mstep. generalize (snd (stop_inverter true s1)). intros s2.
  mstep. generalize (snd (delay 250 s2)). intros s3.
  mstep. generalize (snd (show_error LOW_BATT_ERR s3)). intros s4.
  split.
  - intros H5. replace (5 <=? b8 (low_batt_counter c + 1)) with true
      by (symmetry; apply Z.leb_le; exact H5).
    mstep. mstep. split; [reflexivity|].
    unfold act, modify; cbn [fst snd out set_out]. apply last_last.
  - intros H5. replace (5 <=? b8 (low_batt_counter c + 1)) with false
      by (symmetry; apply Z.leb_gt; exact H5).
    mstep. eexists; split; reflexivity.
Qed.

Lemma main_trace_batt n : forall c s k,
  low_batt_counter c = Z.of_nat k -> (k < 5)%nat ->
  let l := fst (main_trace n c s) in
  (forall m, (m < length l)%nat -> (count_lows k (firstn m l) < 5)%nat) /\
  match snd (main_trace n c s) with
  | Some (c', s') =>
      low_batt_counter c' = Z.of_nat (count_lows k l) /\
      (count_lows k l < 5)%nat /\ length l = n /\
      main_loop n c s = (Some c', s')
  | None =>
      count_lows k l = 5%nat /\
      fst (main_loop n c s) = None /\
      last (out (snd (main_loop n c s))) (ADelay 0) = APowerDown
  end.
Proof.
  induction n as [|n IH]; intros c s k Hc Hk; cbv zeta.
  - cbn. split; [intros m Hm; lia|]. repeat split; auto.
  - cbn [main_trace main_loop]. rewrite (bind_eq (main_iter c)).
    destruct (fst (is_power_good s)) eqn:G.
    + destruct (main_iter_good c s G) as (c' & E & Z0).
      revert E. generalize (main_iter c s). intros [r s'] E.
      cbn [fst snd] in E. subst r.
      specialize (IH c' s' 0%nat Z0 ltac:(lia)). cbv zeta in IH.
      revert IH. generalize (main_trace n c' s'). intros [l r] (P & IH).
      cbn [fst snd] in *. split.
      * intros [|m] Hm; [simpl; lia|]. cbn [firstn count_lows fold_left].
        apply P. cbn [length] in Hm. lia.
      * destruct r as [[c'' s'']|]; cbn [count_lows fold_left length];
          unfold count_lows in IH.
        -- destruct IH as (A & B & C & D). repeat split; auto.
        -- exact IH.
    + destruct (main_iter_low c s G) as (Hhalt & Hgo).
      assert (Hb : b8 (low_batt_counter c + 1) = Z.of_nat (S k))
        by (rewrite Hc; unfold b8; rewrite Z.mod_small; lia).
      rewrite Hb in Hhalt, Hgo.
      destruct (Nat.eq_dec k 4) as [K4|K4].
      * destruct (Hhalt ltac:(lia)) as (E & L).
        revert E L. generalize (main_iter c s). intros [r s'] E L.
        cbn [fst snd] in E, L. subst r. cbn [fst snd ret].
        split.
        -- intros [|m] Hm; [simpl; lia|]. cbn [length] in Hm. lia.
        -- cbn [count_lows fold_left]. subst k. repeat split; auto.
      * destruct (Hgo ltac:(lia)) as (c' & E & Z0).
        revert E. generalize (main_iter c s). intros [r s'] E.
        cbn [fst snd] in E. subst r.
        specialize (IH c' s' (S k) Z0 ltac:(lia)). cbv zeta in IH.
        revert IH. generalize (main_trace n c' s'). intros [l r] (P & IH).
        cbn [fst snd] in *. split.
        -- intros [|m] Hm; [simpl; lia|]. cbn [firstn count_lows fold_left].
           apply P. cbn [length] in Hm. lia.
        -- destruct r as [[c'' s'']|]; cbn [count_lows fold_left length];
             unfold count_lows in IH.
           ++ destruct IH as (A & B & C & D). repeat split; auto.
           ++ exact IH.
Qed.

(** C7: the control loop enters the permanent shutdown (power-down, from
    which nothing returns) exactly in the 5th round in a row in which
    [is_power_good] returns false: while the loop runs, [low_batt_counter]
    is the number of such rounds in a row and is below 5, and the loop stops
    in the round that makes it 5, its last action being the power-down.  A
    round in which [is_power_good] returns true sets [low_batt_counter] to
    0, and [main] starts its loop with 0. *)
Theorem low_battery_shutdown :
  forall n c s,
    low_batt_counter c = 0 ->
    let l := fst (main_trace n c s) in
    (forall m, (m < length l)%nat -> (count_lows 0 (firstn m l) < 5)%nat) /\
    match snd (main_trace n c s) with
    | Some (c', s') =>
        low_batt_counter c' = Z.of_nat (count_lows 0 l) /\
        (count_lows 0 l < 5)%nat /\ length l = n /\
        main_loop n c s = (Some c', s')
    | None =>
        count_lows 0 l = 5%nat /\
        fst (main_loop n c s) = None /\
        last (out (snd (main_loop n c s))) (ADelay 0) = APowerDown
    end /\
    (forall c1 s1, fst (is_power_good s1) = true ->
       exists c', fst (main_iter c1 s1) = Some c' /\ low_batt_counter c' = 0) /\
    (forall s0, low_batt_counter (fst (main_init s0)) = 0).
Proof.
  intros n c s Hc.
  destruct (main_trace_batt n c s 0%nat Hc ltac:(lia)) as (A & B).
  split; [exact A|]. split; [exact B|]. split.
  - intros c1 s1. apply main_iter_good.
  - intros s0. unfold main_init. repeat mstep. reflexivity.
Qed.

Lemma low_battery_shutdown_witness :
  fst (main_loop 5 (mkCtl 0 false 0 true) (live_state dead_battery_env)) = None /\
  fst (main_loop 4 (mkCtl 0 false 0 true) (live_state dead_battery_env))
  = Some (mkCtl 0 false 4 true).
Proof.
  assert (Hc : low_batt_counter (mkCtl 0 false 0 true) = 0) by reflexivity.
  destruct (low_battery_shutdown 5 _ (live_state dead_battery_env) Hc)
    as (_ & H5 & _ & _).
  destruct (low_battery_shutdown 4 _ (live_state dead_battery_env) Hc)
    as (_ & H4 & _ & _).
  split.
  - destruct (snd (main_trace 5 (mkCtl 0 false 0 true)
                     (live_state dead_battery_env))) as [[c' s']|] eqn:E;
      [vm_compute in E; discriminate E|]. apply H5.
  - assert (E' : option_map fst
                   (snd (main_trace 4 (mkCtl 0 false 0 true)
                           (live_state dead_battery_env)))
                 = Some (mkCtl 0 false 4 true)) by (vm_compute; reflexivity).
    destruct (snd (main_trace 4 (mkCtl 0 false 0 true)
                     (live_state dead_battery_env))) as [[c' s']|];
      [|discriminate E'].
    destruct H4 as (_ & _ & _ & ->). cbn [fst]. cbn in E'. exact E'.
Defined.

(** ** The no-load check *)

Lemma only_delays_refl s : only_delays s s.
Proof. exists []. simpl. rewrite app_nil_r. reflexivity. Qed.

Lemma only_delays_trans a b c :
  only_delays a b -> only_delays b c -> only_delays a c.
Proof.
  intros (l1 & H1) (l2 & H2). exists (l1 ++ l2).
  rewrite H2, H1, map_app, app_assoc. reflexivity.
Qed.

Lemma only_delays_same s s' : out s' = out s -> only_delays s s'.
Proof. intros H. exists []. simpl. rewrite app_nil_r. exact H. Qed.

Lemma Delays_ret {A} (a : A) : Delays (ret a).
Proof. intros s. apply only_delays_refl. Qed.

Lemma Delays_gets {A} (f : state -> A) : Delays (gets f).
Proof. intros s. apply only_delays_refl. Qed.

Lemma Delays_modify f : (forall s, out (f s) = out s) -> Delays (modify f).
Proof. intros H s. apply only_delays_same, H. Qed.

Lemma Delays_bind {A B} (m : M A) (f : A -> M B) :
  Delays m -> (forall a, Delays (f a)) -> Delays (bind m f).
Proof.
  intros Hm Hf s. rewrite bind_eq.
  eapply only_delays_trans; [apply Hm|apply Hf].
Qed.

Lemma Delays_delay ms : Delays (delay ms).
Proof.
  intros s. exists [ms]. apply (proj1 (delay_out ms s)).
Qed.

Lemma Delays_for_loop {R} n i (body : Z -> M (option R)) :
  (forall i, Delays (body i)) -> Delays (for_loop n i body).
Proof.
  intros H s. apply for_loop_keeps.
  - apply only_delays_refl.
  - apply only_delays_trans.
  - intros j s'. apply H.
Qed.

Create HintDb delays.
#[local] Hint Resolve Delays_ret Delays_gets Delays_delay : delays.

Ltac delays :=
  repeat first
    [ apply Delays_ret
    | apply Delays_gets
    | apply Delays_delay
    | solve [auto with delays]
    | apply Delays_bind; [|intros ?]
    | apply Delays_for_loop; intros ?
    | apply Delays_modify; intros ?; reflexivity
    | match goal with
      | |- Delays (if ?b then _ else _) => destruct b
      | |- Delays (match ?x with _ => _ end) => destruct x
      | |- Delays (let '(_, _) := ?x in _) => destruct x
      end ].

Lemma Delays_sei : Delays sei.
Proof.
  apply Delays_modify. intros s.
  rewrite (proj1 (irq_steady (set_EA true s))). reflexivity.
Qed.

Lemma Delays_wait_TI : Delays wait_TI.
Proof.
  apply Delays_modify. intros s. destruct (TI s); [reflexivity|].
  apply (proj1 (pass_time_steady s)).
Qed.
#[local] Hint Resolve Delays_sei Delays_wait_TI : delays.

Lemma Delays_UART_send b : Delays (UART_send b).
Proof. unfold UART_send, cli. delays. Qed.

Lemma Delays_UART_read : Delays UART_read.
Proof. unfold UART_read, cli. delays. Qed.
#[local] Hint Resolve Delays_UART_send Delays_UART_read : delays.

Lemma Delays_LIN_send_request ID : Delays (LIN_send_request ID).
Proof. unfold LIN_send_request. delays. Qed.

Lemma Delays_send_bytes n : forall i data c, Delays (send_bytes n i data c).
Proof. induction n as [|n IH]; intros i data c; cbn [send_bytes]; delays. Qed.
#[local] Hint Resolve Delays_LIN_send_request Delays_send_bytes : delays.

Lemma Delays_LIN_send_data data len ID_word : Delays (LIN_send_data data len ID_word).
Proof. unfold LIN_send_data. delays. Qed.

Lemma Delays_read_loop fuel : forall rb dest, Delays (read_loop fuel rb dest).
Proof.
  induction fuel as [|fuel IH]; intros rb dest; cbn [read_loop]; delays.
Qed.
#[local] Hint Resolve Delays_LIN_send_data Delays_read_loop : delays.

Lemma Delays_LIN_read_response dest : Delays (LIN_read_response dest).
Proof. unfold LIN_read_response, wait_first_byte. delays. Qed.
#[local] Hint Resolve Delays_LIN_read_response : delays.

Lemma Delays_read_resp_buff : Delays read_resp_buff.
Proof. unfold read_resp_buff. delays. Qed.
#[local] Hint Resolve Delays_read_resp_buff : delays.

Lemma Delays_status_poll : Delays status_poll.
Proof. unfold status_poll. delays. Qed.

Lemma Delays_read_POW_5V : Delays read_POW_5V.
Proof. intros s. apply only_delays_same. reflexivity. Qed.

Lemma Delays_read_PLUG : Delays read_PLUG.
Proof. intros s. apply only_delays_same. reflexivity. Qed.
#[local] Hint Resolve Delays_status_poll Delays_read_POW_5V Delays_read_PLUG : delays.

Lemma Delays_stop_polls n : Delays (stop_polls n false).
Proof. induction n as [|n IH]; cbn [stop_polls]; delays. Qed.
#[local] Hint Resolve Delays_stop_polls : delays.

Lemma Delays_stop_attempts n : forall i, Delays (stop_attempts n i false).
Proof. induction n as [|n IH]; intros i; cbn [stop_attempts]; delays. Qed.

Lemma Delays_stop_wait n : Delays (stop_wait n).
Proof. induction n as [|n IH]; cbn [stop_wait]; delays. Qed.
#[local] Hint Resolve Delays_stop_attempts Delays_stop_wait : delays.

Lemma Delays_stop_inverter : Delays (stop_inverter false).
Proof. unfold stop_inverter. delays. Qed.

Lemma Delays_anything_plugged : Delays anything_plugged.
Proof. unfold anything_plugged. delays. Qed.
#[local] Hint Resolve Delays_stop_inverter Delays_anything_plugged : delays.

Lemma Delays_wait_if_plugged n : Delays (wait_if_plugged n).
Proof. unfold wait_if_plugged. delays. Qed.

Lemma LIN_wakeup_out s :
  out (snd (LIN_wakeup s)) = out s ++ wakeup_actions.
Proof.
  unfold LIN_wakeup. repeat rewrite bind_eq.
  repeat first [rewrite (proj1 (delay_out _ _)) | rewrite (proj1 (act_out _ _))].
  rewrite <- !app_assoc. reflexivity.
Qed.

Lemma not_in_delays a l : (forall ms, a <> ADelay ms) -> ~ In a (map ADelay l).
Proof.
  intros H Hin. apply in_map_iff in Hin. destruct Hin as (ms & E & _).
  apply (H ms). symmetry. exact E.
Qed.

Lemma no_load_branch_eq c s :
  no_load_counter c < 60 ->
  no_load_branch c s =
  (mkCtl (b8 (no_load_counter c + 1)) false (low_batt_counter c)
         (drawn_power_detect c),
   snd (no_load_body (b8 (no_load_counter c + 1)) s)).
Proof.
  intros H. unfold no_load_branch, no_load_body.
  replace (60 <=? no_load_counter c) with false by (symmetry; apply Z.leb_gt; lia).
  rewrite !(bind_eq (stop_inverter false)).
  generalize (snd (stop_inverter false s)). intros s1.
  rewrite !(bind_eq (wait_if_plugged 18)).
  generalize (snd (wait_if_plugged 18 s1)). intros s2.
  rewrite bind_eq. reflexivity.
Qed.

Lemma no_load_body_out n s :
  exists tr, out (snd (no_load_body n s)) = out s ++ tr /\
             (In (ATx false) tr <-> 20 <= n).
Proof.
  unfold no_load_body. rewrite !bind_eq.
  destruct (Delays_stop_inverter s) as (l1 & H1).
  revert H1. generalize (snd (stop_inverter false s)). intros s1 H1.
  destruct (Delays_wait_if_plugged 18 s1) as (l2 & H2).
  revert H2. generalize (snd (wait_if_plugged 18 s1)). intros s2 H2.
  destruct (20 <=? n) eqn:E.
  - apply Z.leb_le in E. rewrite bind_eq.
    pose proof (LIN_wakeup_out s2) as H3.
    revert H3. generalize (snd (LIN_wakeup s2)). intros s3 H3.
    destruct (Delays_wait_if_plugged 30 s3) as (l4 & H4).
    exists (map ADelay l1 ++ map ADelay l2 ++ wakeup_actions ++ map ADelay l4).
    split.
    + rewrite H4, H3, H2, H1, <- !app_assoc. reflexivity.
    + split; [intros _; exact E|]. intros _.
      apply in_or_app; right. apply in_or_app; right. apply in_or_app; left.
      simpl. tauto.
  - apply Z.leb_gt in E. cbn [ret snd].
    exists (map ADelay (l1 ++ l2)). split.
    + rewrite H2, H1, map_app, <- app_assoc. reflexivity.
    + split; [|lia]. intros Hin. exfalso. revert Hin.
      apply not_in_delays. discriminate.
Qed.

Lemma main_iter_no_load c s s5 :
  no_load_check_state c s = Some s5 ->
  drawn_power_detect c = true /\
  main_iter c s =
  (Some (fst (no_load_branch (mkCtl (no_load_counter c) (prev_was_load c) 0
                                    (drawn_power_detect c)) s5)),
   snd (no_load_branch (mkCtl (no_load_counter c) (prev_was_load c) 0
                              (drawn_power_detect c)) s5)).
Proof.
  unfold no_load_check_state, main_iter.
  rewrite (bind_eq is_power_good).
  generalize (is_power_good s). intros [good s1]. cbn [fst snd].
  destruct good; cbn [negb]; [|discriminate].
  rewrite (bind_eq anything_plugged).
  generalize (anything_plugged s1). intros [plugged s2]. cbn [fst snd].
  destruct plugged; cbn [negb]; [|discriminate].
  rewrite (bind_eq start_inverter).
  generalize (start_inverter s2). intros [status s3]. cbn [fst snd].
  destruct (negb (status =? 0)); [discriminate|].
  cbn [drawn_power_detect prev_was_load].
  destruct (drawn_power_detect c); cbn [negb]; [|discriminate].
  rewrite bind_eq.
  generalize (snd ((if negb (prev_was_load c) then delay 200 else ret tt) s3)).
  intros s4. rewrite (bind_eq enough_power_drawn).
  generalize (enough_power_drawn s4). intros [load s6]. cbn [fst snd].
  destruct load; cbn [negb]; [discriminate|].
  intros E. inversion E; subst s6. split; [reflexivity|].
  rewrite bind_eq. reflexivity.
Qed.

Lemma main_iter_no_load_body c s s5 :
  no_load_check_state c s = Some s5 ->
  0 <= no_load_counter c < 60 ->
  main_iter c s
  = (Some (mkCtl (no_load_counter c + 1) false 0 true),
     snd (no_load_body (no_load_counter c + 1) s5)).
Proof.
  intros E Hn.
  destruct (main_iter_no_load c s s5 E) as (D & ->).
  rewrite no_load_branch_eq by (cbn; lia).
  cbn [fst snd no_load_counter low_batt_counter drawn_power_detect].
  replace (b8 (no_load_counter c + 1)) with (no_load_counter c + 1)
    by (unfold b8; symmetry; apply Z.mod_small; lia).
  rewrite D. reflexivity.
Qed.

(** C5, amended: in drawn-power-detect mode, on a no-load check with
    [no_load_counter] below 60, the control loop soft-stops
    ([stop_inverter(false)]), increments [no_load_counter], waits while
    plugged ([wait_if_plugged(18)]), and, on every check on which the
    incremented counter is at least 20, gives the wake-up pulse again and
    waits once more ([wait_if_plugged(30)]); below 20 it gives no wake-up
    pulse. *)
Theorem no_load_check :
  forall c s s5,
    no_load_check_state c s = Some s5 ->
    0 <= no_load_counter c < 60 ->
    let n := no_load_counter c + 1 in
    main_iter c s = (Some (mkCtl n false 0 true), snd (no_load_body n s5)) /\
    exists tr, out (snd (main_iter c s)) = out s5 ++ tr /\
               (In (ATx false) tr <-> 20 <= n).
Proof.
  intros c s s5 E Hn. cbv zeta.
  rewrite (main_iter_no_load_body c s s5 E Hn).
  split; [reflexivity|]. apply no_load_body_out.
Qed.

Lemma no_load_check_witness :
  fst (main_iter (mkCtl 20 false 0 true) (live_state idle_load_env))
  = Some (mkCtl 21 false 0 true).
Proof.
  destruct (no_load_check_state (mkCtl 20 false 0 true)
              (live_state idle_load_env)) as [s5|] eqn:E;
    [|vm_compute in E; discriminate E].
  assert (Hn : 0 <= no_load_counter (mkCtl 20 false 0 true) < 60)
    by (simpl; lia).
  destruct (no_load_check _ _ s5 E Hn) as (H & _).
  rewrite H. reflexivity.
Defined.

(** C5 as stated fails: on the 21st no-load check in a row (counter 20
    before the check) the wake-up pulse is given, and 21 is no multiple of
    20. *)
Lemma wakeup_on_21st_check : ~ wakeup_every_20th.
Proof.
  intros H.
  destruct (no_load_check_state (mkCtl 20 false 0 true)
              (live_state idle_load_env)) as [s5|] eqn:E;
    [|vm_compute in E; discriminate E].
  assert (Hn : 0 <= no_load_counter (mkCtl 20 false 0 true) < 60)
    by (simpl; lia).
  destruct (no_load_body_out 21 s5) as (tr & Ho & Hw).
  assert (Ho' : out (snd (main_iter (mkCtl 20 false 0 true)
                            (live_state idle_load_env))) = out s5 ++ tr)
    by (rewrite (main_iter_no_load_body _ _ s5 E Hn); exact Ho).
  specialize (H _ _ s5 E Hn tr Ho').
  assert (Hin : In (ATx false) tr) by (apply Hw; lia).
  apply H in Hin. vm_compute in Hin. discriminate Hin.
Qed.

Ltac splits := repeat match goal with |- _ /\ _ => split end.

(** ** Memory and interrupt invariants *)

Lemma mem_frame_refl s : mem_frame s s.
Proof. intros H. split; [exact H|]. split; [reflexivity|]. split; [reflexivity|]. auto. Qed.

Lemma mem_frame_trans a b c : mem_frame a b -> mem_frame b c -> mem_frame a c.
Proof.
  intros H1 H2 Ha. destruct (H1 Ha) as (Hb & E1 & E2 & F1).
  destruct (H2 Hb) as (Hc & E3 & E4 & F2).
  split; [exact Hc|]. split; [congruence|]. split; [congruence|].
  intros A B C D. destruct (F1 A B C D) as (C' & D').
  apply F2; congruence.
Qed.

Lemma mem_frame_same s s' :
  rcv s' = rcv s -> tr s' = tr s -> resp_buff s' = resp_buff s ->
  EA s' = EA s -> ES s' = ES s -> RI s' = RI s -> TI s' = TI s ->
  mem_frame s s'.
Proof.
  intros E1 E2 E3 E4 E5 E6 E7 (A & B & C).
  split; [unfold mem_ok; rewrite E1, E2, E3; auto|].
  split; [exact E4|]. split; [exact E5|]. intros _ _ F G. split; congruence.
Qed.

(** The interrupt handler keeps the memory in order and lowers both flags. *)
Lemma ISR_mem s :
  mem_ok s ->
  mem_ok (UART_ISR s) /\ EA (UART_ISR s) = EA s /\ ES (UART_ISR s) = ES s /\
  RI (UART_ISR s) = false /\ TI (UART_ISR s) = false.
Proof.
  intros (Hr & Ht & Hl). unfold UART_ISR.
  set (s1 := if RI s then _ else s).
  assert (E1 : ring_wf (rcv s1) /\ tr s1 = tr s /\ resp_buff s1 = resp_buff s /\
               EA s1 = EA s /\ ES s1 = ES s /\ RI s1 = false /\ TI s1 = TI s).
  { subst s1. destruct (RI s) eqn:ER.
    - split; [apply enqueue_step, Hr|]. cbn. auto 10.
    - auto 10. }
  destruct E1 as (Hr1 & Et & Eb & Ea & Ee & Eri & Eti). clearbody s1.
  destruct (TI s1) eqn:ET.
  - cbn zeta.
    destruct (take_step (tr s1)) as (W & _); [rewrite Et; exact Ht|].
    change (tr (set_TI false s1)) with (tr s1).
    destruct (tr_dequeue (tr s1)) as [[b|] r]; cbn in W |- *.
    + unfold mem_ok; cbn. rewrite Eb. auto 10.
    + unfold mem_ok; cbn. rewrite Et, Eb. auto 10.
  - unfold mem_ok. rewrite Et, Eb. auto 10.
Qed.

Lemma irq_mem s :
  mem_ok s ->
  mem_ok (irq s) /\ EA (irq s) = EA s /\ ES (irq s) = ES s /\
  (EA s = true -> ES s = true -> RI (irq s) = false /\ TI (irq s) = false).
Proof.
  intros H. unfold irq.
  destruct (EA s && ES s && (RI s || TI s)) eqn:E.
  - destruct (ISR_mem s H) as (A & B & C & D & F). auto 10.
  - split; [exact H|]. split; [reflexivity|]. split; [reflexivity|].
    intros Ha He. rewrite Ha, He in E. cbn in E.
    apply orb_false_iff in E. exact E.
Qed.

Lemma hw_step_mem s e :
  mem_ok s ->
  mem_ok (hw_step s e) /\ EA (hw_step s e) = EA s /\ ES (hw_step s e) = ES s /\
  (EA s = true -> ES s = true ->
   RI (hw_step s e) = false /\ TI (hw_step s e) = false).
Proof.
  intros H. destruct e as [b|]; cbn [hw_step].
  - apply (irq_mem (set_SBUF_in b (set_RI true s))). exact H.
  - apply (irq_mem (set_TI true s)). exact H.
Qed.

Lemma hw_steps_mem evs : forall s, mem_frame s (fold_left hw_step evs s).
Proof.
  induction evs as [|e t IH]; intros s; cbn [fold_left].
  - apply mem_frame_refl.
  - eapply mem_frame_trans; [|apply IH].
    intros H. destruct (hw_step_mem s e H) as (A & B & C & D).
    split; [exact A|]. split; [exact B|]. split; [exact C|]. auto.
Qed.

Lemma pass_time_mem s : mem_frame s (pass_time s).
Proof.
  unfold pass_time. destruct (uart_in (world s)).
  - apply mem_frame_refl.
  - eapply mem_frame_trans; [|apply hw_steps_mem].
    apply mem_frame_same; reflexivity.
Qed.

Lemma delay_mem ms s : mem_frame s (snd (delay ms s)).
Proof.
  unfold delay, bind, act, modify; cbn [fst snd].
  eapply mem_frame_trans; [|apply pass_time_mem].
  apply mem_frame_same; reflexivity.
Qed.

Lemma frame_settled s s' : mem_frame s s' -> settled s -> settled s'.
Proof.
  intros F (M & A & B & C & D). destruct (F M) as (M' & A' & B' & G).
  destruct (G A B C D) as (C' & D').
  split; [exact M'|]. split; [congruence|]. split; [congruence|]. auto.
Qed.

(** Every critical section is closed: [UART_send] returns with the memory
    in order, interrupts enabled and nothing pending. *)
Lemma UART_send_settled b s : settled s -> settled (snd (UART_send b s)).
Proof.
  intros ((Hr & Ht & Hl) & A & B & C & D). rewrite UART_send_eq.
  apply (frame_settled _ _ (delay_mem 1 _)).
  set (s1 := set_tr (tr_enqueue b (tr s)) (set_EA false s)).
  assert (M1 : mem_ok s1 /\ ES s1 = true).
  { subst s1. split; [|exact B]. split; [exact Hr|]. split; [|exact Hl].
    cbn. rewrite tr_enqueue_eq. apply enqueue_step, Ht. }
  destruct M1 as (M1 & B1). clearbody s1.
  assert (M2 : mem_ok (send_arm s1) /\ ES (send_arm s1) = true).
  { unfold send_arm. destruct (negb (tr_armed s1)); [split; [exact M1|exact B1]|].
    destruct (buffered_tr s1 =? TR_BUFF_SIZE); [|auto].
    destruct (TI s1); [auto|].
    destruct (pass_time_mem s1 M1) as (M' & _ & E' & _).
    split; [exact M'|congruence]. }
  destruct M2 as (M2 & B2). generalize dependent (send_arm s1). intros s2 M2 B2.
  destruct (irq_mem (set_EA true s2) M2) as (M3 & A3 & B3 & F3).
  destruct (F3 eq_refl B2) as (C3 & D3).
  split; [exact M3|]. split; [exact A3|]. split; [rewrite B3; exact B2|]. auto.
Qed.

Lemma UART_read_settled s : settled s -> settled (snd (UART_read s)).
Proof.
  intros ((Hr & Ht & Hl) & A & B & C & D). rewrite UART_read_eq. cbn [snd].
  set (s1 := set_EA true _).
  assert (M1 : mem_ok s1 /\ ES s1 = true).
  { subst s1. split; [|exact B]. split; [|split; [exact Ht|exact Hl]].
    cbn. apply dequeue_step, Hr. }
  destruct M1 as (M1 & B1).
  assert (A1 : EA s1 = true) by reflexivity. clearbody s1.
  destruct (irq_mem s1 M1) as (M3 & A3 & B3 & F3).
  destruct (F3 A1 B1) as (C3 & D3).
  split; [exact M3|]. split; [congruence|]. split; [congruence|]. auto.
Qed.

Lemma Keeps_ret {A} (a : A) : Keeps (ret a).
Proof. intros s H. exact H. Qed.

Lemma Keeps_gets {A} (f : state -> A) : Keeps (gets f).
Proof. intros s H. exact H. Qed.

Lemma Keeps_bind {A B} (m : M A) (f : A -> M B) :
  Keeps m -> (forall a, Keeps (f a)) -> Keeps (bind m f).
Proof. intros Hm Hf s H. rewrite bind_eq. apply Hf, Hm, H. Qed.

Lemma Keeps_modify f :
  (forall s, mem_frame s (f s)) -> Keeps (modify f).
Proof. intros H s. apply frame_settled, H. Qed.

Lemma Keeps_delay ms : Keeps (delay ms).
Proof. intros s. apply frame_settled, delay_mem. Qed.

Lemma Keeps_act a : Keeps (act a).
Proof. apply Keeps_modify. intros s. apply mem_frame_same; reflexivity. Qed.

Lemma Keeps_for_loop {R} n i (body : Z -> M (option R)) :
  (forall i, Keeps (body i)) -> Keeps (for_loop n i body).
Proof.
  intros H s.
  apply (for_loop_keeps (fun a b => settled a -> settled b)); auto.
Qed.

Lemma Keeps_UART_send b : Keeps (UART_send b).
Proof. intros s. apply UART_send_settled. Qed.

Lemma Keeps_UART_read : Keeps UART_read.
Proof. intros s. apply UART_read_settled. Qed.

Lemma Keeps_read_POW_5V : Keeps read_POW_5V.
Proof. intros s. apply frame_settled, mem_frame_same; reflexivity. Qed.

Lemma Keeps_read_P_GOOD : Keeps read_P_GOOD.
Proof. intros s. apply frame_settled, mem_frame_same; reflexivity. Qed.

Lemma Keeps_read_PLUG : Keeps read_PLUG.
Proof. intros s. apply frame_settled, mem_frame_same; reflexivity. Qed.

Create HintDb keeps.
#[local] Hint Resolve Keeps_ret Keeps_gets Keeps_delay Keeps_act Keeps_UART_send
  Keeps_UART_read Keeps_read_POW_5V Keeps_read_P_GOOD Keeps_read_PLUG : keeps.

Ltac keeps :=
  repeat first
    [ solve [auto with keeps]
    | apply Keeps_for_loop; intros ?
    | apply Keeps_bind; [|intros ?]
    | apply Keeps_modify; intros ?; apply mem_frame_same; reflexivity
    | match goal with
      | |- Keeps (if ?b then _ else _) => destruct b
      | |- Keeps (match ?x with _ => _ end) => destruct x
      | |- Keeps (let '(_, _) := ?x in _) => destruct x
      end ].

Lemma Keeps_LIN_wakeup : Keeps LIN_wakeup.
Proof. unfold LIN_wakeup. keeps. Qed.

Lemma Keeps_LIN_send_request ID : Keeps (LIN_send_request ID).
Proof. unfold LIN_send_request. keeps. Qed.

Lemma Keeps_send_bytes n : forall i data c, Keeps (send_bytes n i data c).
Proof. induction n as [|n IH]; intros i data c; cbn [send_bytes]; keeps. Qed.
#[local] Hint Resolve Keeps_LIN_wakeup Keeps_LIN_send_request Keeps_send_bytes : keeps.

Lemma Keeps_LIN_send_data data len ID_word : Keeps (LIN_send_data data len ID_word).
Proof. unfold LIN_send_data. keeps. Qed.

(** [LIN_read_response] never changes the length of its destination. *)
Lemma read_loop_length fuel : forall rb dest s,
  length (snd (fst (read_loop fuel rb dest s))) = length dest.
Proof.
  induction fuel as [|fuel IH]; intros rb dest s; cbn [read_loop].
  - reflexivity.
  - rewrite bind_eq. unfold gets at 1 2; cbn [fst snd].
    destruct (buffered_rcv s =? 0); [reflexivity|].
    rewrite bind_eq. generalize (UART_read s). intros [x s1]. cbn [fst snd].
    destruct (rb <? 9); rewrite bind_eq, IH; [apply length_aset|reflexivity].
Qed.

Lemma LIN_read_response_length dest s :
  length (snd (fst (LIN_read_response dest s))) = length dest.
Proof.
  unfold LIN_read_response. rewrite bind_eq.
  generalize (for_loop 5 0 wait_first_byte s). intros [w s1]. cbn [fst snd].
  destruct w as [[|]|]; try reflexivity;
    rewrite bind_eq; apply read_loop_length.
Qed.

Lemma Keeps_read_loop fuel : forall rb dest, Keeps (read_loop fuel rb dest).
Proof.
  induction fuel as [|fuel IH]; intros rb dest; cbn [read_loop]; keeps.
Qed.
#[local] Hint Resolve Keeps_LIN_send_data Keeps_read_loop : keeps.

Lemma Keeps_LIN_read_response dest : Keeps (LIN_read_response dest).
Proof. unfold LIN_read_response, wait_first_byte. keeps. Qed.

Lemma Keeps_read_resp_buff : Keeps read_resp_buff.
Proof.
  intros s H. unfold read_resp_buff. rewrite bind_eq. unfold gets at 1 2.
  cbn [fst snd]. rewrite bind_eq.
  pose proof (LIN_read_response_length (resp_buff s) s) as L.
  pose proof (Keeps_LIN_read_response (resp_buff s) s H) as K.
  revert L K. generalize (LIN_read_response (resp_buff s) s).
  intros [[n d] s1]. cbn [fst snd]. intros L K.
  rewrite bind_eq. cbn [modify ret fst snd].
  destruct K as ((Hr & Ht & Hl) & A & B & C & D).
  destruct H as ((_ & _ & Hl0) & _).
  split; [|auto]. split; [exact Hr|]. split; [exact Ht|]. cbn. congruence.
Qed.
#[local] Hint Resolve Keeps_LIN_read_response Keeps_read_resp_buff : keeps.

Lemma Keeps_status_poll : Keeps status_poll.
Proof. unfold status_poll. keeps. Qed.

Lemma Keeps_power_poll : Keeps power_poll.
Proof. unfold power_poll. keeps. Qed.
#[local] Hint Resolve Keeps_status_poll Keeps_power_poll : keeps.

Lemma Keeps_power_good_loop n : forall u, Keeps (power_good_loop n u).
Proof. induction n as [|n IH]; intros u; cbn [power_good_loop]; keeps. Qed.

Lemma Keeps_anything_plugged : Keeps anything_plugged.
Proof. unfold anything_plugged. keeps. Qed.
#[local] Hint Resolve Keeps_power_good_loop Keeps_anything_plugged : keeps.

Lemma Keeps_start_polls n : forall a b, Keeps (start_polls n a b).
Proof. induction n as [|n IH]; intros a b; cbn [start_polls]; keeps. Qed.
#[local] Hint Resolve Keeps_start_polls : keeps.

Lemma Keeps_start_inverter : Keeps start_inverter.
Proof. unfold start_inverter, start_wake, start_round. keeps. Qed.

Lemma Keeps_cut_pulses n : Keeps (cut_pulses n).
Proof. induction n as [|n IH]; cbn [cut_pulses]; keeps. Qed.
#[local] Hint Resolve Keeps_start_inverter Keeps_cut_pulses : keeps.

Lemma Keeps_stop_polls n : forall cut, Keeps (stop_polls n cut).
Proof. induction n as [|n IH]; intros cut; cbn [stop_polls]; keeps. Qed.
#[local] Hint Resolve Keeps_stop_polls : keeps.

Lemma Keeps_stop_attempts n : forall i cut, Keeps (stop_attempts n i cut).
Proof. induction n as [|n IH]; intros i cut; cbn [stop_attempts]; keeps. Qed.

Lemma Keeps_stop_wait n : Keeps (stop_wait n).
Proof. induction n as [|n IH]; cbn [stop_wait]; keeps. Qed.
#[local] Hint Resolve Keeps_stop_attempts Keeps_stop_wait : keeps.

Lemma Keeps_stop_inverter cut : Keeps (stop_inverter cut).
Proof. unfold stop_inverter. keeps. Qed.

Lemma Keeps_power_polls n : forall ps, Keeps (power_polls n ps).
Proof. induction n as [|n IH]; intros ps; cbn [power_polls]; keeps. Qed.
#[local] Hint Resolve Keeps_stop_inverter Keeps_power_polls : keeps.

Lemma Keeps_wait_if_plugged n : Keeps (wait_if_plugged n).
Proof. unfold wait_if_plugged. keeps. Qed.

Lemma Keeps_blink n : forall e, Keeps (blink n e).
Proof. induction n as [|n IH]; intros e; cbn [blink]; keeps. Qed.
#[local] Hint Resolve Keeps_wait_if_plugged Keeps_blink : keeps.

Lemma Keeps_show_error e : Keeps (show_error e).
Proof. unfold show_error. keeps. Qed.

Lemma Keeps_enough_power_drawn : Keeps enough_power_drawn.
Proof. unfold enough_power_drawn. keeps. Qed.
#[local] Hint Resolve Keeps_show_error Keeps_enough_power_drawn : keeps.

Lemma Keeps_no_load_branch c : Keeps (no_load_branch c).
Proof. unfold no_load_branch. keeps. Qed.
#[local] Hint Resolve Keeps_no_load_branch : keeps.

(** The sleep of the loop: the serial interrupt is off while the processor
    sleeps, and is enabled again, with both flags cleared, afterwards. *)
Lemma sleep_settled s :
  settled s ->
  settled (snd (UART_INT_EN (snd (ENTER_IDLE (snd (UART_INT_DIS s)))))).
Proof.
  intros (M & A & B & C & D).
  unfold UART_INT_DIS, ENTER_IDLE, UART_INT_EN, bind, act, modify. cbn [fst snd].
  set (s1 := set_out _ _).
  assert (M1 : mem_ok s1 /\ EA s1 = true) by (subst s1; split; [exact M|exact A]).
  destruct M1 as (M1 & A1). clearbody s1.
  destruct (pass_time_mem s1 M1) as (M2 & A2 & _).
  split; [exact M2|]. cbn. rewrite A2. auto.
Qed.

Lemma Keeps_main_iter c : Keeps (main_iter c).
Proof.
  unfold main_iter.
  apply Keeps_bind; [unfold is_power_good; keeps|]. intros good.
  destruct (negb good); [keeps|].
  apply Keeps_bind; [keeps|]. intros plugged.
  destruct plugged; [keeps|].
  apply Keeps_bind; [keeps|]. intros _.
  intros s H. rewrite !bind_eq. cbn [ret snd]. apply sleep_settled, H.
Qed.

Lemma Keeps_main_loop n : forall c, Keeps (main_loop n c).
Proof.
  induction n as [|n IH]; intros c; cbn [main_loop].
  - apply Keeps_ret.
  - apply Keeps_bind; [apply Keeps_main_iter|]. intros [c'|]; [apply IH|apply Keeps_ret].
Qed.

Lemma reset_mem_ok w : mem_ok (reset_state w).
Proof. split; [apply empty_ring_wf|]. split; [apply empty_ring_wf|reflexivity]. Qed.

Lemma read_PLUG_mem s : mem_frame s (snd (read_PLUG s)).
Proof. apply mem_frame_same; reflexivity. Qed.

Lemma anything_plugged_mem s : mem_frame s (snd (anything_plugged s)).
Proof.
  unfold anything_plugged. rewrite bind_eq.
  destruct (negb (fst (read_PLUG s))); [apply read_PLUG_mem|].
  rewrite !bind_eq.
  eapply mem_frame_trans; [apply read_PLUG_mem|].
  eapply mem_frame_trans; [apply delay_mem|].
  destruct (negb _); apply read_PLUG_mem.
Qed.

Lemma frame_mem s s' : mem_frame s s' -> mem_ok s -> mem_ok s'.
Proof. intros F H. apply (F H). Qed.

Lemma boot_settled s :
  mem_ok s -> settled (snd (sei (snd (UART_INT_EN s)))).
Proof.
  intros M. unfold UART_INT_EN, sei, modify. cbn [fst snd].
  set (s4 := set_EA true _).
  assert (M4 : mem_ok s4 /\ EA s4 = true /\ ES s4 = true)
    by (subst s4; split; [exact M|auto]).
  destruct M4 as (M4 & A & B). clearbody s4.
  destruct (irq_mem s4 M4) as (M5 & A5 & B5 & F5).
  destruct (F5 A B) as (C5 & D5).
  split; [exact M5|]. split; [congruence|]. split; [congruence|]. auto.
Qed.

Lemma main_init_settled s : mem_ok s -> settled (snd (main_init s)).
Proof.
  intros M. unfold main_init. repeat mstep. cbn [ret snd].
  apply boot_settled.
  apply (frame_mem _ _ (anything_plugged_mem _)).
  apply (frame_mem _ _ (delay_mem _ _)).
  exact M.
Qed.


Lemma live_settled w : settled (live_state w).
Proof.
  split; [|auto].
  split; [apply empty_ring_wf|]. split; [apply empty_ring_wf|reflexivity].
Qed.

(** X1: the firmware keeps its memory in order and closes every critical
    section.  From reset, at the start of the loop of [main] and after every
    round of it, both ring buffers are well formed (array of 8 slots, count
    between 0 and 8, positions below 8 and consistent with the count), the
    response buffer has its 9 bytes, interrupts are enabled and no serial
    interrupt is pending; and [UART_send], [UART_read], [delay] and a whole
    round of the loop each keep this. *)
Theorem firmware_stays_settled :
  forall w n,
    let boot := main_init (reset_state w) in
    settled (snd boot) /\
    settled (snd (main_loop n (fst boot) (snd boot))) /\
    (forall s, settled s ->
       (forall b, settled (snd (UART_send b s))) /\
       settled (snd (UART_read s)) /\
       (forall ms, settled (snd (delay ms s))) /\
       (forall c, settled (snd (main_iter c s)))).
Proof.
  intros w n. cbv zeta.
  pose proof (main_init_settled (reset_state w) (reset_mem_ok w)) as H.
  split; [exact H|]. split; [apply Keeps_main_loop, H|].
  intros s Hs.
  split; [intros b; apply UART_send_settled, Hs|].
  split; [apply UART_read_settled, Hs|].
  split; [intros ms; apply Keeps_delay, Hs|].
  intros c. apply Keeps_main_iter, Hs.
Qed.

Lemma firmware_stays_settled_witness :
  settled (live_state still_env) /\
  settled (snd (UART_send 85 (live_state still_env))).
Proof.
  assert (H : settled (live_state still_env)) by apply live_settled.
  split; [exact H|].
  destruct (firmware_stays_settled still_env 0) as (_ & _ & K).
  destruct (K _ H) as (A & _). apply A.
Defined.

(** ** The transmit path, byte by byte *)













Lemma UART_send_txq b s :
  ring_wf (tr s) ->
  txq (snd (UART_send b s)) = txq s ++ (if count (tr s) <? 8 then [b] else []).
Proof.
  intros Hwf. destruct (count (tr s) <? 8) eqn:E.
  - apply Z.ltb_lt in E. apply (UART_send_tx b s Hwf). exact E.
  - rewrite app_nil_r, UART_send_eq.
    set (s1 := set_tr (tr_enqueue b (tr s)) (set_EA false s)).
    assert (H1 : ring_wf (tr s1) /\ txq s1 = txq s).
    { subst s1. unfold txq. cbn. unfold tr_enqueue.
      change TR_BUFF_SIZE with 8. rewrite E. auto. }
    destruct H1 as (W1 & Q1). clearbody s1.
    destruct (send_arm_tx s1) as ((_ & F2) & _).
    destruct (F2 W1) as (W2 & Q2 & _).
    generalize dependent (send_arm s1). intros s2 _ W2 Q2.
    destruct (irq_tx (set_EA true s2)) as (_ & F3).
    destruct (F3 W2) as (W3 & Q3 & _).
    generalize dependent (irq (set_EA true s2)). intros s3 _ W3 Q3.
    destruct (delay_tx 1 s3) as (_ & F4). destruct (F4 W3) as (_ & Q4 & _).
    rewrite Q4, Q3. change (txq (set_EA true s2)) with (txq s2).
    rewrite Q2. exact Q1.
Qed.

(** X3: [UART_send] queues its byte behind all bytes handed over before,
    unless the transmit buffer already holds 8 bytes: then the byte is
    dropped, and the bytes handed over before are all still sent, in order.
    In both cases the buffer stays well formed. *)
Theorem UART_send_queues_or_drops :
  forall b s, ring_wf (tr s) ->
    ring_wf (tr (snd (UART_send b s))) /\
    (count (tr s) < 8 -> txq (snd (UART_send b s)) = txq s ++ [b]) /\
    (count (tr s) = 8 -> txq (snd (UART_send b s)) = txq s).
Proof.
  intros b s Hwf. pose proof (UART_send_txq b s Hwf) as Q.
  split; [apply (UART_send_tx b s Hwf)|]. split; intros H.
  - rewrite Q. replace (count (tr s) <? 8) with true; [reflexivity|].
    symmetry. apply Z.ltb_lt. exact H.
  - rewrite Q, H. cbn. apply app_nil_r.
Qed.

Lemma UART_send_queues_or_drops_witness :
  txq (snd (UART_send 9 full_tr_state)) = [1; 2; 3; 4; 5; 6; 7; 8] /\
  txq (snd (UART_send 9 (live_state still_env))) = [9].
Proof.
  assert (H1 : ring_wf (tr full_tr_state))
    by (unfold ring_wf; cbn; repeat split; lia).
  assert (H2 : ring_wf (tr (live_state still_env))) by apply empty_ring_wf.
  destruct (UART_send_queues_or_drops 9 _ H1) as (_ & _ & A).
  destruct (UART_send_queues_or_drops 9 _ H2) as (_ & B & _).
  split.
  - rewrite A; [reflexivity|reflexivity].
  - rewrite B; [reflexivity|cbn; lia].
Defined.

(** ** The receive path, byte by byte *)

Lemma ISR_flags s :
  RI (UART_ISR s) = false /\ EA (UART_ISR s) = EA s /\ ES (UART_ISR s) = ES s /\
  world (UART_ISR s) = world s.
Proof.
  unfold UART_ISR.
  destruct (RI s) eqn:ER; cbn; (destruct (TI s); cbn;
    [destruct (tr_dequeue (tr s)) as [[b|] r]; cbn; auto|auto]).
Qed.

Lemma irq_idle s :
  RI s = false ->
  rcv (irq s) = rcv s /\ RI (irq s) = false /\ EA (irq s) = EA s /\
  ES (irq s) = ES s /\ world (irq s) = world s.
Proof.
  intros H. unfold irq. destruct (EA s && ES s && (RI s || TI s)); [|auto].
  destruct (ISR_flags s) as (A & B & C & D).
  rewrite ISR_receive, H. auto.
Qed.

Lemma hw_steps_idle evs : forall s,
  filter is_rx evs = [] -> RI s = false ->
  let s' := fold_left hw_step evs s in
  rcv s' = rcv s /\ RI s' = false /\ EA s' = EA s /\ ES s' = ES s /\
  world s' = world s.
Proof.
  induction evs as [|e t IH]; intros s Hf Hr; cbv zeta; cbn [fold_left].
  - auto.
  - destruct e as [b|]; cbn [filter is_rx] in Hf; [discriminate|].
    cbn [hw_step].
    destruct (irq_idle (set_TI true s) Hr) as (A & B & C & D & E).
    destruct (IH (irq (set_TI true s)) Hf B) as (A' & B' & C' & D' & E').
    rewrite A', C', D', E', A, C, D, E. auto.
Qed.

Lemma rx_pending_cons evs rest :
  rx_pending (evs :: rest) = 0%nat ->
  filter is_rx evs = [] /\ rx_pending rest = 0%nat.
Proof.
  unfold rx_pending. cbn [concat]. rewrite filter_app, length_app.
  intros H. split; [|lia].
  destruct (filter is_rx evs); [reflexivity|cbn in H; lia].
Qed.

Lemma pass_time_idle s :
  rx_quiet s ->
  rcv (pass_time s) = rcv s /\ rx_quiet (pass_time s) /\
  EA (pass_time s) = EA s /\ ES (pass_time s) = ES s.
Proof.
  intros (Hr & Hp). unfold pass_time.
  destruct (uart_in (world s)) as [|evs rest] eqn:Eu.
  - unfold rx_quiet. rewrite Eu. auto.
  - destruct (rx_pending_cons _ _ Hp) as (Hf & Hrest).
    set (s1 := set_world _ s).
    destruct (hw_steps_idle evs s1 Hf Hr) as (A & B & C & D & E).
    unfold rx_quiet. rewrite A, B, C, D, E. auto.
Qed.

Lemma delay_idle ms s :
  rx_quiet s ->
  rcv (snd (delay ms s)) = rcv s /\ rx_quiet (snd (delay ms s)) /\
  EA (snd (delay ms s)) = EA s /\ ES (snd (delay ms s)) = ES s.
Proof.
  intros H. unfold delay, bind, act, modify; cbn [fst snd].
  apply (pass_time_idle (set_out (out s ++ [ADelay ms]) s)). exact H.
Qed.

(** With interrupts enabled, the bytes of a span of time go into the
    receive buffer in their order, as far as it has room. *)
Lemma hw_steps_receive evs : forall s,
  EA s = true -> ES s = true -> RI s = false -> ring_wf (rcv s) ->
  let s' := fold_left hw_step evs s in
  ring_wf (rcv s') /\
  contents (rcv s')
  = fold_left (fun q b => fifo_enq b q) (rx_bytes evs) (contents (rcv s)) /\
  RI s' = false /\ EA s' = true /\ ES s' = true /\ world s' = world s.
Proof.
  induction evs as [|e t IH]; intros s Ha He Hr Hwf; cbv zeta; cbn [fold_left].
  - auto 10.
  - assert (K : ring_wf (rcv (hw_step s e)) /\
                contents (rcv (hw_step s e))
                = fold_left (fun q b => fifo_enq b q) (rx_bytes [e])
                            (contents (rcv s)) /\
                RI (hw_step s e) = false /\ EA (hw_step s e) = true /\
                ES (hw_step s e) = true /\ world (hw_step s e) = world s).
    { destruct e as [b|]; cbn [hw_step rx_bytes flat_map app fold_left].
      - unfold irq. cbn [EA ES RI set_SBUF_in set_RI]. rewrite Ha, He. cbn [andb orb].
        destruct (ISR_flags (set_SBUF_in b (set_RI true s))) as (A & B & C & D).
        rewrite ISR_receive. cbn [RI SBUF_in rcv set_SBUF_in set_RI].
        destruct (enqueue_step b (rcv s) Hwf) as (W & Q).
        rewrite A, B, C, D. cbn. auto 10.
      - destruct (irq_idle (set_TI true s) Hr) as (A & B & C & D & E).
        rewrite A, B, C, D, E. cbn. auto 10. }
    destruct K as (W & Q & R1 & A1 & E1 & W1).
    destruct (IH (hw_step s e) A1 E1 R1 W) as (W' & Q' & R' & A' & E' & Wd').
    split; [exact W'|]. split.
    + rewrite Q', Q. change (e :: t) with ([e] ++ t).
      unfold rx_bytes. rewrite flat_map_app, fold_left_app. reflexivity.
    + rewrite Wd', W1. auto.
Qed.

Lemma fifo_fill bs : forall q,
  (length q <= 8)%nat ->
  fold_left (fun q b => fifo_enq b q) bs q = q ++ firstn (8 - length q) bs.
Proof.
  induction bs as [|b t IH]; intros q H; cbn [fold_left].
  - rewrite firstn_nil, app_nil_r. reflexivity.
  - unfold fifo_enq at 2. destruct (length q <? 8)%nat eqn:E.
    + apply Nat.ltb_lt in E. rewrite IH by (rewrite length_app; cbn; lia).
      rewrite length_app. cbn [length].
      replace (8 - length q)%nat with (S (8 - (length q + 1))) by lia.
      cbn [firstn]. rewrite <- app_assoc. reflexivity.
    + apply Nat.ltb_ge in E. rewrite IH by lia.
      replace (8 - length q)%nat with 0%nat by lia. reflexivity.
Qed.

(** On a quiet bus the [while] loop of [LIN_read_response] takes out what
    the receive buffer holds, oldest byte first. *)
Lemma drain_quiet fuel : forall s,
  ring_wf (rcv s) -> rx_quiet s -> (length (contents (rcv s)) <= fuel)%nat ->
  fst (drain fuel s) = contents (rcv s).
Proof.
  induction fuel as [|fuel IH]; intros s Hwf Hq Hf.
  - destruct (contents (rcv s)); [reflexivity|cbn in Hf; lia].
  - cbn [drain]. rewrite bind_eq. unfold gets at 1 2; cbn [fst snd].
    pose proof (count_contents _ Hwf) as Hc. unfold buffered_rcv.
    destruct (count (rcv s) =? 0) eqn:E.
    + apply Z.eqb_eq in E. destruct (contents (rcv s)); [reflexivity|cbn in Hc; lia].
    + apply Z.eqb_neq in E. rewrite bind_eq, UART_read_eq. cbn [fst snd].
      destruct (dequeue_step (rcv s) Hwf) as (W & D).
      set (x := fst (rcv_dequeue (rcv s))) in *.
      set (r' := snd (rcv_dequeue (rcv s))) in *.
      assert (Hx : contents (rcv s) = x :: contents r').
      { destruct (contents (rcv s)) as [|h tl];
          [cbn in Hc; lia|cbn in D; inversion D; reflexivity]. }
      clearbody x r'.
      set (s1 := set_EA true (set_rcv r' (set_EA false s))).
      assert (H1 : rcv s1 = r' /\ rx_quiet s1) by (subst s1; split; [reflexivity|exact Hq]).
      destruct H1 as (R1 & Q1). clearbody s1.
      destruct (irq_idle s1 (proj1 Q1)) as (A & B & _ & _ & Wd).
      assert (Q2 : rx_quiet (irq s1)) by (unfold rx_quiet; rewrite B, Wd; split; [reflexivity|apply Q1]).
      generalize dependent (irq s1). intros s2 A _ _ Q2.
      rewrite !bind_eq. cbn [ret fst].
      destruct (delay_idle 1 s2 Q2) as (A3 & Q3 & _).
      rewrite IH.
      * rewrite A3, A, R1, Hx. reflexivity.
      * rewrite A3, A, R1. exact W.
      * exact Q3.
      * rewrite A3, A, R1. rewrite Hx in Hf. cbn in Hf. lia.
Qed.

Lemma wait_first_byte_eq i s :
  wait_first_byte i s =
  (if negb (buffered_rcv (snd (delay 2 s)) =? 0) then Some true
   else if i =? 4 then Some false else None,
   snd (delay 2 s)).
Proof.
  unfold wait_first_byte. rewrite !bind_eq. unfold gets; cbn [fst snd].
  destruct (negb (buffered_rcv (snd (delay 2 s)) =? 0)); [reflexivity|].
  destruct (i =? 4); reflexivity.
Qed.

(** On a quiet bus with nothing buffered the first loop of
    [LIN_read_response] runs to its end. *)
Lemma silent_wait n : forall i s,
  rx_quiet s -> count (rcv s) = 0 -> i + Z.of_nat n = 5 -> (0 < n)%nat ->
  let r := for_loop n i wait_first_byte s in
  fst r = Some false /\ out (snd r) = out s ++ repeat (ADelay 2) n /\
  resp_buff (snd r) = resp_buff s.
Proof.
  induction n as [|n IH]; intros i s Hq Hc Hi Hn; [lia|]. cbv zeta.
  rewrite for_loop_S, wait_first_byte_eq. cbn [fst snd].
  destruct (delay_idle 2 s Hq) as (A & Q & _).
  destruct (delay_out 2 s) as (O & B & _).
  generalize dependent (snd (delay 2 s)). intros s1 A Q O B.
  unfold buffered_rcv. rewrite A, Hc. cbn [Z.eqb negb].
  destruct (i =? 4) eqn:E.
  - apply Z.eqb_eq in E. assert (n = 0%nat) by lia. subst n.
    cbn [ret fst snd repeat]. auto.
  - apply Z.eqb_neq in E.
    destruct (IH (i + 1) s1 Q) as (F & O' & B'); [congruence|lia|lia|].
    split; [exact F|]. split; [|congruence].
    rewrite O', O, <- app_assoc. reflexivity.
Qed.

(** What [LIN_read_response] takes out of the receive
    buffer when the bytes of a response come in during its first wait. *)
Lemma response_bytes_burst s evs rest :
  ring_wf (rcv s) -> count (rcv s) = 0 ->
  EA s = true -> ES s = true -> RI s = false ->
  uart_in (world s) = evs :: rest -> rx_pending rest = 0%nat ->
  fst (response_bytes s) = firstn 8 (rx_bytes evs).
Proof.
  intros Hwf Hc Ha He Hr Hu Hrest.
  unfold response_bytes. rewrite bind_eq.
  change 5%nat with (S 4). rewrite for_loop_S, wait_first_byte_eq.
  cbn [fst snd].
  (* the first wait *)
  assert (K : let s1 := snd (delay 2 s) in
              ring_wf (rcv s1) /\ contents (rcv s1) = firstn 8 (rx_bytes evs) /\
              rx_quiet s1).
  { cbv zeta. unfold delay, bind, act, modify; cbn [fst snd].
    unfold pass_time. cbn [world set_out]. rewrite Hu.
    set (s0 := set_world _ _).
    destruct (hw_steps_receive evs s0 Ha He Hr Hwf) as (W & Q & R & _ & _ & Wd).
    split; [exact W|]. split.
    - rewrite Q. change (rcv s0) with (rcv s).
      assert (E : contents (rcv s) = []).
      { pose proof (length_contents (rcv s)) as L. rewrite Hc in L.
        destruct (contents (rcv s)); [reflexivity|discriminate L]. }
      rewrite E, fifo_fill by (cbn; lia). reflexivity.
    - unfold rx_quiet. rewrite R, Wd. split; [reflexivity|exact Hrest]. }
  cbv zeta in K. destruct K as (W1 & C1 & Q1).
  generalize dependent (snd (delay 2 s)). intros s1 W1 C1 Q1.
  pose proof (count_contents _ W1) as Hc1. unfold buffered_rcv.
  destruct (count (rcv s1) =? 0) eqn:E; cbn [negb].
  - apply Z.eqb_eq in E. change (0 =? 4) with false. cbn iota.
    destruct (silent_wait 4 (0 + 1) s1 Q1 E) as (F & _); [lia|lia|].
    revert F. generalize (for_loop 4 (0 + 1) wait_first_byte s1).
    intros [w s2] F. cbn [fst snd] in *. subst w. cbn [ret fst].
    rewrite <- C1. rewrite E in Hc1.
    destruct (contents (rcv s1)); [reflexivity|cbn in Hc1; lia].
  - cbn [ret fst snd]. rewrite bind_eq. unfold gets; cbn [fst snd].
    rewrite <- C1. apply drain_quiet; [exact W1|exact Q1|].
    unfold rx_budget, buffered_rcv. rewrite (proj1 Q1), (proj2 Q1).
    rewrite length_contents. lia.
Qed.

(** X4: a response that comes in during the first wait of
    [LIN_read_response] is delivered as received.  With the receive buffer
    empty, interrupts enabled and a bus that is quiet afterwards, the bytes
    received in that span of time, up to the 8 the ring buffer can hold, are
    stored in the destination in their order of arrival, from index 0 on;
    their number is returned, the rest of the destination is left as it was
    and the buffer is empty again. *)
Theorem LIN_read_response_delivers :
  forall dest s evs rest,
    (9 <= length dest)%nat ->
    ring_wf (rcv s) -> count (rcv s) = 0 ->
    EA s = true -> ES s = true -> RI s = false ->
    uart_in (world s) = evs :: rest -> rx_pending rest = 0%nat ->
    let got := firstn 8 (rx_bytes evs) in
    let r := LIN_read_response dest s in
    fst (fst r) = Z.of_nat (length got) /\
    length (snd (fst r)) = length dest /\
    (forall i, 0 <= i ->
       aget (snd (fst r)) i
       = if i <? Z.of_nat (length got) then aget got i else aget dest i) /\
    buffered_rcv (snd r) = 0.
Proof.
  intros dest s evs rest Hl Hwf Hc Ha He Hr Hu Hrest. cbv zeta.
  assert (H0 : 0 <= buffered_rcv s) by (unfold buffered_rcv; lia).
  destruct (LIN_read_response_spec dest s H0 Hl) as (_ & B & C & D & E).
  rewrite (response_bytes_burst s evs rest Hwf Hc Ha He Hr Hu Hrest) in B, D.
  assert (L : (length (firstn 8 (rx_bytes evs)) <= 8)%nat)
    by (rewrite length_firstn; lia).
  assert (B' : fst (fst (LIN_read_response dest s))
               = Z.of_nat (length (firstn 8 (rx_bytes evs)))) by lia.
  split; [exact B'|]. split; [exact C|]. split; [|exact E].
  intros i Hi. rewrite (D i Hi), B'. reflexivity.
Qed.

Lemma LIN_read_response_delivers_witness :
  fst (LIN_read_response (repeat 0 9) (live_state (burst_env [0; 3; 0; 255])))
  = (4, [0; 3; 0; 255; 0; 0; 0; 0; 0]) /\
  fst (fst (LIN_read_response (repeat 0 9)
              (live_state (burst_env [0; 3; 0; 255])))) = 4.
Proof.
  split; [vm_compute; reflexivity|].
  assert (H1 : (9 <= length (repeat 0 9))%nat) by (cbn; lia).
  assert (H2 : count (rcv (live_state (burst_env [0; 3; 0; 255]))) = 0)
    by reflexivity.
  assert (H3 : uart_in (world (live_state (burst_env [0; 3; 0; 255])))
               = map RxByte [0; 3; 0; 255] :: []) by reflexivity.
  destruct (LIN_read_response_delivers (repeat 0 9)
              (live_state (burst_env [0; 3; 0; 255]))
              (map RxByte [0; 3; 0; 255]) [] H1 empty_ring_wf H2
              eq_refl eq_refl eq_refl H3 eq_refl) as (A & _).
  rewrite A. reflexivity.
Defined.

(** X5: on a silent bus [LIN_read_response] gives up.  With nothing in the
    receive buffer, no byte waiting in SBUF and none to come, it waits five
    times 2 ms, returns 0 and leaves the destination, the response buffer
    and the receive buffer as they were. *)
Theorem LIN_read_response_timeout :
  forall dest s,
    rx_quiet s -> count (rcv s) = 0 ->
    let r := LIN_read_response dest s in
    fst r = (0, dest) /\
    out (snd r) = out s ++ repeat (ADelay 2) 5 /\
    resp_buff (snd r) = resp_buff s.
Proof.
  intros dest s Hq Hc. cbv zeta. unfold LIN_read_response. rewrite bind_eq.
  destruct (silent_wait 5 0 s Hq Hc) as (F & O & B); [lia|lia|].
  revert F O B. generalize (for_loop 5 0 wait_first_byte s).
  intros [w s1] F O B. cbn [fst snd] in *. subst w. cbn [ret fst snd]. auto.
Qed.

Lemma LIN_read_response_timeout_witness :
  fst (LIN_read_response [9; 9] (live_state still_env)) = (0, [9; 9]) /\
  out (snd (LIN_read_response [9; 9] (live_state still_env)))
  = repeat (ADelay 2) 5.
Proof.
  destruct (LIN_read_response_timeout [9; 9] (live_state still_env))
    as (A & B & _).
  - split; reflexivity.
  - reflexivity.
  - split; [exact A|exact B].
Defined.

(** ** The error display *)

Lemma land_4_testbit x : (Z.land x 4 =? 0) = negb (Z.testbit x 2).
Proof.
  assert (E : Z.land x 4 = if Z.testbit x 2 then 4 else 0).
  { apply Z.bits_inj'. intros n Hn. rewrite Z.land_spec.
    change 4 with (2 ^ 2) at 1. rewrite Z.pow2_bits_eqb by lia.
    destruct (Z.eqb_spec 2 n) as [<-|Hne].
    - rewrite andb_true_r. destruct (Z.testbit x 2); reflexivity.
    - rewrite andb_false_r. destruct (Z.testbit x 2).
      + change 4 with (2 ^ 2). rewrite Z.pow2_bits_eqb by lia.
        symmetry. apply Z.eqb_neq. exact Hne.
      + symmetry. apply Z.bits_0. }
  rewrite E. destruct (Z.testbit x 2); reflexivity.
Qed.

Lemma testbit_shl_b8 x n :
  0 <= n < 7 -> Z.testbit (b8 (Z.shiftl x 1)) (n + 1) = Z.testbit x n.
Proof.
  intros H. unfold b8. change 256 with (2 ^ 8).
  rewrite Z.mod_pow2_bits_low by lia.
  rewrite Z.shiftl_spec by lia. f_equal. lia.
Qed.

Lemma blink_out n : forall e s,
  out (snd (blink n e s)) = out s ++ blinks n e.
Proof.
  induction n as [|n IH]; intros e s; cbn [blink blinks].
  - cbn [ret snd]. rewrite app_nil_r. reflexivity.
  - rewrite !bind_eq, IH.
    rewrite (proj1 (delay_out _ _)), (proj1 (act_out _ _)),
            (proj1 (delay_out _ _)), (proj1 (act_out _ _)).
    rewrite land_4_testbit. unfold blink_of.
    destruct (Z.testbit e 2); cbn [negb]; rewrite <- !app_assoc; reflexivity.
Qed.

Lemma blink_3_out e s : out (snd (blink 3 e s)) = out s ++ blink_code e.
Proof.
  assert (E1 : Z.testbit (b8 (Z.shiftl e 1)) 2 = Z.testbit e 1)
    by (apply (testbit_shl_b8 e 1); lia).
  assert (E0 : Z.testbit (b8 (Z.shiftl (b8 (Z.shiftl e 1)) 1)) 2
               = Z.testbit e 0).
  { rewrite <- (testbit_shl_b8 e 0) by lia.
    apply (testbit_shl_b8 (b8 (Z.shiftl e 1)) 1). lia. }
  rewrite blink_out. cbn [blinks]. rewrite E0, E1, app_nil_r.
  reflexivity.
Qed.

(** X6: [show_error] shows the low three bits of the error code, highest
    first, as three blinks of the LED: 500 ms on for a 1 and 250 ms on for a
    0, each followed by 350 ms off.  Before the blinks it gives the wake-up
    pulse iff the auxiliary rail reads absent; it does nothing else.  (Code
    4 blinks long, short, short.) *)
Theorem show_error_blinks :
  forall err_code s,
    out (snd (show_error err_code s)) =
    out s ++ (if POW_5V_in (world s) 0%nat then [] else wakeup_actions)
          ++ blink_code err_code.
Proof.
  intros e s. unfold show_error. rewrite !bind_eq, blink_3_out.
  rewrite (proj1 (read_POW_5V_spec s)).
  pose proof (proj2 (proj2 (read_POW_5V_spec s))) as O.
  revert O. generalize (snd (read_POW_5V s)). intros s1 O.
  destruct (POW_5V_in (world s) 0%nat); cbn [negb].
  - cbn [ret snd app]. rewrite O. reflexivity.
  - rewrite LIN_wakeup_out, O, <- app_assoc. reflexivity.
Qed.

(** ** The wake-up of the peer *)

Lemma act_quiet a s : tx_quiet s (snd (act a s)).
Proof. apply tx_quiet_same; reflexivity. Qed.

Lemma LIN_wakeup_quiet s :
  tx_quiet s (snd (LIN_wakeup s)) /\
  pins (world (snd (LIN_wakeup s))) = pins (world s).
Proof.
  unfold LIN_wakeup. rewrite !bind_eq. split.
  - eapply tx_quiet_trans; [|apply delay_quiet].
    eapply tx_quiet_trans; [|apply act_quiet].
    eapply tx_quiet_trans; [|apply delay_quiet].
    eapply tx_quiet_trans; [|apply act_quiet].
    eapply tx_quiet_trans; [|apply delay_quiet].
    apply act_quiet.
  - rewrite (proj2 (proj2 (delay_out _ _))), (proj2 (act_out _ _)),
            (proj2 (proj2 (delay_out _ _))), (proj2 (act_out _ _)),
            (proj2 (proj2 (delay_out _ _))), (proj2 (act_out _ _)).
    reflexivity.
Qed.

Lemma wake_round_spec i s :
  let rail := POW_5V_in (world s) in
  let r := wake_round i s in
  fst r = (if rail 0%nat then Some true
           else if i =? 2 then Some false else None) /\
  out (snd r) = out s ++ (if rail 0%nat then [] else wakeup_actions) /\
  POW_5V_in (world (snd r)) = tl_stream rail /\
  tx_quiet s (snd r).
Proof.
  cbv zeta. unfold wake_round. rewrite bind_eq.
  destruct (read_POW_5V_spec s) as (V & P & O). rewrite V.
  assert (Q : tx_quiet s (snd (read_POW_5V s)))
    by (apply tx_quiet_same; reflexivity).
  revert P O Q. generalize (snd (read_POW_5V s)). intros s1 P O Q.
  destruct (POW_5V_in (world s) 0%nat); cbn [negb].
  - cbn [ret fst snd]. rewrite app_nil_r. auto.
  - rewrite bind_eq.
    pose proof (LIN_wakeup_out s1) as O2.
    destruct (LIN_wakeup_quiet s1) as (Q2 & P2).
    revert O2 Q2 P2. generalize (snd (LIN_wakeup s1)). intros s2 O2 Q2 P2.
    assert (P3 : POW_5V_in (world s2) = tl_stream (POW_5V_in (world s)))
      by (rewrite <- P; unfold pins in P2; congruence).
    assert (Q3 : tx_quiet s s2) by (eapply tx_quiet_trans; eauto).
    rewrite O in O2.
    destruct (i =? 2); cbn [ret fst snd]; auto.
Qed.

Lemma start_wake_rounds n : forall i s,
  i + Z.of_nat n = 3 ->
  let rail := POW_5V_in (world s) in
  let r := for_loop n i wake_round s in
  (fst r = Some false <-> wake_count n rail = n /\ (0 < n)%nat) /\
  (fst r = Some false \/ fst r = Some true \/ (fst r = None /\ n = 0%nat)) /\
  out (snd r) = out s ++ concat (repeat wakeup_actions (wake_count n rail)) /\
  tx_quiet s (snd r).
Proof.
  induction n as [|n IH]; intros i s Hi; cbv zeta.
  - cbn. rewrite app_nil_r. split; [split; [discriminate|lia]|].
    split; [auto|]. split; [reflexivity|apply tx_quiet_refl].
  - rewrite for_loop_S.
    destruct (wake_round_spec i s) as (V & O & P & Q). cbv zeta in V, O, P, Q.
    revert V O P Q. generalize (wake_round i s). intros [w s1]. cbn [fst snd].
    intros V O P Q. subst w. cbn [wake_count].
    destruct (POW_5V_in (world s) 0%nat).
    + cbn [fst snd concat repeat]. split; [split; [discriminate|lia]|].
      split; [auto|]. split; [exact O|exact Q].
    + destruct (i =? 2) eqn:E.
      * apply Z.eqb_eq in E. assert (n = 0%nat) by lia. subst n.
        cbn [fst snd wake_count concat repeat].
        split; [split; [lia|reflexivity]|]. split; [auto|].
        split; [exact O|exact Q].
      * apply Z.eqb_neq in E.
        destruct (IH (i + 1) s1) as (A & B & C & D); [lia|].
        rewrite P in A, C. cbv zeta in *.
        split; [|split; [|split]].
        -- rewrite A. split; intros (X & Y); split; lia.
        -- destruct B as [B|[B|(B & B')]]; [auto|auto|lia].
        -- rewrite C, O. cbn [repeat concat]. rewrite <- app_assoc. reflexivity.
        -- eapply tx_quiet_trans; eauto.
Qed.

Lemma start_wake_eq : start_wake = (w <- for_loop 3 0 wake_round ;;
                                    match w with Some b => ret b | None => ret true end).
Proof. reflexivity. Qed.

Lemma start_wake_spec s :
  let rail := POW_5V_in (world s) in
  (fst (start_wake s) = false <-> wake_count 3 rail = 3%nat) /\
  out (snd (start_wake s))
  = out s ++ concat (repeat wakeup_actions (wake_count 3 rail)) /\
  tx_quiet s (snd (start_wake s)).
Proof.
  cbv zeta. rewrite start_wake_eq, bind_eq.
  destruct (start_wake_rounds 3 0 s eq_refl) as (A & B & C & D).
  cbv zeta in A, B, C, D.
  revert A B C D. generalize (for_loop 3 0 wake_round s). intros [w s1].
  cbn [fst snd]. intros A B C D.
  split; [|split].
  - destruct w as [[|]|]; cbn [ret fst].
    + split; [discriminate|]. intros H. apply proj2 in A.
      assert (L : (0 < 3)%nat) by lia.
      specialize (A (conj H L)). discriminate A.
    + split; [|reflexivity]. intros _.
      destruct (proj1 A eq_refl) as (X & _). exact X.
    + destruct B as [B|[B|(_ & B)]]; discriminate B.
  - destruct w as [[|]|]; exact C.
  - destruct w as [[|]|]; exact D.
Qed.

Lemma start_code_not_wakeup r : start_code r <> WAKEUP_ERROR.
Proof.
  unfold start_code. destruct (existsb good_resp (concat r)); [discriminate|].
  unfold final_code. destruct (negb _); [discriminate|].
  destruct (existsb ack_only_resp _); discriminate.
Qed.

(** X7: [start_inverter] wakes the peer before it gives up on the rail.  It
    reads the auxiliary rail up to three times and gives one wake-up pulse
    after each reading that finds it absent; it returns [WAKEUP_ERROR] iff
    all three readings find it absent, and then it has given three wake-up
    pulses and done nothing else: no frame has been handed to the UART and
    the transmitter has not been started. *)
Theorem start_inverter_wakeup_error :
  forall s,
    let rail := POW_5V_in (world s) in
    (fst (start_inverter s) = WAKEUP_ERROR <-> wake_count 3 rail = 3%nat) /\
    (wake_count 3 rail = 3%nat <->
     rail 0%nat = false /\ rail 1%nat = false /\ rail 2%nat = false) /\
    out (snd (start_wake s))
    = out s ++ concat (repeat wakeup_actions (wake_count 3 rail)) /\
    (wake_count 3 rail = 3%nat ->
     out (snd (start_inverter s))
     = out s ++ wakeup_actions ++ wakeup_actions ++ wakeup_actions /\
     (ring_wf (tr s) -> txq (snd (start_inverter s)) = txq s) /\
     (tr_armed s = false -> tr_armed (snd (start_inverter s)) = false)).
Proof.
  intros s. cbv zeta.
  destruct (start_wake_spec s) as (A & B & C). cbv zeta in A, B, C.
  split; [|split; [|split; [exact B|]]].
  - destruct (fst (start_wake s)) eqn:E.
    + rewrite (start_inverter_seen s E). cbn [fst]. split.
      * intros H. apply start_code_not_wakeup in H. destruct H.
      * intros H. apply A in H. discriminate H.
    + unfold start_inverter. rewrite bind_eq, E. cbn [negb ret fst].
      split; [intros _; apply (proj1 A); reflexivity|reflexivity].
  - cbn [wake_count]. unfold tl_stream.
    destruct (POW_5V_in (world s) 0%nat), (POW_5V_in (world s) 1%nat),
             (POW_5V_in (world s) 2%nat); split;
      try (intros H; discriminate H);
      try (intros (H0 & H1 & H2); discriminate);
      auto.
  - intros H. pose proof (proj2 A H) as E.
    unfold start_inverter. rewrite bind_eq, E. cbn [negb ret snd].
    rewrite B, H. cbn [repeat concat]. rewrite app_nil_r.
    split; [reflexivity|]. split.
    + intros Hwf. apply (proj2 (proj1 C) Hwf).
    + apply (proj2 C).
Qed.

Lemma start_inverter_wakeup_error_witness :
  fst (start_inverter (live_state dead_battery_env)) = WAKEUP_ERROR /\
  txq (snd (start_inverter (live_state dead_battery_env))) = [] /\
  out (snd (start_wake (live_state slow_rail_env)))
  = wakeup_actions ++ wakeup_actions.
Proof.
  destruct (start_inverter_wakeup_error (live_state dead_battery_env))
    as (A & _ & _ & D).
  destruct (start_inverter_wakeup_error (live_state slow_rail_env))
    as (_ & _ & B & _).
  assert (H : wake_count 3 (POW_5V_in (world (live_state dead_battery_env)))
              = 3%nat) by reflexivity.
  destruct (D H) as (_ & Q & _).
  split; [apply A, H|]. split.
  - rewrite Q; [reflexivity|apply empty_ring_wf].
  - rewrite B. reflexivity.
Defined.

(** ** The load check *)

Lemma power_polls_seen n : forall ps need s,
  0 <= ps < 5 -> Z.of_nat need = 5 - ps ->
  let l := fst (power_seen n need s) in
  let c := length (filter load_seen l) in
  power_polls n ps s = ((need <=? c)%nat, snd (power_seen n need s)) /\
  (c <= need)%nat /\ (length l <= n)%nat /\
  ((c < need)%nat -> length l = n) /\
  (c = need -> exists l0 o, l = l0 ++ [o] /\ load_seen o = true).
Proof.
  induction n as [|n IH]; intros ps need s Hps Hneed; cbv zeta.
  - cbn. replace (need <=? 0)%nat with false
      by (symmetry; apply Nat.leb_gt; lia).
    split; [reflexivity|]. split; [lia|]. split; [lia|].
    split; [reflexivity|]. intros H. lia.
  - cbn [power_polls power_seen].
    rewrite !(bind_eq power_poll), !(bind_eq (gets resp_buff)).
    unfold gets; cbn [fst snd].
    generalize (power_poll s). intros [read s1]. cbn [fst snd].
    assert (Ho : load_seen (read, resp_buff s1)
                 = load_reading read (resp_buff s1)
                   && (0 <? aget (resp_buff s1) 0)) by reflexivity.
    destruct (load_reading read (resp_buff s1)) eqn:EL; cbn [negb andb] in *.
    + destruct (0 <? aget (resp_buff s1) 0) eqn:EP; cbn [b2z];
        rewrite Ho.
      * (* a poll that counts *)
        replace (b8 (ps + 1)) with (ps + 1)
          by (unfold b8; symmetry; apply Z.mod_small; lia).
        destruct (5 <=? ps + 1) eqn:E5.
        -- apply Z.leb_le in E5. assert (need = 1%nat) by lia. subst need.
           cbn [ret fst snd filter length]. rewrite Ho. cbn [length Nat.leb].
           split; [reflexivity|]. split; [lia|]. split; [lia|].
           split; [lia|]. intros _. exists [], (read, resp_buff s1).
           split; [reflexivity|exact Ho].
        -- apply Z.leb_gt in E5.
           destruct need as [|[|k]]; [lia|lia|].
           rewrite bind_eq. cbn [ret fst snd filter]. rewrite Ho.
           destruct (IH (ps + 1) (S k) s1) as (A & B & C & D & E); [lia|lia|].
           cbv zeta in A, B, C, D, E.
           revert A B C D E. generalize (power_seen n (S k) s1).
           intros [l s2]. cbn [fst snd length]. intros A B C D E.
           split; [rewrite A; reflexivity|]. split; [lia|]. split; [lia|].
           split; [intros H; f_equal; apply D; lia|].
           intros H. destruct E as (l0 & o & E1 & E2); [lia|].
           exists ((read, resp_buff s1) :: l0), o. rewrite E1. auto.
      * (* a response without power *)
        rewrite Z.add_0_r.
        replace (b8 ps) with ps by (unfold b8; symmetry; apply Z.mod_small; lia).
        replace (5 <=? ps) with false by (symmetry; apply Z.leb_gt; lia).
        rewrite bind_eq. cbn [ret fst snd filter]. rewrite Ho.
        destruct (IH ps need s1 Hps Hneed) as (A & B & C & D & E).
        cbv zeta in A, B, C, D, E.
        revert A B C D E. generalize (power_seen n need s1).
        intros [l s2]. cbn [fst snd length]. intros A B C D E.
        split; [exact A|]. split; [exact B|]. split; [lia|].
        split; [intros H; f_equal; apply D; exact H|].
        intros H. destruct (E H) as (l0 & o & E1 & E2).
        exists ((read, resp_buff s1) :: l0), o. rewrite E1. auto.
    + (* a poll that is passed over *)
      rewrite Ho, bind_eq. cbn [ret fst snd filter]. rewrite Ho.
      destruct (IH ps need s1 Hps Hneed) as (A & B & C & D & E).
      cbv zeta in A, B, C, D, E.
      revert A B C D E. generalize (power_seen n need s1).
      intros [l s2]. cbn [fst snd length]. intros A B C D E.
      split; [exact A|]. split; [exact B|]. split; [lia|].
      split; [intros H; f_equal; apply D; exact H|].
      intros H. destruct (E H) as (l0 & o & E1 & E2).
      exists ((read, resp_buff s1) :: l0), o. rewrite E1. auto.
Qed.

(** X8: [enough_power_drawn] reports load iff five of its at most ten polls
    count as load, a poll counting when it reads at least 3 bytes and leaves
    in the response buffer the acknowledged bit set, the marker 0xFF in byte
    3 and a power byte above zero.  It returns at the fifth such poll,
    without polling further; it reports no load only after all ten polls. *)
Theorem enough_power_drawn_threshold :
  forall s,
    let l := fst (power_seen 10 5 s) in
    let c := length (filter load_seen l) in
    snd (enough_power_drawn s) = snd (power_seen 10 5 s) /\
    (fst (enough_power_drawn s) = true <-> c = 5%nat) /\
    (c <= 5)%nat /\ (length l <= 10)%nat /\
    (fst (enough_power_drawn s) = true ->
     exists l0 o, l = l0 ++ [o] /\ load_seen o = true) /\
    (fst (enough_power_drawn s) = false -> length l = 10%nat).
Proof.
  intros s. cbv zeta. unfold enough_power_drawn.
  destruct (power_polls_seen 10 0 5 s) as (A & B & C & D & E); [lia|lia|].
  cbv zeta in A, B, C, D, E. rewrite A. cbn [fst snd].
  split; [reflexivity|]. split; [|split; [exact B|split; [exact C|split]]].
  - split; intros H.
    + apply Nat.leb_le in H. lia.
    + apply Nat.leb_le. lia.
  - intros H. apply Nat.leb_le in H. apply E. lia.
  - intros H. apply Nat.leb_gt in H. apply D. exact H.
Qed.

Lemma enough_power_drawn_threshold_witness :
  fst (enough_power_drawn (live_state loaded_env)) = true /\
  length (fst (power_seen 10 5 (live_state loaded_env))) = 5%nat /\
  length (fst (power_seen 10 5 (live_state still_env))) = 10%nat.
Proof.
  destruct (enough_power_drawn_threshold (live_state loaded_env))
    as (_ & A & _).
  destruct (enough_power_drawn_threshold (live_state still_env))
    as (_ & _ & _ & _ & _ & B).
  split; [apply A; vm_compute; reflexivity|].
  split; [vm_compute; reflexivity|].
  apply B. vm_compute. reflexivity.
Defined.

(** ** The plug *)

Lemma read_PLUG_spec s :
  fst (read_PLUG s) = negb (P3_2_in (world s) 0%nat) /\
  P3_2_in (world (snd (read_PLUG s))) = tl_stream (P3_2_in (world s)) /\
  out (snd (read_PLUG s)) = out s.
Proof. split; [reflexivity|split; reflexivity]. Qed.

Lemma delay_PLUG ms s :
  out (snd (delay ms s)) = out s ++ [ADelay ms] /\
  P3_2_in (world (snd (delay ms s))) = P3_2_in (world s).
Proof.
  destruct (delay_out ms s) as (H1 & _ & H3). split; [exact H1|].
  unfold pins in H3. congruence.
Qed.

Lemma anything_plugged_spec s :
  let pin := P3_2_in (world s) in
  let r := anything_plugged s in
  fst r = negb (pin 0%nat) && negb (pin 1%nat) /\
  out (snd r) = out s ++ (if pin 0%nat then [] else [ADelay 20]) /\
  (forall k, P3_2_in (world (snd r)) k
             = pin ((if pin 0%nat then 1 else 2) + k)%nat).
Proof.
  cbv zeta. unfold anything_plugged. rewrite bind_eq.
  destruct (read_PLUG_spec s) as (V & P & O). rewrite V.
  revert P O. generalize (snd (read_PLUG s)). intros s1 P O.
  destruct (P3_2_in (world s) 0%nat) eqn:E0; cbn [negb andb].
  - cbn [ret fst snd]. rewrite app_nil_r, P. auto.
  - rewrite !bind_eq.
    destruct (delay_PLUG 20 s1) as (O2 & P2).
    revert O2 P2. generalize (snd (delay 20 s1)). intros s2 O2 P2.
    destruct (read_PLUG_spec s2) as (V3 & P3 & O3). rewrite V3.
    revert P3 O3. generalize (snd (read_PLUG s2)). intros s3 P3 O3.
    rewrite P2, P in P3. rewrite P2, P.
    change (tl_stream (P3_2_in (world s)) 0%nat)
      with (P3_2_in (world s) 1%nat).
    assert (R : out s3 = out s ++ [ADelay 20]) by congruence.
    assert (K : forall k, P3_2_in (world s3) k = P3_2_in (world s) (2 + k)%nat)
      by (intros k; rewrite P3; reflexivity).
    destruct (P3_2_in (world s) 1%nat); cbn [negb ret fst snd]; auto.
Qed.

Lemma plug_waits_ext n : forall f g,
  (forall k, f k = g k) -> plug_waits n f = plug_waits n g.
Proof.
  induction n as [|n IH]; intros f g H; [reflexivity|].
  cbn [plug_waits]. rewrite !H.
  rewrite (IH (fun k => f (2 + k)%nat) (fun k => g (2 + k)%nat));
    [reflexivity|]. intros k. apply H.
Qed.

Lemma wait_loop_out n : forall i s,
  out (snd (for_loop n i (fun _ =>
              p <- anything_plugged ;;
              if p then delay 80 ;; ret None else ret (Some tt)) s))
  = out s ++ map ADelay (plug_waits n (P3_2_in (world s))).
Proof.
  induction n as [|n IH]; intros i s.
  - cbn. rewrite app_nil_r. reflexivity.
  - rewrite for_loop_S. rewrite !bind_eq.
    destruct (anything_plugged_spec s) as (V & O & P). cbv zeta in V, O, P.
    revert V O P. generalize (anything_plugged s). intros [p s1].
    cbn [fst snd]. intros V O P. subst p. cbn [plug_waits].
    destruct (P3_2_in (world s) 0%nat); cbn [negb andb].
    + cbn [ret fst snd map]. exact O.
    + destruct (P3_2_in (world s) 1%nat); cbn [negb].
      * cbn [ret fst snd map]. exact O.
      * rewrite !bind_eq. cbn [ret fst snd].
        destruct (delay_PLUG 80 s1) as (O2 & P2).
        revert O2 P2. generalize (snd (delay 80 s1)). intros s2 O2 P2.
        rewrite IH, O2, O. cbn [map]. rewrite <- !app_assoc. cbn [app].
        do 4 f_equal. apply plug_waits_ext. intros k. rewrite P2. apply P.
Qed.

Lemma plug_waits_bound n : forall pin,
  0 <= zsum (plug_waits n pin) <= 100 * Z.of_nat n.
Proof.
  induction n as [|n IH]; intros pin; cbn [plug_waits].
  - cbn. lia.
  - destruct (pin 0%nat); [cbn; lia|]. destruct (pin 1%nat); [cbn; lia|].
    specialize (IH (fun k => pin (2 + k)%nat)). cbn [zsum fold_right] in *.
    unfold zsum in IH. lia.
Qed.

Lemma plug_waits_full n : forall pin,
  (forall j, (j < 2 * n)%nat -> pin j = false) ->
  plug_waits n pin = concat (repeat [20; 80] n).
Proof.
  induction n as [|n IH]; intros pin H; [reflexivity|].
  cbn [plug_waits]. rewrite (H 0%nat), (H 1%nat) by lia.
  cbn [repeat concat app]. do 2 f_equal. apply IH.
  intros j Hj. apply H. lia.
Qed.

(** X9: the plug is debounced, and the wait for its removal is bounded.
    [anything_plugged] answers true iff two samples of the plug input, 20 ms
    apart, both read plugged (the wait is skipped when the first does not).
    [wait_if_plugged(n)] does nothing but wait: while this check answers
    true it waits 80 ms more, at most [n] times, so at most [n] times 100 ms
    in all; it returns at the first check that answers false, and at once
    when the plug already reads not plugged. *)
Theorem wait_if_plugged_waits :
  forall n s,
    let pin := P3_2_in (world s) in
    let l := plug_waits n pin in
    fst (anything_plugged s) = negb (pin 0%nat) && negb (pin 1%nat) /\
    out (snd (wait_if_plugged (Z.of_nat n) s)) = out s ++ map ADelay l /\
    0 <= zsum l <= 100 * Z.of_nat n /\
    (pin 0%nat = true -> l = []) /\
    ((forall j, (j < 2 * n)%nat -> pin j = false) ->
     l = concat (repeat [20; 80] n)).
Proof.
  intros n s. cbv zeta.
  split; [apply anything_plugged_spec|]. split.
  - unfold wait_if_plugged. rewrite bind_eq, Nat2Z.id. cbn [ret snd].
    apply wait_loop_out.
  - split; [apply plug_waits_bound|]. split.
    + intros H. destruct n; [reflexivity|]. cbn [plug_waits]. rewrite H.
      reflexivity.
    + apply plug_waits_full.
Qed.

Lemma wait_if_plugged_waits_witness :
  out (snd (wait_if_plugged 30 (live_state pulled_plug_env)))
  = [ADelay 20; ADelay 80; ADelay 20] /\
  out (snd (wait_if_plugged 2 (live_state still_env)))
  = [ADelay 20; ADelay 80; ADelay 20; ADelay 80].
Proof.
  destruct (wait_if_plugged_waits 30 (live_state pulled_plug_env))
    as (_ & A & _).
  destruct (wait_if_plugged_waits 2 (live_state still_env))
    as (_ & B & _ & _ & C).
  split.
  - change 30 with (Z.of_nat 30). rewrite A. reflexivity.
  - change 2 with (Z.of_nat 2). rewrite B, C; [reflexivity|].
    intros j _. reflexivity.
Defined.

(** ** Whole frames *)


Lemma protected_id_byte ID : 0 <= protected_id ID < 256.
Proof. unfold protected_id, b8 at 1. apply Z.mod_pos_bound. lia. Qed.




(** X11: the protected ID can be read back.  For every byte given as frame
    ID, [LIN_send_request] returns a byte whose low six bits are those of
    the ID; the two bits above them depend on these six bits only (bits 6
    and 7 of the argument are ignored), so two IDs below 64 never give the
    same protected ID. *)
Theorem protected_id_round_trip :
  forall ID s, 0 <= ID < 256 ->
    let p := fst (LIN_send_request ID s) in
    0 <= p < 256 /\
    Z.land p 63 = Z.land ID 63 /\
    p = fst (LIN_send_request (Z.land ID 63) s) /\
    (forall ID', 0 <= ID' < 64 -> 0 <= ID < 64 ->
       fst (LIN_send_request ID' s) = p -> ID' = ID).
Proof.
  intros ID s H. cbv zeta.
  assert (V : forall x, fst (LIN_send_request x s) = protected_id x)
    by (intros x; rewrite LIN_send_request_eq; reflexivity).
  rewrite !V.
  assert (K : forall z, 0 <= z < 256 ->
            Z.land (protected_id z) 63 = Z.land z 63 /\
            protected_id z = protected_id (Z.land z 63)).
  { intros z Hz.
    pose proof (below_forallb
      (fun z => (Z.land (protected_id z) 63 =? Z.land z 63)
                && (protected_id z =? protected_id (Z.land z 63))) 256) as F.
    specialize (F ltac:(vm_compute; reflexivity) z Hz).
    apply andb_true_iff in F. destruct F as (F1 & F2).
    split; apply Z.eqb_eq; assumption. }
  destruct (K ID H) as (K1 & K2).
  split; [apply protected_id_byte|]. split; [exact K1|]. split; [exact K2|].
  intros ID' H' H64. rewrite V. intros E.
  destruct (K ID' ltac:(lia)) as (K1' & _).
  assert (L : forall z, 0 <= z < 64 -> Z.land z 63 = z).
  { intros z Hz. change 63 with (Z.ones 6). rewrite Z.land_ones by lia.
    apply Z.mod_small. lia. }
  rewrite <- (L ID' H'), <- (L ID H64), <- K1', <- K1, E. reflexivity.
Qed.

Lemma protected_id_round_trip_witness :
  Z.land (fst (LIN_send_request 59 (live_state still_env))) 63 = 59 /\
  fst (LIN_send_request 251 (live_state still_env))
  = fst (LIN_send_request 59 (live_state still_env)).
Proof.
  assert (H1 : 0 <= 59 < 256) by lia. assert (H2 : 0 <= 251 < 256) by lia.
  destruct (protected_id_round_trip 59 (live_state still_env) H1)
    as (_ & A & _).
  destruct (protected_id_round_trip 251 (live_state still_env) H2)
    as (_ & _ & B & _).
  split; [exact A|exact B].
Defined.

(** ** The counters of the loop *)

Lemma no_load_branch_ctl c s :
  ctl_ok c ->
  let c' := fst (no_load_branch c s) in
  ctl_ok c' /\ drawn_power_detect c' = drawn_power_detect c /\
  no_load_counter c <= no_load_counter c' <= no_load_counter c + 1.
Proof.
  intros ((H1 & H2) & H3). cbv zeta. unfold no_load_branch.
  destruct (60 <=? no_load_counter c) eqn:E.
  - apply Z.leb_le in E.
    mstep. generalize (snd (stop_inverter true s)). intros s1.
    mstep. cbn [ret fst]. unfold ctl_ok. cbn.
    split; [lia|split; [reflexivity|lia]].
  - apply Z.leb_gt in E.
    mstep. generalize (snd (stop_inverter false s)). intros s1.
    mstep. generalize (snd (wait_if_plugged 18 s1)). intros s2.
    mstep. cbn [ret fst]. unfold ctl_ok. cbn.
    replace (b8 (no_load_counter c + 1)) with (no_load_counter c + 1)
      by (unfold b8; symmetry; apply Z.mod_small; lia).
    split; [lia|split; [reflexivity|lia]].
Qed.

Lemma load_branch_ctl c :
  ctl_ok c ->
  ctl_ok (load_branch c) /\
  drawn_power_detect (load_branch c) = drawn_power_detect c /\
  no_load_counter c - 1 <= no_load_counter (load_branch c) <= no_load_counter c.
Proof.
  intros ((H1 & H2) & H3). unfold load_branch.
  destruct (0 <? no_load_counter c) eqn:E;
    [|unfold ctl_ok; split; [lia|split; [reflexivity|lia]]].
  apply Z.ltb_lt in E.
  destruct (prev_was_load c); unfold ctl_ok; cbn;
    [|split; [lia|split; [reflexivity|lia]]].
  replace (b8 (no_load_counter c - 1)) with (no_load_counter c - 1)
    by (unfold b8; symmetry; apply Z.mod_small; lia).
  split; [lia|split; [reflexivity|lia]].
Qed.

Lemma main_iter_ctl c s c' :
  ctl_ok c -> fst (main_iter c s) = Some c' ->
  ctl_ok c' /\ drawn_power_detect c' = drawn_power_detect c /\
  no_load_counter c - 1 <= no_load_counter c' <= no_load_counter c + 1 /\
  (drawn_power_detect c = false -> no_load_counter c' = no_load_counter c).
Proof.
  intros Hc. pose proof Hc as ((H1 & H2) & H3).
  unfold main_iter. mstep.
  generalize (is_power_good s). intros [good s1]. cbn [fst snd].
  destruct good; cbn [negb].
  - assert (Hc0 : ctl_ok (mkCtl (no_load_counter c) (prev_was_load c) 0
                                (drawn_power_detect c)))
      by (unfold ctl_ok; cbn; lia).
    mstep. generalize (anything_plugged s1). intros [plugged s2]. cbn [fst snd].
    destruct plugged.
    + mstep. generalize (start_inverter s2). intros [status s3]. cbn [fst snd].
      destruct (negb (status =? 0)).
      * mstep. generalize (snd (stop_inverter true s3)). intros s4.
        mstep. generalize (snd (show_error status s4)). intros s5.
        mstep. cbn [ret fst]. intros E; inversion E; subst c'.
        cbn. split; [exact Hc0|]. split; [reflexivity|]. split; [lia|auto].
      * cbn [drawn_power_detect prev_was_load].
        destruct (drawn_power_detect c) eqn:D.
        -- mstep.
           generalize (snd ((if negb (prev_was_load c) then delay 200
                             else ret tt) s3)).
           intros s4. mstep.
           generalize (enough_power_drawn s4). intros [load s5]. cbn [fst snd].
           destruct (negb load).
           ++ mstep. cbn [ret fst]. intros E; inversion E; subst c'.
              destruct (no_load_branch_ctl _ s5 Hc0) as (A & B & C).
              cbv zeta in A, B, C. cbn in B, C.
              split; [exact A|]. split; [exact B|]. split; [lia|discriminate].
           ++ cbn [ret fst]. intros E; inversion E; subst c'.
              destruct (load_branch_ctl _ Hc0) as (A & B & C). cbn in B, C.
              split; [exact A|]. split; [exact B|]. split; [lia|discriminate].
        -- cbn [ret fst]. intros E; inversion E; subst c'.
           cbn. split; [exact Hc0|]. split; [reflexivity|]. split; [lia|auto].
    + mstep. generalize (snd (stop_inverter true s2)). intros s3.
      mstep. generalize (snd (UART_INT_DIS s3)). intros s4.
      mstep. generalize (snd (ENTER_IDLE s4)). intros s5.
      mstep. cbn [ret fst]. intros E; inversion E; subst c'.
      cbn. split; [exact Hc0|]. split; [reflexivity|]. split; [lia|auto].
  - mstep. generalize (snd (stop_inverter true s1)). intros s2.
    mstep. generalize (snd (delay 250 s2)). intros s3.
    mstep. generalize (snd (show_error LOW_BATT_ERR s3)). intros s4.
    assert (Hb : b8 (low_batt_counter c + 1) = low_batt_counter c + 1)
      by (unfold b8; apply Z.mod_small; lia).
    rewrite Hb.
    destruct (5 <=? low_batt_counter c + 1) eqn:E5.
    + mstep. mstep. cbn [ret fst]. discriminate.
    + apply Z.leb_gt in E5. mstep. cbn [ret fst].
      intros E; inversion E; subst c'. unfold ctl_ok. cbn.
      split; [lia|]. split; [reflexivity|]. split; [lia|auto].
Qed.

Lemma main_loop_ctl n : forall c s c',
  ctl_ok c -> fst (main_loop n c s) = Some c' ->
  ctl_ok c' /\ drawn_power_detect c' = drawn_power_detect c.
Proof.
  induction n as [|n IH]; intros c s c' Hc; cbn [main_loop].
  - cbn [ret fst]. intros E; inversion E; subst c'. auto.
  - rewrite bind_eq.
    pose proof (main_iter_ctl c s) as K.
    revert K. generalize (main_iter c s). intros [[c1|] s1]; cbn [fst snd].
    + intros K E. destruct (K c1 Hc eq_refl) as (A & B & _).
      destruct (IH c1 s1 c' A E) as (A' & B'). split; [exact A'|congruence].
    + intros _ E. discriminate E.
Qed.

Lemma main_init_ctl s :
  fst (main_init s)
  = mkCtl 0 false 0 (negb (P3_2_in (world s) 0%nat)
                     && negb (P3_2_in (world s) 1%nat)).
Proof.
  unfold main_init. repeat mstep. cbn [ret fst]. f_equal.
  rewrite (proj1 (anything_plugged_spec _)).
  rewrite (proj2 (delay_PLUG _ _)). reflexivity.
Qed.

(** X12: the counters of the loop of [main] never leave their range, and
    the mode is fixed at boot.  [main] starts its loop with both counters 0
    and with the drawn-power mode on iff the plug input reads plugged on
    its first two samples; in every round after that, [no_load_counter]
    stays within 0..60 (its byte never wraps) and moves by at most one,
    [low_batt_counter] stays within 0..4 while the loop runs, and the mode
    never changes; with the mode off, [no_load_counter] is never touched. *)
Theorem main_counters_in_range :
  forall s0 n c,
    let boot := main_init s0 in
    let pin := P3_2_in (world s0) in
    fst boot = mkCtl 0 false 0 (negb (pin 0%nat) && negb (pin 1%nat)) /\
    (fst (main_loop n (fst boot) (snd boot)) = Some c ->
     ctl_ok c /\
     drawn_power_detect c = negb (pin 0%nat) && negb (pin 1%nat)) /\
    (forall c1 s1 c2, ctl_ok c1 -> fst (main_iter c1 s1) = Some c2 ->
       ctl_ok c2 /\ drawn_power_detect c2 = drawn_power_detect c1 /\
       no_load_counter c1 - 1 <= no_load_counter c2 <= no_load_counter c1 + 1 /\
       (drawn_power_detect c1 = false ->
        no_load_counter c2 = no_load_counter c1)).
Proof.
  intros s0 n c. cbv zeta. rewrite main_init_ctl.
  split; [reflexivity|]. split.
  - intros E. apply main_loop_ctl in E; [exact E|].
    unfold ctl_ok; cbn; lia.
  - intros c1 s1 c2. apply main_iter_ctl.
Qed.

Lemma main_counters_in_range_witness :
  ctl_ok (mkCtl 21 false 0 true) /\
  fst (main_init (reset_state idle_load_env)) = mkCtl 0 false 0 true.
Proof.
  destruct (main_counters_in_range (reset_state idle_load_env) 0
              (mkCtl 0 false 0 true)) as (A & _ & C).
  split; [|exact A].
  assert (H : ctl_ok (mkCtl 20 false 0 true)) by (unfold ctl_ok; cbn; lia).
  assert (E : fst (main_iter (mkCtl 20 false 0 true) (live_state idle_load_env))
              = Some (mkCtl 21 false 0 true)) by (vm_compute; reflexivity).
  apply (C _ _ _ H E).
Defined.

(** ** The power-cut output *)

Lemma no_cut_refl s : no_cut s s.
Proof. exists []. split; [rewrite app_nil_r; reflexivity|intros l H; exact H]. Qed.

Lemma no_cut_trans a b c : no_cut a b -> no_cut b c -> no_cut a c.
Proof.
  intros (x & H1 & N1) (y & H2 & N2). exists (x ++ y). split.
  - rewrite H2, H1, app_assoc. reflexivity.
  - intros l H. apply in_app_or in H. destruct H as [H|H];
      [apply (N1 l H)|apply (N2 l H)].
Qed.

Lemma delays_no_cut s s' : only_delays s s' -> no_cut s s'.
Proof.
  intros (l & H). exists (map ADelay l). split; [exact H|].
  intros level. apply not_in_delays. discriminate.
Qed.

Lemma NoCut_Delays {A} (m : M A) : Delays m -> NoCut m.
Proof. intros H s. apply delays_no_cut, H. Qed.

Lemma NoCut_ret {A} (a : A) : NoCut (ret a).
Proof. intros s. apply no_cut_refl. Qed.

Lemma NoCut_bind {A B} (m : M A) (f : A -> M B) :
  NoCut m -> (forall a, NoCut (f a)) -> NoCut (bind m f).
Proof.
  intros Hm Hf s. rewrite bind_eq.
  eapply no_cut_trans; [apply Hm|apply Hf].
Qed.

Lemma NoCut_for_loop {R} n i (body : Z -> M (option R)) :
  (forall i, NoCut (body i)) -> NoCut (for_loop n i body).
Proof.
  intros H s. apply for_loop_keeps.
  - apply no_cut_refl.
  - apply no_cut_trans.
  - intros j s'. apply H.
Qed.

Lemma NoCut_act a : (forall level, a <> AEnOv level) -> NoCut (act a).
Proof.
  intros H s. exists [a]. split; [reflexivity|].
  intros level [E|[]]. apply (H level E).
Qed.

Lemma NoCut_delay ms : NoCut (delay ms).
Proof. apply NoCut_Delays, Delays_delay. Qed.

Lemma NoCut_read_POW_5V : NoCut read_POW_5V.
Proof. apply NoCut_Delays, Delays_read_POW_5V. Qed.

Lemma NoCut_LIN_wakeup : NoCut LIN_wakeup.
Proof.
  unfold LIN_wakeup.
  apply NoCut_bind; [apply NoCut_act; discriminate|intros _].
  apply NoCut_bind; [apply NoCut_delay|intros _].
  apply NoCut_bind; [apply NoCut_act; discriminate|intros _].
  apply NoCut_bind; [apply NoCut_delay|intros _].
  apply NoCut_bind; [apply NoCut_act; discriminate|intros _].
  apply NoCut_delay.
Qed.

Lemma NoCut_blink n : forall e, NoCut (blink n e).
Proof.
  induction n as [|n IH]; intros e; cbn [blink].
  - apply NoCut_ret.
  - apply NoCut_bind; [apply NoCut_act; discriminate|intros _].
    apply NoCut_bind; [apply NoCut_delay|intros _]. cbv zeta.
    apply NoCut_bind; [apply NoCut_act; discriminate|intros _].
    apply NoCut_bind; [apply NoCut_delay|intros _].
    apply IH.
Qed.

Lemma NoCut_show_error e : NoCut (show_error e).
Proof.
  unfold show_error.
  apply NoCut_bind; [apply NoCut_read_POW_5V|]. intros p.
  apply NoCut_bind; [|intros ?; apply NoCut_blink].
  destruct (negb p); [apply NoCut_LIN_wakeup|apply NoCut_ret].
Qed.

Lemma Delays_start_polls n : forall a b, Delays (start_polls n a b).
Proof. induction n as [|n IH]; intros a b; cbn [start_polls]; delays. Qed.

Lemma Delays_start_round i : Delays (start_round i).
Proof.
  unfold start_round.
  apply Delays_bind; [delays|]. intros p.
  apply Delays_bind; [delays|]. intros _.
  apply Delays_bind; [apply Delays_start_polls|]. intros r. delays.
Qed.

Lemma NoCut_start_inverter : NoCut start_inverter.
Proof.
  unfold start_inverter.
  apply NoCut_bind.
  - unfold start_wake. apply NoCut_bind.
    + apply NoCut_for_loop. intros i.
      apply NoCut_bind; [apply NoCut_read_POW_5V|]. intros p.
      destruct (negb p); [|apply NoCut_ret].
      apply NoCut_bind; [apply NoCut_LIN_wakeup|]. intros _.
      destruct (i =? 2); apply NoCut_ret.
    + intros [b|]; apply NoCut_ret.
  - intros ok. destruct (negb ok); [apply NoCut_ret|].
    apply NoCut_bind.
    + apply NoCut_Delays, Delays_for_loop. intros i. apply Delays_start_round.
    + intros [code|]; apply NoCut_ret.
Qed.

Lemma Delays_power_polls n : forall ps, Delays (power_polls n ps).
Proof.
  induction n as [|n IH]; intros ps; cbn [power_polls].
  - delays.
  - apply Delays_bind; [unfold power_poll; delays|]. intros read.
    apply Delays_bind; [delays|]. intros resp.
    destruct (negb _); [apply IH|]. cbv zeta.
    destruct (5 <=? _); [delays|apply IH].
Qed.

Lemma Delays_power_good_loop n : forall u, Delays (power_good_loop n u).
Proof.
  induction n as [|n IH]; intros u; cbn [power_good_loop].
  - delays.
  - apply Delays_bind.
    + intros s. apply only_delays_same. reflexivity.
    + intros p. cbv zeta. destruct (5 <=? _); [delays|].
      apply Delays_bind; [delays|]. intros _. apply IH.
Qed.

Lemma NoCut_no_load_body n : NoCut (no_load_body n).
Proof.
  unfold no_load_body.
  apply NoCut_bind; [apply NoCut_Delays, Delays_stop_inverter|]. intros _.
  apply NoCut_bind; [apply NoCut_Delays, Delays_wait_if_plugged|]. intros _.
  destruct (20 <=? n); [|apply NoCut_ret].
  apply NoCut_bind; [apply NoCut_LIN_wakeup|]. intros _.
  apply NoCut_Delays, Delays_wait_if_plugged.
Qed.

Lemma main_iter_no_cut c s :
  hard_stop_round c s = false -> no_cut s (snd (main_iter c s)).
Proof.
  unfold hard_stop_round, main_iter.
  rewrite (bind_eq is_power_good).
  pose proof (NoCut_Delays _ (Delays_power_good_loop 10 0) s) as N1.
  change (power_good_loop 10 0) with is_power_good in N1.
  revert N1. generalize (is_power_good s). intros [good s1]. cbn [fst snd].
  intros N1. destruct good; cbn [negb]; [|discriminate].
  rewrite (bind_eq anything_plugged).
  pose proof (NoCut_Delays _ Delays_anything_plugged s1) as N2.
  revert N2. generalize (anything_plugged s1). intros [plugged s2].
  cbn [fst snd]. intros N2. destruct plugged; cbn [negb]; [|discriminate].
  rewrite (bind_eq start_inverter).
  pose proof (NoCut_start_inverter s2) as N3.
  revert N3. generalize (start_inverter s2). intros [status s3].
  cbn [fst snd]. intros N3.
  assert (N : no_cut s s3)
    by (eapply no_cut_trans; [exact N1|eapply no_cut_trans; eauto]).
  clear N1 N2 N3.
  destruct (negb (status =? 0)); [discriminate|].
  cbn [drawn_power_detect prev_was_load no_load_counter].
  destruct (drawn_power_detect c); cbn [negb]; [|intros _; exact N].
  rewrite bind_eq.
  assert (N4 : no_cut s3 (snd ((if negb (prev_was_load c) then delay 200
                                else ret tt) s3)))
    by (destruct (negb (prev_was_load c)); [apply NoCut_delay|apply NoCut_ret]).
  revert N4.
  generalize (snd ((if negb (prev_was_load c) then delay 200 else ret tt) s3)).
  intros s4 N4. rewrite (bind_eq enough_power_drawn).
  pose proof (NoCut_Delays _ (Delays_power_polls 10 0) s4) as N5.
  change (power_polls 10 0) with enough_power_drawn in N5.
  revert N5. generalize (enough_power_drawn s4). intros [load s5].
  cbn [fst snd]. intros N5.
  assert (N' : no_cut s s5)
    by (eapply no_cut_trans; [exact N|eapply no_cut_trans; eauto]).
  destruct load; cbn [negb]; [intros _; exact N'|].
  intros E. apply Z.leb_gt in E. rewrite bind_eq. cbn [ret snd].
  rewrite no_load_branch_eq by (cbn; lia). cbn [snd].
  eapply no_cut_trans; [exact N'|apply NoCut_no_load_body].
Qed.

(** X13: the power-cut output is driven by [stop_inverter(true)] alone.
    [start_inverter], [stop_inverter(false)], [enough_power_drawn],
    [wait_if_plugged], [show_error] and [is_power_good] never pulse it; so a
    round of the loop of [main] leaves it alone unless the battery is low,
    nothing is plugged in, the start fails or, in drawn-power mode, no load
    is found with [no_load_counter] at 60 or more.  A soft stop does nothing
    but wait between its frames. *)
Theorem power_cut_only_on_hard_stop :
  NoCut start_inverter /\ NoCut enough_power_drawn /\ NoCut is_power_good /\
  (forall n, NoCut (wait_if_plugged n)) /\
  (forall e, NoCut (show_error e)) /\
  Delays (stop_inverter false) /\
  (forall c s, hard_stop_round c s = false ->
     no_cut s (snd (main_iter c s))).
Proof.
  split; [apply NoCut_start_inverter|].
  split; [apply NoCut_Delays, (Delays_power_polls 10 0)|].
  split; [apply NoCut_Delays, (Delays_power_good_loop 10 0)|].
  split; [intros n; apply NoCut_Delays, Delays_wait_if_plugged|].
  split; [apply NoCut_show_error|].
  split; [apply Delays_stop_inverter|].
  apply main_iter_no_cut.
Qed.

Lemma power_cut_only_on_hard_stop_witness :
  hard_stop_round (mkCtl 20 false 0 true) (live_state idle_load_env) = false /\
  no_cut (live_state idle_load_env)
         (snd (main_iter (mkCtl 20 false 0 true) (live_state idle_load_env))).
Proof.
  assert (H : hard_stop_round (mkCtl 20 false 0 true)
                              (live_state idle_load_env) = false)
    by (vm_compute; reflexivity).
  split; [exact H|].
  destruct power_cut_only_on_hard_stop as (_ & _ & _ & _ & _ & _ & K).
  apply K. exact H.
Defined.

(** ** The sleep *)


Lemma hw_step_masked s e :
  ES s = false ->
  rcv (hw_step s e) = rcv s /\ tr (hw_step s e) = tr s /\
  wire (hw_step s e) = wire s /\ out (hw_step s e) = out s /\
  tr_armed (hw_step s e) = tr_armed s /\
  resp_buff (hw_step s e) = resp_buff s /\
  EA (hw_step s e) = EA s /\ ES (hw_step s e) = false /\
  PCON (hw_step s e) = PCON s.
Proof.
  intros H.
  assert (K : hw_step s e = match e with
                            | RxByte b => set_SBUF_in b (set_RI true s)
                            | TxDone => set_TI true s
                            end).
  { destruct e; cbn [hw_step]; unfold irq;
      cbn [EA ES set_SBUF_in set_RI set_TI];
      rewrite H, andb_false_r; reflexivity. }
  rewrite K. destruct e; splits; (reflexivity || exact H).
Qed.

Lemma hw_steps_masked evs : forall s,
  ES s = false ->
  let s' := fold_left hw_step evs s in
  rcv s' = rcv s /\ tr s' = tr s /\ wire s' = wire s /\ out s' = out s /\
  tr_armed s' = tr_armed s /\ resp_buff s' = resp_buff s /\
  EA s' = EA s /\ ES s' = false /\ PCON s' = PCON s.
Proof.
  induction evs as [|e t IH]; intros s H; cbv zeta; cbn [fold_left].
  - splits; (reflexivity || exact H).
  - destruct (hw_step_masked s e H)
      as (A1 & B1 & C1 & D1 & E1 & F1 & G1 & I1 & J1).
    destruct (IH (hw_step s e) I1) as (A & B & C & D & E & F & G & I & J).
    splits; congruence.
Qed.

Lemma sleep_unplugged_spec s :
  let s' := snd (sleep_unplugged s) in
  rcv s' = rcv s /\ tr s' = tr s /\ wire s' = wire s /\
  tr_armed s' = tr_armed s /\ resp_buff s' = resp_buff s /\
  out s' = out s ++ [AIdle] /\
  EA s' = EA s /\ ES s' = true /\ RI s' = false /\ TI s' = false /\
  PCON s' = Z.lor (PCON s) IDL.
Proof.
  cbv zeta. unfold sleep_unplugged, UART_INT_DIS, ENTER_IDLE, UART_INT_EN.
  unfold bind, act, modify. cbn [fst snd].
  set (s1 := set_out _ _).
  assert (H1 : ES s1 = false) by reflexivity.
  assert (K : rcv (pass_time s1) = rcv s1 /\ tr (pass_time s1) = tr s1 /\
              wire (pass_time s1) = wire s1 /\ out (pass_time s1) = out s1 /\
              tr_armed (pass_time s1) = tr_armed s1 /\
              resp_buff (pass_time s1) = resp_buff s1 /\
              EA (pass_time s1) = EA s1 /\ PCON (pass_time s1) = PCON s1).
  { unfold pass_time.
    destruct (uart_in (world s1)) as [|evs rest]; [splits; reflexivity|].
    destruct (hw_steps_masked evs
                (set_world (mkEnv (POW_5V_in (world s1)) (P_GOOD_in (world s1))
                                  (P3_2_in (world s1)) rest) s1) H1)
      as (A & B & C & D & E & F & G & _ & J).
    splits; assumption. }
  destruct K as (A & B & C & D & E & F & G & J).
  cbn [rcv tr wire tr_armed resp_buff out EA ES RI TI PCON set_ES set_RI set_TI].
  rewrite A, B, C, D, E, F, G, J. subst s1. cbn. splits; reflexivity.
Qed.

Lemma main_iter_unplugged c s :
  fst (is_power_good s) = true ->
  fst (anything_plugged (snd (is_power_good s))) = false ->
  main_iter c s =
  (Some (mkCtl (no_load_counter c) (prev_was_load c) 0 (drawn_power_detect c)),
   snd (sleep_unplugged
          (snd (stop_inverter true
                  (snd (anything_plugged (snd (is_power_good s)))))))).
Proof.
  intros G P. unfold main_iter. rewrite (bind_eq is_power_good), G.
  cbn [negb]. revert P. generalize (snd (is_power_good s)). intros s1 P.
  rewrite (bind_eq anything_plugged), P.
  generalize (snd (anything_plugged s1)). intros s2.
  rewrite (bind_eq (stop_inverter true)).
  generalize (snd (stop_inverter true s2)). intros s3.
  unfold sleep_unplugged. rewrite !bind_eq. reflexivity.
Qed.

(** X14: while the processor sleeps, the serial port is shut.  In a round
    with a good battery and nothing plugged in, the loop of [main] stops the
    inverter for good, switches the serial interrupt off, sleeps, and
    switches it on again with both flags cleared.  Whatever the UART does
    during the sleep, no received byte gets into the receive buffer (a byte
    that came in is dropped on waking), no byte is sent, and the only action
    is the sleep itself; the locals of the loop stay as they are, with
    [low_batt_counter] at 0. *)
Theorem sleep_shuts_serial_port :
  forall c s,
    fst (is_power_good s) = true ->
    fst (anything_plugged (snd (is_power_good s))) = false ->
    let s3 := snd (stop_inverter true
                     (snd (anything_plugged (snd (is_power_good s))))) in
    let s' := snd (main_iter c s) in
    fst (main_iter c s)
    = Some (mkCtl (no_load_counter c) (prev_was_load c) 0
                  (drawn_power_detect c)) /\
    s' = snd (sleep_unplugged s3) /\
    rcv s' = rcv s3 /\ tr s' = tr s3 /\ wire s' = wire s3 /\
    resp_buff s' = resp_buff s3 /\
    out s' = out s3 ++ [AIdle] /\
    ES s' = true /\ RI s' = false /\ TI s' = false.
Proof.
  intros c s G P. cbv zeta. rewrite (main_iter_unplugged c s G P).
  cbn [fst snd].
  destruct (sleep_unplugged_spec
              (snd (stop_inverter true
                      (snd (anything_plugged (snd (is_power_good s)))))))
    as (A & B & C & D & E & F & _ & H & I & J & _).
  splits; (reflexivity || assumption).
Qed.

Lemma sleep_shuts_serial_port_witness :
  rcv (snd (main_iter (mkCtl 0 false 0 false) (live_state asleep_env)))
  = empty_ring 8 /\
  out (snd (main_iter (mkCtl 0 false 0 false) (live_state asleep_env)))
  = repeat (ADelay 10) 10 ++ [AIdle].
Proof.
  assert (G : fst (is_power_good (live_state asleep_env)) = true)
    by (vm_compute; reflexivity).
  assert (P : fst (anything_plugged (snd (is_power_good (live_state asleep_env))))
              = false) by (vm_compute; reflexivity).
  destruct (sleep_shuts_serial_port (mkCtl 0 false 0 false)
              (live_state asleep_env) G P)
    as (_ & _ & A & _ & _ & _ & B & _).
  split.
  - rewrite A. vm_compute. reflexivity.
  - rewrite B. vm_compute. reflexivity.
Defined.
